(** * PancakeSwap pair sniper: gate, broadcaster, reserve oracle, sell monitor

    A shallow embedding of the sniper script (the module that starts with
    the [GLOBAL STATE LOCK] in [src/src/types/index.ts], and the price
    helper of [src/new.ts]).

    Conventions of the embedding:
    - [bigint] values are [Z]; BigInt division of non-negative operands is
      [Z.div] ([/]), which truncates the same way;
    - a JavaScript string is the [string] of the bytes of its UTF-8
      encoding: substrings, prefixes and [split] act on the bytes, which
      for well-formed texts is the same as acting on the code units,
      [length] counts the code units, and [toLowerCase] and [trim] act
      on the characters, with the case mappings of Unicode 14.0 and the
      white space of ECMAScript;
    - [process.env] is a finite map from keys to strings;
    - an [await] is a suspension point: asynchronous functions are cut
      into their synchronous segments, a segment runs without
      interruption, and the answer of the awaited call is an input of
      the segment that follows it;
    - a double-precision number is the rational it stands for: the
      liquidity figure [Number(ethers.formatEther(r))] is the binary64
      number nearest to r/10^18, ties going to the even mantissa. *)

From Stdlib Require Import ZArith QArith Bool Ascii String List Lia.
From stdpp Require Import base option list strings gmap.

Local Open Scope string_scope.
Local Open Scope Z_scope.

(** ** JavaScript string primitives used by the script *)

Module JsString.

(** *** Characters

    A text is held as the bytes of its UTF-8 encoding. *)

(** The value of a byte, and the byte of a value below 256. *)
Definition byte (c : ascii) : Z := Z.of_N (N_of_ascii c).
Definition ofByte (n : Z) : ascii := ascii_of_N (Z.to_N n).

(** The case mapping of an ASCII character. *)
Definition lower_ascii (c : ascii) : ascii :=
  let n := nat_of_ascii c in
  if ((65 <=? n) && (n <=? 90))%nat then ascii_of_nat (n + 32) else c.

(** A continuation byte of UTF-8. *)
Definition isContinuation (c : ascii) : bool := (0x80 <=? byte c) && (byte c <? 0xC0).

(** The characters of a text: a new one starts at every byte that is no
    continuation byte. *)
Fixpoint chunks (s : string) : list string :=
  match s with
  | EmptyString => []
  | String c rest =>
      match chunks rest with
      | String c' r :: chs =>
          if isContinuation c' then String c (String c' r) :: chs
          else String c EmptyString :: String c' r :: chs
      | chs => String c EmptyString :: chs
      end
  end.

Definition join (l : list string) : string := fold_right String.append EmptyString l.

(** The code point a character encodes, if it is a well-formed one. *)
Definition codePoint (ch : string) : option Z :=
  match ch with
  | String a EmptyString => if byte a <? 0x80 then Some (byte a) else None
  | String a (String b EmptyString) =>
      if (0xC2 <=? byte a) && (byte a <? 0xE0) && isContinuation b
      then Some ((byte a - 0xC0) * 0x40 + (byte b - 0x80))
      else None
  | String a (String b (String c EmptyString)) =>
      let v := (byte a - 0xE0) * 0x1000 + (byte b - 0x80) * 0x40 + (byte c - 0x80) in
      if (0xE0 <=? byte a) && (byte a <? 0xF0) && isContinuation b && isContinuation c
         && (0x800 <=? v) && negb ((0xD800 <=? v) && (v <? 0xE000))
      then Some v else None
  | String a (String b (String c (String d EmptyString))) =>
      let v := (byte a - 0xF0) * 0x40000 + (byte b - 0x80) * 0x1000
               + (byte c - 0x80) * 0x40 + (byte d - 0x80) in
      if (0xF0 <=? byte a) && (byte a <? 0xF5) && isContinuation b && isContinuation c
         && isContinuation d && (0x10000 <=? v) && (v <? 0x110000)
      then Some v else None
  | _ => None
  end.

(** The UTF-8 encoding of a code point. *)
Definition utf8 (c : Z) : string :=
  if c <? 0x80 then String (ofByte c) EmptyString
  else if c <? 0x800 then
    String (ofByte (0xC0 + c / 0x40)) (String (ofByte (0x80 + c mod 0x40)) EmptyString)
  else if c <? 0x10000 then
    String (ofByte (0xE0 + c / 0x1000))
      (String (ofByte (0x80 + c / 0x40 mod 0x40))
         (String (ofByte (0x80 + c mod 0x40)) EmptyString))
  else
    String (ofByte (0xF0 + c / 0x40000))
      (String (ofByte (0x80 + c / 0x1000 mod 0x40))
         (String (ofByte (0x80 + c / 0x40 mod 0x40))
            (String (ofByte (0x80 + c mod 0x40)) EmptyString))).

(** The lower-case mappings of Unicode 14.0 beyond ASCII (the
    [Lowercase_Mapping] of [UnicodeData.txt] and the unconditional
    mappings of [SpecialCasing.txt]): a code point and the code points
    of its lower-case form. *)
Definition lowerTable : list (Z * list Z) :=
  [
   (0xC0, [0xE0]); (0xC1, [0xE1]); (0xC2, [0xE2]); (0xC3, [0xE3]);
   (0xC4, [0xE4]); (0xC5, [0xE5]); (0xC6, [0xE6]); (0xC7, [0xE7]);
   (0xC8, [0xE8]); (0xC9, [0xE9]); (0xCA, [0xEA]); (0xCB, [0xEB]);
   (0xCC, [0xEC]); (0xCD, [0xED]); (0xCE, [0xEE]); (0xCF, [0xEF]);
   (0xD0, [0xF0]); (0xD1, [0xF1]); (0xD2, [0xF2]); (0xD3, [0xF3]);
   (0xD4, [0xF4]); (0xD5, [0xF5]); (0xD6, [0xF6]); (0xD8, [0xF8]);
   (0xD9, [0xF9]); (0xDA, [0xFA]); (0xDB, [0xFB]); (0xDC, [0xFC]);
   (0xDD, [0xFD]); (0xDE, [0xFE]); (0x100, [0x101]); (0x102, [0x103]);
   (0x104, [0x105]); (0x106, [0x107]); (0x108, [0x109]); (0x10A, [0x10B]);
   (0x10C, [0x10D]); (0x10E, [0x10F]); (0x110, [0x111]); (0x112, [0x113]);
   (0x114, [0x115]); (0x116, [0x117]); (0x118, [0x119]); (0x11A, [0x11B]);
   (0x11C, [0x11D]); (0x11E, [0x11F]); (0x120, [0x121]); (0x122, [0x123]);
   (0x124, [0x125]); (0x126, [0x127]); (0x128, [0x129]); (0x12A, [0x12B]);
   (0x12C, [0x12D]); (0x12E, [0x12F]); (0x130, [0x69; 0x307]); (0x132, [0x133]);
   (0x134, [0x135]); (0x136, [0x137]); (0x139, [0x13A]); (0x13B, [0x13C]);
   (0x13D, [0x13E]); (0x13F, [0x140]); (0x141, [0x142]); (0x143, [0x144]);
   (0x145, [0x146]); (0x147, [0x148]); (0x14A, [0x14B]); (0x14C, [0x14D]);
   (0x14E, [0x14F]); (0x150, [0x151]); (0x152, [0x153]); (0x154, [0x155]);
   (0x156, [0x157]); (0x158, [0x159]); (0x15A, [0x15B]); (0x15C, [0x15D]);
   (0x15E, [0x15F]); (0x160, [0x161]); (0x162, [0x163]); (0x164, [0x165]);
   (0x166, [0x167]); (0x168, [0x169]); (0x16A, [0x16B]); (0x16C, [0x16D]);
   (0x16E, [0x16F]); (0x170, [0x171]); (0x172, [0x173]); (0x174, [0x175]);
   (0x176, [0x177]); (0x178, [0xFF]); (0x179, [0x17A]); (0x17B, [0x17C]);
   (0x17D, [0x17E]); (0x181, [0x253]); (0x182, [0x183]); (0x184, [0x185]);
   (0x186, [0x254]); (0x187, [0x188]); (0x189, [0x256]); (0x18A, [0x257]);
   (0x18B, [0x18C]); (0x18E, [0x1DD]); (0x18F, [0x259]); (0x190, [0x25B]);
   (0x191, [0x192]); (0x193, [0x260]); (0x194, [0x263]); (0x196, [0x269]);
   (0x197, [0x268]); (0x198, [0x199]); (0x19C, [0x26F]); (0x19D, [0x272]);
   (0x19F, [0x275]); (0x1A0, [0x1A1]); (0x1A2, [0x1A3]); (0x1A4, [0x1A5]);
   (0x1A6, [0x280]); (0x1A7, [0x1A8]); (0x1A9, [0x283]); (0x1AC, [0x1AD]);
   (0x1AE, [0x288]); (0x1AF, [0x1B0]); (0x1B1, [0x28A]); (0x1B2, [0x28B]);
   (0x1B3, [0x1B4]); (0x1B5, [0x1B6]); (0x1B7, [0x292]); (0x1B8, [0x1B9]);
   (0x1BC, [0x1BD]); (0x1C4, [0x1C6]); (0x1C5, [0x1C6]); (0x1C7, [0x1C9]);
   (0x1C8, [0x1C9]); (0x1CA, [0x1CC]); (0x1CB, [0x1CC]); (0x1CD, [0x1CE]);
   (0x1CF, [0x1D0]); (0x1D1, [0x1D2]); (0x1D3, [0x1D4]); (0x1D5, [0x1D6]);
   (0x1D7, [0x1D8]); (0x1D9, [0x1DA]); (0x1DB, [0x1DC]); (0x1DE, [0x1DF]);
   (0x1E0, [0x1E1]); (0x1E2, [0x1E3]); (0x1E4, [0x1E5]); (0x1E6, [0x1E7]);
   (0x1E8, [0x1E9]); (0x1EA, [0x1EB]); (0x1EC, [0x1ED]); (0x1EE, [0x1EF]);
   (0x1F1, [0x1F3]); (0x1F2, [0x1F3]); (0x1F4, [0x1F5]); (0x1F6, [0x195]);
   (0x1F7, [0x1BF]); (0x1F8, [0x1F9]); (0x1FA, [0x1FB]); (0x1FC, [0x1FD]);
   (0x1FE, [0x1FF]); (0x200, [0x201]); (0x202, [0x203]); (0x204, [0x205]);
   (0x206, [0x207]); (0x208, [0x209]); (0x20A, [0x20B]); (0x20C, [0x20D]);
   (0x20E, [0x20F]); (0x210, [0x211]); (0x212, [0x213]); (0x214, [0x215]);
   (0x216, [0x217]); (0x218, [0x219]); (0x21A, [0x21B]); (0x21C, [0x21D]);
   (0x21E, [0x21F]); (0x220, [0x19E]); (0x222, [0x223]); (0x224, [0x225]);
   (0x226, [0x227]); (0x228, [0x229]); (0x22A, [0x22B]); (0x22C, [0x22D]);
   (0x22E, [0x22F]); (0x230, [0x231]); (0x232, [0x233]); (0x23A, [0x2C65]);
   (0x23B, [0x23C]); (0x23D, [0x19A]); (0x23E, [0x2C66]); (0x241, [0x242]);
   (0x243, [0x180]); (0x244, [0x289]); (0x245, [0x28C]); (0x246, [0x247]);
   (0x248, [0x249]); (0x24A, [0x24B]); (0x24C, [0x24D]); (0x24E, [0x24F]);
   (0x370, [0x371]); (0x372, [0x373]); (0x376, [0x377]); (0x37F, [0x3F3]);
   (0x386, [0x3AC]); (0x388, [0x3AD]); (0x389, [0x3AE]); (0x38A, [0x3AF]);
   (0x38C, [0x3CC]); (0x38E, [0x3CD]); (0x38F, [0x3CE]); (0x391, [0x3B1]);
   (0x392, [0x3B2]); (0x393, [0x3B3]); (0x394, [0x3B4]); (0x395, [0x3B5]);
   (0x396, [0x3B6]); (0x397, [0x3B7]); (0x398, [0x3B8]); (0x399, [0x3B9]);
   (0x39A, [0x3BA]); (0x39B, [0x3BB]); (0x39C, [0x3BC]); (0x39D, [0x3BD]);
   (0x39E, [0x3BE]); (0x39F, [0x3BF]); (0x3A0, [0x3C0]); (0x3A1, [0x3C1]);
   (0x3A3, [0x3C3]); (0x3A4, [0x3C4]); (0x3A5, [0x3C5]); (0x3A6, [0x3C6]);
   (0x3A7, [0x3C7]); (0x3A8, [0x3C8]); (0x3A9, [0x3C9]); (0x3AA, [0x3CA]);
   (0x3AB, [0x3CB]); (0x3CF, [0x3D7]); (0x3D8, [0x3D9]); (0x3DA, [0x3DB]);
   (0x3DC, [0x3DD]); (0x3DE, [0x3DF]); (0x3E0, [0x3E1]); (0x3E2, [0x3E3]);
   (0x3E4, [0x3E5]); (0x3E6, [0x3E7]); (0x3E8, [0x3E9]); (0x3EA, [0x3EB]);
   (0x3EC, [0x3ED]); (0x3EE, [0x3EF]); (0x3F4, [0x3B8]); (0x3F7, [0x3F8]);
   (0x3F9, [0x3F2]); (0x3FA, [0x3FB]); (0x3FD, [0x37B]); (0x3FE, [0x37C]);
   (0x3FF, [0x37D]); (0x400, [0x450]); (0x401, [0x451]); (0x402, [0x452]);
   (0x403, [0x453]); (0x404, [0x454]); (0x405, [0x455]); (0x406, [0x456]);
   (0x407, [0x457]); (0x408, [0x458]); (0x409, [0x459]); (0x40A, [0x45A]);
   (0x40B, [0x45B]); (0x40C, [0x45C]); (0x40D, [0x45D]); (0x40E, [0x45E]);
   (0x40F, [0x45F]); (0x410, [0x430]); (0x411, [0x431]); (0x412, [0x432]);
   (0x413, [0x433]); (0x414, [0x434]); (0x415, [0x435]); (0x416, [0x436]);
   (0x417, [0x437]); (0x418, [0x438]); (0x419, [0x439]); (0x41A, [0x43A]);
   (0x41B, [0x43B]); (0x41C, [0x43C]); (0x41D, [0x43D]); (0x41E, [0x43E]);
   (0x41F, [0x43F]); (0x420, [0x440]); (0x421, [0x441]); (0x422, [0x442]);
   (0x423, [0x443]); (0x424, [0x444]); (0x425, [0x445]); (0x426, [0x446]);
   (0x427, [0x447]); (0x428, [0x448]); (0x429, [0x449]); (0x42A, [0x44A]);
   (0x42B, [0x44B]); (0x42C, [0x44C]); (0x42D, [0x44D]); (0x42E, [0x44E]);
   (0x42F, [0x44F]); (0x460, [0x461]); (0x462, [0x463]); (0x464, [0x465]);
   (0x466, [0x467]); (0x468, [0x469]); (0x46A, [0x46B]); (0x46C, [0x46D]);
   (0x46E, [0x46F]); (0x470, [0x471]); (0x472, [0x473]); (0x474, [0x475]);
   (0x476, [0x477]); (0x478, [0x479]); (0x47A, [0x47B]); (0x47C, [0x47D]);
   (0x47E, [0x47F]); (0x480, [0x481]); (0x48A, [0x48B]); (0x48C, [0x48D]);
   (0x48E, [0x48F]); (0x490, [0x491]); (0x492, [0x493]); (0x494, [0x495]);
   (0x496, [0x497]); (0x498, [0x499]); (0x49A, [0x49B]); (0x49C, [0x49D]);
   (0x49E, [0x49F]); (0x4A0, [0x4A1]); (0x4A2, [0x4A3]); (0x4A4, [0x4A5]);
   (0x4A6, [0x4A7]); (0x4A8, [0x4A9]); (0x4AA, [0x4AB]); (0x4AC, [0x4AD]);
   (0x4AE, [0x4AF]); (0x4B0, [0x4B1]); (0x4B2, [0x4B3]); (0x4B4, [0x4B5]);
   (0x4B6, [0x4B7]); (0x4B8, [0x4B9]); (0x4BA, [0x4BB]); (0x4BC, [0x4BD]);
   (0x4BE, [0x4BF]); (0x4C0, [0x4CF]); (0x4C1, [0x4C2]); (0x4C3, [0x4C4]);
   (0x4C5, [0x4C6]); (0x4C7, [0x4C8]); (0x4C9, [0x4CA]); (0x4CB, [0x4CC]);
   (0x4CD, [0x4CE]); (0x4D0, [0x4D1]); (0x4D2, [0x4D3]); (0x4D4, [0x4D5]);
   (0x4D6, [0x4D7]); (0x4D8, [0x4D9]); (0x4DA, [0x4DB]); (0x4DC, [0x4DD]);
   (0x4DE, [0x4DF]); (0x4E0, [0x4E1]); (0x4E2, [0x4E3]); (0x4E4, [0x4E5]);
   (0x4E6, [0x4E7]); (0x4E8, [0x4E9]); (0x4EA, [0x4EB]); (0x4EC, [0x4ED]);
   (0x4EE, [0x4EF]); (0x4F0, [0x4F1]); (0x4F2, [0x4F3]); (0x4F4, [0x4F5]);
   (0x4F6, [0x4F7]); (0x4F8, [0x4F9]); (0x4FA, [0x4FB]); (0x4FC, [0x4FD]);
   (0x4FE, [0x4FF]); (0x500, [0x501]); (0x502, [0x503]); (0x504, [0x505]);
   (0x506, [0x507]); (0x508, [0x509]); (0x50A, [0x50B]); (0x50C, [0x50D]);
   (0x50E, [0x50F]); (0x510, [0x511]); (0x512, [0x513]); (0x514, [0x515]);
   (0x516, [0x517]); (0x518, [0x519]); (0x51A, [0x51B]); (0x51C, [0x51D]);
   (0x51E, [0x51F]); (0x520, [0x521]); (0x522, [0x523]); (0x524, [0x525]);
   (0x526, [0x527]); (0x528, [0x529]); (0x52A, [0x52B]); (0x52C, [0x52D]);
   (0x52E, [0x52F]); (0x531, [0x561]); (0x532, [0x562]); (0x533, [0x563]);
   (0x534, [0x564]); (0x535, [0x565]); (0x536, [0x566]); (0x537, [0x567]);
   (0x538, [0x568]); (0x539, [0x569]); (0x53A, [0x56A]); (0x53B, [0x56B]);
   (0x53C, [0x56C]); (0x53D, [0x56D]); (0x53E, [0x56E]); (0x53F, [0x56F]);
   (0x540, [0x570]); (0x541, [0x571]); (0x542, [0x572]); (0x543, [0x573]);
   (0x544, [0x574]); (0x545, [0x575]); (0x546, [0x576]); (0x547, [0x577]);
   (0x548, [0x578]); (0x549, [0x579]); (0x54A, [0x57A]); (0x54B, [0x57B]);
   (0x54C, [0x57C]); (0x54D, [0x57D]); (0x54E, [0x57E]); (0x54F, [0x57F]);
   (0x550, [0x580]); (0x551, [0x581]); (0x552, [0x582]); (0x553, [0x583]);
   (0x554, [0x584]); (0x555, [0x585]); (0x556, [0x586]); (0x10A0, [0x2D00]);
   (0x10A1, [0x2D01]); (0x10A2, [0x2D02]); (0x10A3, [0x2D03]); (0x10A4, [0x2D04]);
   (0x10A5, [0x2D05]); (0x10A6, [0x2D06]); (0x10A7, [0x2D07]); (0x10A8, [0x2D08]);
   (0x10A9, [0x2D09]); (0x10AA, [0x2D0A]); (0x10AB, [0x2D0B]); (0x10AC, [0x2D0C]);
   (0x10AD, [0x2D0D]); (0x10AE, [0x2D0E]); (0x10AF, [0x2D0F]); (0x10B0, [0x2D10]);
   (0x10B1, [0x2D11]); (0x10B2, [0x2D12]); (0x10B3, [0x2D13]); (0x10B4, [0x2D14]);
   (0x10B5, [0x2D15]); (0x10B6, [0x2D16]); (0x10B7, [0x2D17]); (0x10B8, [0x2D18]);
   (0x10B9, [0x2D19]); (0x10BA, [0x2D1A]); (0x10BB, [0x2D1B]); (0x10BC, [0x2D1C]);
   (0x10BD, [0x2D1D]); (0x10BE, [0x2D1E]); (0x10BF, [0x2D1F]); (0x10C0, [0x2D20]);
   (0x10C1, [0x2D21]); (0x10C2, [0x2D22]); (0x10C3, [0x2D23]); (0x10C4, [0x2D24]);
   (0x10C5, [0x2D25]); (0x10C7, [0x2D27]); (0x10CD, [0x2D2D]); (0x13A0, [0xAB70]);
   (0x13A1, [0xAB71]); (0x13A2, [0xAB72]); (0x13A3, [0xAB73]); (0x13A4, [0xAB74]);
   (0x13A5, [0xAB75]); (0x13A6, [0xAB76]); (0x13A7, [0xAB77]); (0x13A8, [0xAB78]);
   (0x13A9, [0xAB79]); (0x13AA, [0xAB7A]); (0x13AB, [0xAB7B]); (0x13AC, [0xAB7C]);
   (0x13AD, [0xAB7D]); (0x13AE, [0xAB7E]); (0x13AF, [0xAB7F]); (0x13B0, [0xAB80]);
   (0x13B1, [0xAB81]); (0x13B2, [0xAB82]); (0x13B3, [0xAB83]); (0x13B4, [0xAB84]);
   (0x13B5, [0xAB85]); (0x13B6, [0xAB86]); (0x13B7, [0xAB87]); (0x13B8, [0xAB88]);
   (0x13B9, [0xAB89]); (0x13BA, [0xAB8A]); (0x13BB, [0xAB8B]); (0x13BC, [0xAB8C]);
   (0x13BD, [0xAB8D]); (0x13BE, [0xAB8E]); (0x13BF, [0xAB8F]); (0x13C0, [0xAB90]);
   (0x13C1, [0xAB91]); (0x13C2, [0xAB92]); (0x13C3, [0xAB93]); (0x13C4, [0xAB94]);
   (0x13C5, [0xAB95]); (0x13C6, [0xAB96]); (0x13C7, [0xAB97]); (0x13C8, [0xAB98]);
   (0x13C9, [0xAB99]); (0x13CA, [0xAB9A]); (0x13CB, [0xAB9B]); (0x13CC, [0xAB9C]);
   (0x13CD, [0xAB9D]); (0x13CE, [0xAB9E]); (0x13CF, [0xAB9F]); (0x13D0, [0xABA0]);
   (0x13D1, [0xABA1]); (0x13D2, [0xABA2]); (0x13D3, [0xABA3]); (0x13D4, [0xABA4]);
   (0x13D5, [0xABA5]); (0x13D6, [0xABA6]); (0x13D7, [0xABA7]); (0x13D8, [0xABA8]);
   (0x13D9, [0xABA9]); (0x13DA, [0xABAA]); (0x13DB, [0xABAB]); (0x13DC, [0xABAC]);
   (0x13DD, [0xABAD]); (0x13DE, [0xABAE]); (0x13DF, [0xABAF]); (0x13E0, [0xABB0]);
   (0x13E1, [0xABB1]); (0x13E2, [0xABB2]); (0x13E3, [0xABB3]); (0x13E4, [0xABB4]);
   (0x13E5, [0xABB5]); (0x13E6, [0xABB6]); (0x13E7, [0xABB7]); (0x13E8, [0xABB8]);
   (0x13E9, [0xABB9]); (0x13EA, [0xABBA]); (0x13EB, [0xABBB]); (0x13EC, [0xABBC]);
   (0x13ED, [0xABBD]); (0x13EE, [0xABBE]); (0x13EF, [0xABBF]); (0x13F0, [0x13F8]);
   (0x13F1, [0x13F9]); (0x13F2, [0x13FA]); (0x13F3, [0x13FB]); (0x13F4, [0x13FC]);
   (0x13F5, [0x13FD]); (0x1C90, [0x10D0]); (0x1C91, [0x10D1]); (0x1C92, [0x10D2]);
   (0x1C93, [0x10D3]); (0x1C94, [0x10D4]); (0x1C95, [0x10D5]); (0x1C96, [0x10D6]);
   (0x1C97, [0x10D7]); (0x1C98, [0x10D8]); (0x1C99, [0x10D9]); (0x1C9A, [0x10DA]);
   (0x1C9B, [0x10DB]); (0x1C9C, [0x10DC]); (0x1C9D, [0x10DD]); (0x1C9E, [0x10DE]);
   (0x1C9F, [0x10DF]); (0x1CA0, [0x10E0]); (0x1CA1, [0x10E1]); (0x1CA2, [0x10E2]);
   (0x1CA3, [0x10E3]); (0x1CA4, [0x10E4]); (0x1CA5, [0x10E5]); (0x1CA6, [0x10E6]);
   (0x1CA7, [0x10E7]); (0x1CA8, [0x10E8]); (0x1CA9, [0x10E9]); (0x1CAA, [0x10EA]);
   (0x1CAB, [0x10EB]); (0x1CAC, [0x10EC]); (0x1CAD, [0x10ED]); (0x1CAE, [0x10EE]);
   (0x1CAF, [0x10EF]); (0x1CB0, [0x10F0]); (0x1CB1, [0x10F1]); (0x1CB2, [0x10F2]);
   (0x1CB3, [0x10F3]); (0x1CB4, [0x10F4]); (0x1CB5, [0x10F5]); (0x1CB6, [0x10F6]);
   (0x1CB7, [0x10F7]); (0x1CB8, [0x10F8]); (0x1CB9, [0x10F9]); (0x1CBA, [0x10FA]);
   (0x1CBD, [0x10FD]); (0x1CBE, [0x10FE]); (0x1CBF, [0x10FF]); (0x1E00, [0x1E01]);
   (0x1E02, [0x1E03]); (0x1E04, [0x1E05]); (0x1E06, [0x1E07]); (0x1E08, [0x1E09]);
   (0x1E0A, [0x1E0B]); (0x1E0C, [0x1E0D]); (0x1E0E, [0x1E0F]); (0x1E10, [0x1E11]);
   (0x1E12, [0x1E13]); (0x1E14, [0x1E15]); (0x1E16, [0x1E17]); (0x1E18, [0x1E19]);
   (0x1E1A, [0x1E1B]); (0x1E1C, [0x1E1D]); (0x1E1E, [0x1E1F]); (0x1E20, [0x1E21]);
   (0x1E22, [0x1E23]); (0x1E24, [0x1E25]); (0x1E26, [0x1E27]); (0x1E28, [0x1E29]);
   (0x1E2A, [0x1E2B]); (0x1E2C, [0x1E2D]); (0x1E2E, [0x1E2F]); (0x1E30, [0x1E31]);
   (0x1E32, [0x1E33]); (0x1E34, [0x1E35]); (0x1E36, [0x1E37]); (0x1E38, [0x1E39]);
   (0x1E3A, [0x1E3B]); (0x1E3C, [0x1E3D]); (0x1E3E, [0x1E3F]); (0x1E40, [0x1E41]);
   (0x1E42, [0x1E43]); (0x1E44, [0x1E45]); (0x1E46, [0x1E47]); (0x1E48, [0x1E49]);
   (0x1E4A, [0x1E4B]); (0x1E4C, [0x1E4D]); (0x1E4E, [0x1E4F]); (0x1E50, [0x1E51]);
   (0x1E52, [0x1E53]); (0x1E54, [0x1E55]); (0x1E56, [0x1E57]); (0x1E58, [0x1E59]);
   (0x1E5A, [0x1E5B]); (0x1E5C, [0x1E5D]); (0x1E5E, [0x1E5F]); (0x1E60, [0x1E61]);
   (0x1E62, [0x1E63]); (0x1E64, [0x1E65]); (0x1E66, [0x1E67]); (0x1E68, [0x1E69]);
   (0x1E6A, [0x1E6B]); (0x1E6C, [0x1E6D]); (0x1E6E, [0x1E6F]); (0x1E70, [0x1E71]);
   (0x1E72, [0x1E73]); (0x1E74, [0x1E75]); (0x1E76, [0x1E77]); (0x1E78, [0x1E79]);
   (0x1E7A, [0x1E7B]); (0x1E7C, [0x1E7D]); (0x1E7E, [0x1E7F]); (0x1E80, [0x1E81]);
   (0x1E82, [0x1E83]); (0x1E84, [0x1E85]); (0x1E86, [0x1E87]); (0x1E88, [0x1E89]);
   (0x1E8A, [0x1E8B]); (0x1E8C, [0x1E8D]); (0x1E8E, [0x1E8F]); (0x1E90, [0x1E91]);
   (0x1E92, [0x1E93]); (0x1E94, [0x1E95]); (0x1E9E, [0xDF]); (0x1EA0, [0x1EA1]);
   (0x1EA2, [0x1EA3]); (0x1EA4, [0x1EA5]); (0x1EA6, [0x1EA7]); (0x1EA8, [0x1EA9]);
   (0x1EAA, [0x1EAB]); (0x1EAC, [0x1EAD]); (0x1EAE, [0x1EAF]); (0x1EB0, [0x1EB1]);
   (0x1EB2, [0x1EB3]); (0x1EB4, [0x1EB5]); (0x1EB6, [0x1EB7]); (0x1EB8, [0x1EB9]);
   (0x1EBA, [0x1EBB]); (0x1EBC, [0x1EBD]); (0x1EBE, [0x1EBF]); (0x1EC0, [0x1EC1]);
   (0x1EC2, [0x1EC3]); (0x1EC4, [0x1EC5]); (0x1EC6, [0x1EC7]); (0x1EC8, [0x1EC9]);
   (0x1ECA, [0x1ECB]); (0x1ECC, [0x1ECD]); (0x1ECE, [0x1ECF]); (0x1ED0, [0x1ED1]);
   (0x1ED2, [0x1ED3]); (0x1ED4, [0x1ED5]); (0x1ED6, [0x1ED7]); (0x1ED8, [0x1ED9]);
   (0x1EDA, [0x1EDB]); (0x1EDC, [0x1EDD]); (0x1EDE, [0x1EDF]); (0x1EE0, [0x1EE1]);
   (0x1EE2, [0x1EE3]); (0x1EE4, [0x1EE5]); (0x1EE6, [0x1EE7]); (0x1EE8, [0x1EE9]);
   (0x1EEA, [0x1EEB]); (0x1EEC, [0x1EED]); (0x1EEE, [0x1EEF]); (0x1EF0, [0x1EF1]);
   (0x1EF2, [0x1EF3]); (0x1EF4, [0x1EF5]); (0x1EF6, [0x1EF7]); (0x1EF8, [0x1EF9]);
   (0x1EFA, [0x1EFB]); (0x1EFC, [0x1EFD]); (0x1EFE, [0x1EFF]); (0x1F08, [0x1F00]);
   (0x1F09, [0x1F01]); (0x1F0A, [0x1F02]); (0x1F0B, [0x1F03]); (0x1F0C, [0x1F04]);
   (0x1F0D, [0x1F05]); (0x1F0E, [0x1F06]); (0x1F0F, [0x1F07]); (0x1F18, [0x1F10]);
   (0x1F19, [0x1F11]); (0x1F1A, [0x1F12]); (0x1F1B, [0x1F13]); (0x1F1C, [0x1F14]);
   (0x1F1D, [0x1F15]); (0x1F28, [0x1F20]); (0x1F29, [0x1F21]); (0x1F2A, [0x1F22]);
   (0x1F2B, [0x1F23]); (0x1F2C, [0x1F24]); (0x1F2D, [0x1F25]); (0x1F2E, [0x1F26]);
   (0x1F2F, [0x1F27]); (0x1F38, [0x1F30]); (0x1F39, [0x1F31]); (0x1F3A, [0x1F32]);
   (0x1F3B, [0x1F33]); (0x1F3C, [0x1F34]); (0x1F3D, [0x1F35]); (0x1F3E, [0x1F36]);
   (0x1F3F, [0x1F37]); (0x1F48, [0x1F40]); (0x1F49, [0x1F41]); (0x1F4A, [0x1F42]);
   (0x1F4B, [0x1F43]); (0x1F4C, [0x1F44]); (0x1F4D, [0x1F45]); (0x1F59, [0x1F51]);
   (0x1F5B, [0x1F53]); (0x1F5D, [0x1F55]); (0x1F5F, [0x1F57]); (0x1F68, [0x1F60]);
   (0x1F69, [0x1F61]); (0x1F6A, [0x1F62]); (0x1F6B, [0x1F63]); (0x1F6C, [0x1F64]);
   (0x1F6D, [0x1F65]); (0x1F6E, [0x1F66]); (0x1F6F, [0x1F67]); (0x1F88, [0x1F80]);
   (0x1F89, [0x1F81]); (0x1F8A, [0x1F82]); (0x1F8B, [0x1F83]); (0x1F8C, [0x1F84]);
   (0x1F8D, [0x1F85]); (0x1F8E, [0x1F86]); (0x1F8F, [0x1F87]); (0x1F98, [0x1F90]);
   (0x1F99, [0x1F91]); (0x1F9A, [0x1F92]); (0x1F9B, [0x1F93]); (0x1F9C, [0x1F94]);
   (0x1F9D, [0x1F95]); (0x1F9E, [0x1F96]); (0x1F9F, [0x1F97]); (0x1FA8, [0x1FA0]);
   (0x1FA9, [0x1FA1]); (0x1FAA, [0x1FA2]); (0x1FAB, [0x1FA3]); (0x1FAC, [0x1FA4]);
   (0x1FAD, [0x1FA5]); (0x1FAE, [0x1FA6]); (0x1FAF, [0x1FA7]); (0x1FB8, [0x1FB0]);
   (0x1FB9, [0x1FB1]); (0x1FBA, [0x1F70]); (0x1FBB, [0x1F71]); (0x1FBC, [0x1FB3]);
   (0x1FC8, [0x1F72]); (0x1FC9, [0x1F73]); (0x1FCA, [0x1F74]); (0x1FCB, [0x1F75]);
   (0x1FCC, [0x1FC3]); (0x1FD8, [0x1FD0]); (0x1FD9, [0x1FD1]); (0x1FDA, [0x1F76]);
   (0x1FDB, [0x1F77]); (0x1FE8, [0x1FE0]); (0x1FE9, [0x1FE1]); (0x1FEA, [0x1F7A]);
   (0x1FEB, [0x1F7B]); (0x1FEC, [0x1FE5]); (0x1FF8, [0x1F78]); (0x1FF9, [0x1F79]);
   (0x1FFA, [0x1F7C]); (0x1FFB, [0x1F7D]); (0x1FFC, [0x1FF3]); (0x2126, [0x3C9]);
   (0x212A, [0x6B]); (0x212B, [0xE5]); (0x2132, [0x214E]); (0x2160, [0x2170]);
   (0x2161, [0x2171]); (0x2162, [0x2172]); (0x2163, [0x2173]); (0x2164, [0x2174]);
   (0x2165, [0x2175]); (0x2166, [0x2176]); (0x2167, [0x2177]); (0x2168, [0x2178]);
   (0x2169, [0x2179]); (0x216A, [0x217A]); (0x216B, [0x217B]); (0x216C, [0x217C]);
   (0x216D, [0x217D]); (0x216E, [0x217E]); (0x216F, [0x217F]); (0x2183, [0x2184]);
   (0x24B6, [0x24D0]); (0x24B7, [0x24D1]); (0x24B8, [0x24D2]); (0x24B9, [0x24D3]);
   (0x24BA, [0x24D4]); (0x24BB, [0x24D5]); (0x24BC, [0x24D6]); (0x24BD, [0x24D7]);
   (0x24BE, [0x24D8]); (0x24BF, [0x24D9]); (0x24C0, [0x24DA]); (0x24C1, [0x24DB]);
   (0x24C2, [0x24DC]); (0x24C3, [0x24DD]); (0x24C4, [0x24DE]); (0x24C5, [0x24DF]);
   (0x24C6, [0x24E0]); (0x24C7, [0x24E1]); (0x24C8, [0x24E2]); (0x24C9, [0x24E3]);
   (0x24CA, [0x24E4]); (0x24CB, [0x24E5]); (0x24CC, [0x24E6]); (0x24CD, [0x24E7]);
   (0x24CE, [0x24E8]); (0x24CF, [0x24E9]); (0x2C00, [0x2C30]); (0x2C01, [0x2C31]);
   (0x2C02, [0x2C32]); (0x2C03, [0x2C33]); (0x2C04, [0x2C34]); (0x2C05, [0x2C35]);
   (0x2C06, [0x2C36]); (0x2C07, [0x2C37]); (0x2C08, [0x2C38]); (0x2C09, [0x2C39]);
   (0x2C0A, [0x2C3A]); (0x2C0B, [0x2C3B]); (0x2C0C, [0x2C3C]); (0x2C0D, [0x2C3D]);
   (0x2C0E, [0x2C3E]); (0x2C0F, [0x2C3F]); (0x2C10, [0x2C40]); (0x2C11, [0x2C41]);
   (0x2C12, [0x2C42]); (0x2C13, [0x2C43]); (0x2C14, [0x2C44]); (0x2C15, [0x2C45]);
   (0x2C16, [0x2C46]); (0x2C17, [0x2C47]); (0x2C18, [0x2C48]); (0x2C19, [0x2C49]);
   (0x2C1A, [0x2C4A]); (0x2C1B, [0x2C4B]); (0x2C1C, [0x2C4C]); (0x2C1D, [0x2C4D]);
   (0x2C1E, [0x2C4E]); (0x2C1F, [0x2C4F]); (0x2C20, [0x2C50]); (0x2C21, [0x2C51]);
   (0x2C22, [0x2C52]); (0x2C23, [0x2C53]); (0x2C24, [0x2C54]); (0x2C25, [0x2C55]);
   (0x2C26, [0x2C56]); (0x2C27, [0x2C57]); (0x2C28, [0x2C58]); (0x2C29, [0x2C59]);
   (0x2C2A, [0x2C5A]); (0x2C2B, [0x2C5B]); (0x2C2C, [0x2C5C]); (0x2C2D, [0x2C5D]);
   (0x2C2E, [0x2C5E]); (0x2C2F, [0x2C5F]); (0x2C60, [0x2C61]); (0x2C62, [0x26B]);
   (0x2C63, [0x1D7D]); (0x2C64, [0x27D]); (0x2C67, [0x2C68]); (0x2C69, [0x2C6A]);
   (0x2C6B, [0x2C6C]); (0x2C6D, [0x251]); (0x2C6E, [0x271]); (0x2C6F, [0x250]);
   (0x2C70, [0x252]); (0x2C72, [0x2C73]); (0x2C75, [0x2C76]); (0x2C7E, [0x23F]);
   (0x2C7F, [0x240]); (0x2C80, [0x2C81]); (0x2C82, [0x2C83]); (0x2C84, [0x2C85]);
   (0x2C86, [0x2C87]); (0x2C88, [0x2C89]); (0x2C8A, [0x2C8B]); (0x2C8C, [0x2C8D]);
   (0x2C8E, [0x2C8F]); (0x2C90, [0x2C91]); (0x2C92, [0x2C93]); (0x2C94, [0x2C95]);
   (0x2C96, [0x2C97]); (0x2C98, [0x2C99]); (0x2C9A, [0x2C9B]); (0x2C9C, [0x2C9D]);
   (0x2C9E, [0x2C9F]); (0x2CA0, [0x2CA1]); (0x2CA2, [0x2CA3]); (0x2CA4, [0x2CA5]);
   (0x2CA6, [0x2CA7]); (0x2CA8, [0x2CA9]); (0x2CAA, [0x2CAB]); (0x2CAC, [0x2CAD]);
   (0x2CAE, [0x2CAF]); (0x2CB0, [0x2CB1]); (0x2CB2, [0x2CB3]); (0x2CB4, [0x2CB5]);
   (0x2CB6, [0x2CB7]); (0x2CB8, [0x2CB9]); (0x2CBA, [0x2CBB]); (0x2CBC, [0x2CBD]);
   (0x2CBE, [0x2CBF]); (0x2CC0, [0x2CC1]); (0x2CC2, [0x2CC3]); (0x2CC4, [0x2CC5]);
   (0x2CC6, [0x2CC7]); (0x2CC8, [0x2CC9]); (0x2CCA, [0x2CCB]); (0x2CCC, [0x2CCD]);
   (0x2CCE, [0x2CCF]); (0x2CD0, [0x2CD1]); (0x2CD2, [0x2CD3]); (0x2CD4, [0x2CD5]);
   (0x2CD6, [0x2CD7]); (0x2CD8, [0x2CD9]); (0x2CDA, [0x2CDB]); (0x2CDC, [0x2CDD]);
   (0x2CDE, [0x2CDF]); (0x2CE0, [0x2CE1]); (0x2CE2, [0x2CE3]); (0x2CEB, [0x2CEC]);
   (0x2CED, [0x2CEE]); (0x2CF2, [0x2CF3]); (0xA640, [0xA641]); (0xA642, [0xA643]);
   (0xA644, [0xA645]); (0xA646, [0xA647]); (0xA648, [0xA649]); (0xA64A, [0xA64B]);
   (0xA64C, [0xA64D]); (0xA64E, [0xA64F]); (0xA650, [0xA651]); (0xA652, [0xA653]);
   (0xA654, [0xA655]); (0xA656, [0xA657]); (0xA658, [0xA659]); (0xA65A, [0xA65B]);
   (0xA65C, [0xA65D]); (0xA65E, [0xA65F]); (0xA660, [0xA661]); (0xA662, [0xA663]);
   (0xA664, [0xA665]); (0xA666, [0xA667]); (0xA668, [0xA669]); (0xA66A, [0xA66B]);
   (0xA66C, [0xA66D]); (0xA680, [0xA681]); (0xA682, [0xA683]); (0xA684, [0xA685]);
   (0xA686, [0xA687]); (0xA688, [0xA689]); (0xA68A, [0xA68B]); (0xA68C, [0xA68D]);
   (0xA68E, [0xA68F]); (0xA690, [0xA691]); (0xA692, [0xA693]); (0xA694, [0xA695]);
   (0xA696, [0xA697]); (0xA698, [0xA699]); (0xA69A, [0xA69B]); (0xA722, [0xA723]);
   (0xA724, [0xA725]); (0xA726, [0xA727]); (0xA728, [0xA729]); (0xA72A, [0xA72B]);
   (0xA72C, [0xA72D]); (0xA72E, [0xA72F]); (0xA732, [0xA733]); (0xA734, [0xA735]);
   (0xA736, [0xA737]); (0xA738, [0xA739]); (0xA73A, [0xA73B]); (0xA73C, [0xA73D]);
   (0xA73E, [0xA73F]); (0xA740, [0xA741]); (0xA742, [0xA743]); (0xA744, [0xA745]);
   (0xA746, [0xA747]); (0xA748, [0xA749]); (0xA74A, [0xA74B]); (0xA74C, [0xA74D]);
   (0xA74E, [0xA74F]); (0xA750, [0xA751]); (0xA752, [0xA753]); (0xA754, [0xA755]);
   (0xA756, [0xA757]); (0xA758, [0xA759]); (0xA75A, [0xA75B]); (0xA75C, [0xA75D]);
   (0xA75E, [0xA75F]); (0xA760, [0xA761]); (0xA762, [0xA763]); (0xA764, [0xA765]);
   (0xA766, [0xA767]); (0xA768, [0xA769]); (0xA76A, [0xA76B]); (0xA76C, [0xA76D]);
   (0xA76E, [0xA76F]); (0xA779, [0xA77A]); (0xA77B, [0xA77C]); (0xA77D, [0x1D79]);
   (0xA77E, [0xA77F]); (0xA780, [0xA781]); (0xA782, [0xA783]); (0xA784, [0xA785]);
   (0xA786, [0xA787]); (0xA78B, [0xA78C]); (0xA78D, [0x265]); (0xA790, [0xA791]);
   (0xA792, [0xA793]); (0xA796, [0xA797]); (0xA798, [0xA799]); (0xA79A, [0xA79B]);
   (0xA79C, [0xA79D]); (0xA79E, [0xA79F]); (0xA7A0, [0xA7A1]); (0xA7A2, [0xA7A3]);
   (0xA7A4, [0xA7A5]); (0xA7A6, [0xA7A7]); (0xA7A8, [0xA7A9]); (0xA7AA, [0x266]);
   (0xA7AB, [0x25C]); (0xA7AC, [0x261]); (0xA7AD, [0x26C]); (0xA7AE, [0x26A]);
   (0xA7B0, [0x29E]); (0xA7B1, [0x287]); (0xA7B2, [0x29D]); (0xA7B3, [0xAB53]);
   (0xA7B4, [0xA7B5]); (0xA7B6, [0xA7B7]); (0xA7B8, [0xA7B9]); (0xA7BA, [0xA7BB]);
   (0xA7BC, [0xA7BD]); (0xA7BE, [0xA7BF]); (0xA7C0, [0xA7C1]); (0xA7C2, [0xA7C3]);
   (0xA7C4, [0xA794]); (0xA7C5, [0x282]); (0xA7C6, [0x1D8E]); (0xA7C7, [0xA7C8]);
   (0xA7C9, [0xA7CA]); (0xA7D0, [0xA7D1]); (0xA7D6, [0xA7D7]); (0xA7D8, [0xA7D9]);
   (0xA7F5, [0xA7F6]); (0xFF21, [0xFF41]); (0xFF22, [0xFF42]); (0xFF23, [0xFF43]);
   (0xFF24, [0xFF44]); (0xFF25, [0xFF45]); (0xFF26, [0xFF46]); (0xFF27, [0xFF47]);
   (0xFF28, [0xFF48]); (0xFF29, [0xFF49]); (0xFF2A, [0xFF4A]); (0xFF2B, [0xFF4B]);
   (0xFF2C, [0xFF4C]); (0xFF2D, [0xFF4D]); (0xFF2E, [0xFF4E]); (0xFF2F, [0xFF4F]);
   (0xFF30, [0xFF50]); (0xFF31, [0xFF51]); (0xFF32, [0xFF52]); (0xFF33, [0xFF53]);
   (0xFF34, [0xFF54]); (0xFF35, [0xFF55]); (0xFF36, [0xFF56]); (0xFF37, [0xFF57]);
   (0xFF38, [0xFF58]); (0xFF39, [0xFF59]); (0xFF3A, [0xFF5A]); (0x10400, [0x10428]);
   (0x10401, [0x10429]); (0x10402, [0x1042A]); (0x10403, [0x1042B]); (0x10404, [0x1042C]);
   (0x10405, [0x1042D]); (0x10406, [0x1042E]); (0x10407, [0x1042F]); (0x10408, [0x10430]);
   (0x10409, [0x10431]); (0x1040A, [0x10432]); (0x1040B, [0x10433]); (0x1040C, [0x10434]);
   (0x1040D, [0x10435]); (0x1040E, [0x10436]); (0x1040F, [0x10437]); (0x10410, [0x10438]);
   (0x10411, [0x10439]); (0x10412, [0x1043A]); (0x10413, [0x1043B]); (0x10414, [0x1043C]);
   (0x10415, [0x1043D]); (0x10416, [0x1043E]); (0x10417, [0x1043F]); (0x10418, [0x10440]);
   (0x10419, [0x10441]); (0x1041A, [0x10442]); (0x1041B, [0x10443]); (0x1041C, [0x10444]);
   (0x1041D, [0x10445]); (0x1041E, [0x10446]); (0x1041F, [0x10447]); (0x10420, [0x10448]);
   (0x10421, [0x10449]); (0x10422, [0x1044A]); (0x10423, [0x1044B]); (0x10424, [0x1044C]);
   (0x10425, [0x1044D]); (0x10426, [0x1044E]); (0x10427, [0x1044F]); (0x104B0, [0x104D8]);
   (0x104B1, [0x104D9]); (0x104B2, [0x104DA]); (0x104B3, [0x104DB]); (0x104B4, [0x104DC]);
   (0x104B5, [0x104DD]); (0x104B6, [0x104DE]); (0x104B7, [0x104DF]); (0x104B8, [0x104E0]);
   (0x104B9, [0x104E1]); (0x104BA, [0x104E2]); (0x104BB, [0x104E3]); (0x104BC, [0x104E4]);
   (0x104BD, [0x104E5]); (0x104BE, [0x104E6]); (0x104BF, [0x104E7]); (0x104C0, [0x104E8]);
   (0x104C1, [0x104E9]); (0x104C2, [0x104EA]); (0x104C3, [0x104EB]); (0x104C4, [0x104EC]);
   (0x104C5, [0x104ED]); (0x104C6, [0x104EE]); (0x104C7, [0x104EF]); (0x104C8, [0x104F0]);
   (0x104C9, [0x104F1]); (0x104CA, [0x104F2]); (0x104CB, [0x104F3]); (0x104CC, [0x104F4]);
   (0x104CD, [0x104F5]); (0x104CE, [0x104F6]); (0x104CF, [0x104F7]); (0x104D0, [0x104F8]);
   (0x104D1, [0x104F9]); (0x104D2, [0x104FA]); (0x104D3, [0x104FB]); (0x10570, [0x10597]);
   (0x10571, [0x10598]); (0x10572, [0x10599]); (0x10573, [0x1059A]); (0x10574, [0x1059B]);
   (0x10575, [0x1059C]); (0x10576, [0x1059D]); (0x10577, [0x1059E]); (0x10578, [0x1059F]);
   (0x10579, [0x105A0]); (0x1057A, [0x105A1]); (0x1057C, [0x105A3]); (0x1057D, [0x105A4]);
   (0x1057E, [0x105A5]); (0x1057F, [0x105A6]); (0x10580, [0x105A7]); (0x10581, [0x105A8]);
   (0x10582, [0x105A9]); (0x10583, [0x105AA]); (0x10584, [0x105AB]); (0x10585, [0x105AC]);
   (0x10586, [0x105AD]); (0x10587, [0x105AE]); (0x10588, [0x105AF]); (0x10589, [0x105B0]);
   (0x1058A, [0x105B1]); (0x1058C, [0x105B3]); (0x1058D, [0x105B4]); (0x1058E, [0x105B5]);
   (0x1058F, [0x105B6]); (0x10590, [0x105B7]); (0x10591, [0x105B8]); (0x10592, [0x105B9]);
   (0x10594, [0x105BB]); (0x10595, [0x105BC]); (0x10C80, [0x10CC0]); (0x10C81, [0x10CC1]);
   (0x10C82, [0x10CC2]); (0x10C83, [0x10CC3]); (0x10C84, [0x10CC4]); (0x10C85, [0x10CC5]);
   (0x10C86, [0x10CC6]); (0x10C87, [0x10CC7]); (0x10C88, [0x10CC8]); (0x10C89, [0x10CC9]);
   (0x10C8A, [0x10CCA]); (0x10C8B, [0x10CCB]); (0x10C8C, [0x10CCC]); (0x10C8D, [0x10CCD]);
   (0x10C8E, [0x10CCE]); (0x10C8F, [0x10CCF]); (0x10C90, [0x10CD0]); (0x10C91, [0x10CD1]);
   (0x10C92, [0x10CD2]); (0x10C93, [0x10CD3]); (0x10C94, [0x10CD4]); (0x10C95, [0x10CD5]);
   (0x10C96, [0x10CD6]); (0x10C97, [0x10CD7]); (0x10C98, [0x10CD8]); (0x10C99, [0x10CD9]);
   (0x10C9A, [0x10CDA]); (0x10C9B, [0x10CDB]); (0x10C9C, [0x10CDC]); (0x10C9D, [0x10CDD]);
   (0x10C9E, [0x10CDE]); (0x10C9F, [0x10CDF]); (0x10CA0, [0x10CE0]); (0x10CA1, [0x10CE1]);
   (0x10CA2, [0x10CE2]); (0x10CA3, [0x10CE3]); (0x10CA4, [0x10CE4]); (0x10CA5, [0x10CE5]);
   (0x10CA6, [0x10CE6]); (0x10CA7, [0x10CE7]); (0x10CA8, [0x10CE8]); (0x10CA9, [0x10CE9]);
   (0x10CAA, [0x10CEA]); (0x10CAB, [0x10CEB]); (0x10CAC, [0x10CEC]); (0x10CAD, [0x10CED]);
   (0x10CAE, [0x10CEE]); (0x10CAF, [0x10CEF]); (0x10CB0, [0x10CF0]); (0x10CB1, [0x10CF1]);
   (0x10CB2, [0x10CF2]); (0x118A0, [0x118C0]); (0x118A1, [0x118C1]); (0x118A2, [0x118C2]);
   (0x118A3, [0x118C3]); (0x118A4, [0x118C4]); (0x118A5, [0x118C5]); (0x118A6, [0x118C6]);
   (0x118A7, [0x118C7]); (0x118A8, [0x118C8]); (0x118A9, [0x118C9]); (0x118AA, [0x118CA]);
   (0x118AB, [0x118CB]); (0x118AC, [0x118CC]); (0x118AD, [0x118CD]); (0x118AE, [0x118CE]);
   (0x118AF, [0x118CF]); (0x118B0, [0x118D0]); (0x118B1, [0x118D1]); (0x118B2, [0x118D2]);
   (0x118B3, [0x118D3]); (0x118B4, [0x118D4]); (0x118B5, [0x118D5]); (0x118B6, [0x118D6]);
   (0x118B7, [0x118D7]); (0x118B8, [0x118D8]); (0x118B9, [0x118D9]); (0x118BA, [0x118DA]);
   (0x118BB, [0x118DB]); (0x118BC, [0x118DC]); (0x118BD, [0x118DD]); (0x118BE, [0x118DE]);
   (0x118BF, [0x118DF]); (0x16E40, [0x16E60]); (0x16E41, [0x16E61]); (0x16E42, [0x16E62]);
   (0x16E43, [0x16E63]); (0x16E44, [0x16E64]); (0x16E45, [0x16E65]); (0x16E46, [0x16E66]);
   (0x16E47, [0x16E67]); (0x16E48, [0x16E68]); (0x16E49, [0x16E69]); (0x16E4A, [0x16E6A]);
   (0x16E4B, [0x16E6B]); (0x16E4C, [0x16E6C]); (0x16E4D, [0x16E6D]); (0x16E4E, [0x16E6E]);
   (0x16E4F, [0x16E6F]); (0x16E50, [0x16E70]); (0x16E51, [0x16E71]); (0x16E52, [0x16E72]);
   (0x16E53, [0x16E73]); (0x16E54, [0x16E74]); (0x16E55, [0x16E75]); (0x16E56, [0x16E76]);
   (0x16E57, [0x16E77]); (0x16E58, [0x16E78]); (0x16E59, [0x16E79]); (0x16E5A, [0x16E7A]);
   (0x16E5B, [0x16E7B]); (0x16E5C, [0x16E7C]); (0x16E5D, [0x16E7D]); (0x16E5E, [0x16E7E]);
   (0x16E5F, [0x16E7F]); (0x1E900, [0x1E922]); (0x1E901, [0x1E923]); (0x1E902, [0x1E924]);
   (0x1E903, [0x1E925]); (0x1E904, [0x1E926]); (0x1E905, [0x1E927]); (0x1E906, [0x1E928]);
   (0x1E907, [0x1E929]); (0x1E908, [0x1E92A]); (0x1E909, [0x1E92B]); (0x1E90A, [0x1E92C]);
   (0x1E90B, [0x1E92D]); (0x1E90C, [0x1E92E]); (0x1E90D, [0x1E92F]); (0x1E90E, [0x1E930]);
   (0x1E90F, [0x1E931]); (0x1E910, [0x1E932]); (0x1E911, [0x1E933]); (0x1E912, [0x1E934]);
   (0x1E913, [0x1E935]); (0x1E914, [0x1E936]); (0x1E915, [0x1E937]); (0x1E916, [0x1E938]);
   (0x1E917, [0x1E939]); (0x1E918, [0x1E93A]); (0x1E919, [0x1E93B]); (0x1E91A, [0x1E93C]);
   (0x1E91B, [0x1E93D]); (0x1E91C, [0x1E93E]); (0x1E91D, [0x1E93F]); (0x1E91E, [0x1E940]);
   (0x1E91F, [0x1E941]); (0x1E920, [0x1E942]); (0x1E921, [0x1E943])
  ].

(** The code points with the property [Cased] that are not
    [Case_Ignorable], as ranges. *)
Definition casedRanges : list (Z * Z) :=
  [
   (0x41, 0x5A); (0x61, 0x7A); (0xAA, 0xAA); (0xB5, 0xB5); (0xBA, 0xBA);
   (0xC0, 0xD6); (0xD8, 0xF6); (0xF8, 0x1BA); (0x1BC, 0x1BF); (0x1C4, 0x293);
   (0x295, 0x2AF); (0x370, 0x373); (0x376, 0x377); (0x37B, 0x37D); (0x37F, 0x37F);
   (0x386, 0x386); (0x388, 0x38A); (0x38C, 0x38C); (0x38E, 0x3A1); (0x3A3, 0x3F5);
   (0x3F7, 0x481); (0x48A, 0x52F); (0x531, 0x556); (0x560, 0x588); (0x10A0, 0x10C5);
   (0x10C7, 0x10C7); (0x10CD, 0x10CD); (0x10D0, 0x10FA); (0x10FD, 0x10FF); (0x13A0, 0x13F5);
   (0x13F8, 0x13FD); (0x1C80, 0x1C88); (0x1C90, 0x1CBA); (0x1CBD, 0x1CBF); (0x1D00, 0x1D2B);
   (0x1D6B, 0x1D77); (0x1D79, 0x1D9A); (0x1E00, 0x1F15); (0x1F18, 0x1F1D); (0x1F20, 0x1F45);
   (0x1F48, 0x1F4D); (0x1F50, 0x1F57); (0x1F59, 0x1F59); (0x1F5B, 0x1F5B); (0x1F5D, 0x1F5D);
   (0x1F5F, 0x1F7D); (0x1F80, 0x1FB4); (0x1FB6, 0x1FBC); (0x1FBE, 0x1FBE); (0x1FC2, 0x1FC4);
   (0x1FC6, 0x1FCC); (0x1FD0, 0x1FD3); (0x1FD6, 0x1FDB); (0x1FE0, 0x1FEC); (0x1FF2, 0x1FF4);
   (0x1FF6, 0x1FFC); (0x2102, 0x2102); (0x2107, 0x2107); (0x210A, 0x2113); (0x2115, 0x2115);
   (0x2119, 0x211D); (0x2124, 0x2124); (0x2126, 0x2126); (0x2128, 0x2128); (0x212A, 0x212D);
   (0x212F, 0x2134); (0x2139, 0x2139); (0x213C, 0x213F); (0x2145, 0x2149); (0x214E, 0x214E);
   (0x2160, 0x217F); (0x2183, 0x2184); (0x24B6, 0x24E9); (0x2C00, 0x2C7B); (0x2C7E, 0x2CE4);
   (0x2CEB, 0x2CEE); (0x2CF2, 0x2CF3); (0x2D00, 0x2D25); (0x2D27, 0x2D27); (0x2D2D, 0x2D2D);
   (0xA640, 0xA66D); (0xA680, 0xA69B); (0xA722, 0xA76F); (0xA771, 0xA787); (0xA78B, 0xA78E);
   (0xA790, 0xA7CA); (0xA7D0, 0xA7D1); (0xA7D3, 0xA7D3); (0xA7D5, 0xA7D9); (0xA7F5, 0xA7F6);
   (0xA7FA, 0xA7FA); (0xAB30, 0xAB5A); (0xAB60, 0xAB68); (0xAB70, 0xABBF); (0xFB00, 0xFB06);
   (0xFB13, 0xFB17); (0xFF21, 0xFF3A); (0xFF41, 0xFF5A); (0x10400, 0x1044F); (0x104B0, 0x104D3);
   (0x104D8, 0x104FB); (0x10570, 0x1057A); (0x1057C, 0x1058A); (0x1058C, 0x10592); (0x10594, 0x10595);
   (0x10597, 0x105A1); (0x105A3, 0x105B1); (0x105B3, 0x105B9); (0x105BB, 0x105BC); (0x10C80, 0x10CB2);
   (0x10CC0, 0x10CF2); (0x118A0, 0x118DF); (0x16E40, 0x16E7F); (0x1D400, 0x1D454); (0x1D456, 0x1D49C);
   (0x1D49E, 0x1D49F); (0x1D4A2, 0x1D4A2); (0x1D4A5, 0x1D4A6); (0x1D4A9, 0x1D4AC); (0x1D4AE, 0x1D4B9);
   (0x1D4BB, 0x1D4BB); (0x1D4BD, 0x1D4C3); (0x1D4C5, 0x1D505); (0x1D507, 0x1D50A); (0x1D50D, 0x1D514);
   (0x1D516, 0x1D51C); (0x1D51E, 0x1D539); (0x1D53B, 0x1D53E); (0x1D540, 0x1D544); (0x1D546, 0x1D546);
   (0x1D54A, 0x1D550); (0x1D552, 0x1D6A5); (0x1D6A8, 0x1D6C0); (0x1D6C2, 0x1D6DA); (0x1D6DC, 0x1D6FA);
   (0x1D6FC, 0x1D714); (0x1D716, 0x1D734); (0x1D736, 0x1D74E); (0x1D750, 0x1D76E); (0x1D770, 0x1D788);
   (0x1D78A, 0x1D7A8); (0x1D7AA, 0x1D7C2); (0x1D7C4, 0x1D7CB); (0x1DF00, 0x1DF09); (0x1DF0B, 0x1DF1E);
   (0x1E900, 0x1E943); (0x1F130, 0x1F149); (0x1F150, 0x1F169); (0x1F170, 0x1F189)
  ].

(** The code points with the property [Case_Ignorable], as ranges. *)
Definition caseIgnorableRanges : list (Z * Z) :=
  [
   (0x27, 0x27); (0x2E, 0x2E); (0x3A, 0x3A); (0x5E, 0x5E); (0x60, 0x60);
   (0xA8, 0xA8); (0xAD, 0xAD); (0xAF, 0xAF); (0xB4, 0xB4); (0xB7, 0xB8);
   (0x2B0, 0x36F); (0x374, 0x375); (0x37A, 0x37A); (0x384, 0x385); (0x387, 0x387);
   (0x483, 0x489); (0x559, 0x559); (0x55F, 0x55F); (0x591, 0x5BD); (0x5BF, 0x5BF);
   (0x5C1, 0x5C2); (0x5C4, 0x5C5); (0x5C7, 0x5C7); (0x5F4, 0x5F4); (0x600, 0x605);
   (0x610, 0x61A); (0x61C, 0x61C); (0x640, 0x640); (0x64B, 0x65F); (0x670, 0x670);
   (0x6D6, 0x6DD); (0x6DF, 0x6E8); (0x6EA, 0x6ED); (0x70F, 0x70F); (0x711, 0x711);
   (0x730, 0x74A); (0x7A6, 0x7B0); (0x7EB, 0x7F5); (0x7FA, 0x7FA); (0x7FD, 0x7FD);
   (0x816, 0x82D); (0x859, 0x85B); (0x888, 0x888); (0x890, 0x891); (0x898, 0x89F);
   (0x8C9, 0x902); (0x93A, 0x93A); (0x93C, 0x93C); (0x941, 0x948); (0x94D, 0x94D);
   (0x951, 0x957); (0x962, 0x963); (0x971, 0x971); (0x981, 0x981); (0x9BC, 0x9BC);
   (0x9C1, 0x9C4); (0x9CD, 0x9CD); (0x9E2, 0x9E3); (0x9FE, 0x9FE); (0xA01, 0xA02);
   (0xA3C, 0xA3C); (0xA41, 0xA42); (0xA47, 0xA48); (0xA4B, 0xA4D); (0xA51, 0xA51);
   (0xA70, 0xA71); (0xA75, 0xA75); (0xA81, 0xA82); (0xABC, 0xABC); (0xAC1, 0xAC5);
   (0xAC7, 0xAC8); (0xACD, 0xACD); (0xAE2, 0xAE3); (0xAFA, 0xAFF); (0xB01, 0xB01);
   (0xB3C, 0xB3C); (0xB3F, 0xB3F); (0xB41, 0xB44); (0xB4D, 0xB4D); (0xB55, 0xB56);
   (0xB62, 0xB63); (0xB82, 0xB82); (0xBC0, 0xBC0); (0xBCD, 0xBCD); (0xC00, 0xC00);
   (0xC04, 0xC04); (0xC3C, 0xC3C); (0xC3E, 0xC40); (0xC46, 0xC48); (0xC4A, 0xC4D);
   (0xC55, 0xC56); (0xC62, 0xC63); (0xC81, 0xC81); (0xCBC, 0xCBC); (0xCBF, 0xCBF);
   (0xCC6, 0xCC6); (0xCCC, 0xCCD); (0xCE2, 0xCE3); (0xD00, 0xD01); (0xD3B, 0xD3C);
   (0xD41, 0xD44); (0xD4D, 0xD4D); (0xD62, 0xD63); (0xD81, 0xD81); (0xDCA, 0xDCA);
   (0xDD2, 0xDD4); (0xDD6, 0xDD6); (0xE31, 0xE31); (0xE34, 0xE3A); (0xE46, 0xE4E);
   (0xEB1, 0xEB1); (0xEB4, 0xEBC); (0xEC6, 0xEC6); (0xEC8, 0xECD); (0xF18, 0xF19);
   (0xF35, 0xF35); (0xF37, 0xF37); (0xF39, 0xF39); (0xF71, 0xF7E); (0xF80, 0xF84);
   (0xF86, 0xF87); (0xF8D, 0xF97); (0xF99, 0xFBC); (0xFC6, 0xFC6); (0x102D, 0x1030);
   (0x1032, 0x1037); (0x1039, 0x103A); (0x103D, 0x103E); (0x1058, 0x1059); (0x105E, 0x1060);
   (0x1071, 0x1074); (0x1082, 0x1082); (0x1085, 0x1086); (0x108D, 0x108D); (0x109D, 0x109D);
   (0x10FC, 0x10FC); (0x135D, 0x135F); (0x1712, 0x1714); (0x1732, 0x1733); (0x1752, 0x1753);
   (0x1772, 0x1773); (0x17B4, 0x17B5); (0x17B7, 0x17BD); (0x17C6, 0x17C6); (0x17C9, 0x17D3);
   (0x17D7, 0x17D7); (0x17DD, 0x17DD); (0x180B, 0x180F); (0x1843, 0x1843); (0x1885, 0x1886);
   (0x18A9, 0x18A9); (0x1920, 0x1922); (0x1927, 0x1928); (0x1932, 0x1932); (0x1939, 0x193B);
   (0x1A17, 0x1A18); (0x1A1B, 0x1A1B); (0x1A56, 0x1A56); (0x1A58, 0x1A5E); (0x1A60, 0x1A60);
   (0x1A62, 0x1A62); (0x1A65, 0x1A6C); (0x1A73, 0x1A7C); (0x1A7F, 0x1A7F); (0x1AA7, 0x1AA7);
   (0x1AB0, 0x1ACE); (0x1B00, 0x1B03); (0x1B34, 0x1B34); (0x1B36, 0x1B3A); (0x1B3C, 0x1B3C);
   (0x1B42, 0x1B42); (0x1B6B, 0x1B73); (0x1B80, 0x1B81); (0x1BA2, 0x1BA5); (0x1BA8, 0x1BA9);
   (0x1BAB, 0x1BAD); (0x1BE6, 0x1BE6); (0x1BE8, 0x1BE9); (0x1BED, 0x1BED); (0x1BEF, 0x1BF1);
   (0x1C2C, 0x1C33); (0x1C36, 0x1C37); (0x1C78, 0x1C7D); (0x1CD0, 0x1CD2); (0x1CD4, 0x1CE0);
   (0x1CE2, 0x1CE8); (0x1CED, 0x1CED); (0x1CF4, 0x1CF4); (0x1CF8, 0x1CF9); (0x1D2C, 0x1D6A);
   (0x1D78, 0x1D78); (0x1D9B, 0x1DFF); (0x1FBD, 0x1FBD); (0x1FBF, 0x1FC1); (0x1FCD, 0x1FCF);
   (0x1FDD, 0x1FDF); (0x1FED, 0x1FEF); (0x1FFD, 0x1FFE); (0x200B, 0x200F); (0x2018, 0x2019);
   (0x2024, 0x2024); (0x2027, 0x2027); (0x202A, 0x202E); (0x2060, 0x2064); (0x2066, 0x206F);
   (0x2071, 0x2071); (0x207F, 0x207F); (0x2090, 0x209C); (0x20D0, 0x20F0); (0x2C7C, 0x2C7D);
   (0x2CEF, 0x2CF1); (0x2D6F, 0x2D6F); (0x2D7F, 0x2D7F); (0x2DE0, 0x2DFF); (0x2E2F, 0x2E2F);
   (0x3005, 0x3005); (0x302A, 0x302D); (0x3031, 0x3035); (0x303B, 0x303B); (0x3099, 0x309E);
   (0x30FC, 0x30FE); (0xA015, 0xA015); (0xA4F8, 0xA4FD); (0xA60C, 0xA60C); (0xA66F, 0xA672);
   (0xA674, 0xA67D); (0xA67F, 0xA67F); (0xA69C, 0xA69F); (0xA6F0, 0xA6F1); (0xA700, 0xA721);
   (0xA770, 0xA770); (0xA788, 0xA78A); (0xA7F2, 0xA7F4); (0xA7F8, 0xA7F9); (0xA802, 0xA802);
   (0xA806, 0xA806); (0xA80B, 0xA80B); (0xA825, 0xA826); (0xA82C, 0xA82C); (0xA8C4, 0xA8C5);
   (0xA8E0, 0xA8F1); (0xA8FF, 0xA8FF); (0xA926, 0xA92D); (0xA947, 0xA951); (0xA980, 0xA982);
   (0xA9B3, 0xA9B3); (0xA9B6, 0xA9B9); (0xA9BC, 0xA9BD); (0xA9CF, 0xA9CF); (0xA9E5, 0xA9E6);
   (0xAA29, 0xAA2E); (0xAA31, 0xAA32); (0xAA35, 0xAA36); (0xAA43, 0xAA43); (0xAA4C, 0xAA4C);
   (0xAA70, 0xAA70); (0xAA7C, 0xAA7C); (0xAAB0, 0xAAB0); (0xAAB2, 0xAAB4); (0xAAB7, 0xAAB8);
   (0xAABE, 0xAABF); (0xAAC1, 0xAAC1); (0xAADD, 0xAADD); (0xAAEC, 0xAAED); (0xAAF3, 0xAAF4);
   (0xAAF6, 0xAAF6); (0xAB5B, 0xAB5F); (0xAB69, 0xAB6B); (0xABE5, 0xABE5); (0xABE8, 0xABE8);
   (0xABED, 0xABED); (0xFB1E, 0xFB1E); (0xFBB2, 0xFBC2); (0xFE00, 0xFE0F); (0xFE13, 0xFE13);
   (0xFE20, 0xFE2F); (0xFE52, 0xFE52); (0xFE55, 0xFE55); (0xFEFF, 0xFEFF); (0xFF07, 0xFF07);
   (0xFF0E, 0xFF0E); (0xFF1A, 0xFF1A); (0xFF3E, 0xFF3E); (0xFF40, 0xFF40); (0xFF70, 0xFF70);
   (0xFF9E, 0xFF9F); (0xFFE3, 0xFFE3); (0xFFF9, 0xFFFB); (0x101FD, 0x101FD); (0x102E0, 0x102E0);
   (0x10376, 0x1037A); (0x10780, 0x10785); (0x10787, 0x107B0); (0x107B2, 0x107BA); (0x10A01, 0x10A03);
   (0x10A05, 0x10A06); (0x10A0C, 0x10A0F); (0x10A38, 0x10A3A); (0x10A3F, 0x10A3F); (0x10AE5, 0x10AE6);
   (0x10D24, 0x10D27); (0x10EAB, 0x10EAC); (0x10F46, 0x10F50); (0x10F82, 0x10F85); (0x11001, 0x11001);
   (0x11038, 0x11046); (0x11070, 0x11070); (0x11073, 0x11074); (0x1107F, 0x11081); (0x110B3, 0x110B6);
   (0x110B9, 0x110BA); (0x110BD, 0x110BD); (0x110C2, 0x110C2); (0x110CD, 0x110CD); (0x11100, 0x11102);
   (0x11127, 0x1112B); (0x1112D, 0x11134); (0x11173, 0x11173); (0x11180, 0x11181); (0x111B6, 0x111BE);
   (0x111C9, 0x111CC); (0x111CF, 0x111CF); (0x1122F, 0x11231); (0x11234, 0x11234); (0x11236, 0x11237);
   (0x1123E, 0x1123E); (0x112DF, 0x112DF); (0x112E3, 0x112EA); (0x11300, 0x11301); (0x1133B, 0x1133C);
   (0x11340, 0x11340); (0x11366, 0x1136C); (0x11370, 0x11374); (0x11438, 0x1143F); (0x11442, 0x11444);
   (0x11446, 0x11446); (0x1145E, 0x1145E); (0x114B3, 0x114B8); (0x114BA, 0x114BA); (0x114BF, 0x114C0);
   (0x114C2, 0x114C3); (0x115B2, 0x115B5); (0x115BC, 0x115BD); (0x115BF, 0x115C0); (0x115DC, 0x115DD);
   (0x11633, 0x1163A); (0x1163D, 0x1163D); (0x1163F, 0x11640); (0x116AB, 0x116AB); (0x116AD, 0x116AD);
   (0x116B0, 0x116B5); (0x116B7, 0x116B7); (0x1171D, 0x1171F); (0x11722, 0x11725); (0x11727, 0x1172B);
   (0x1182F, 0x11837); (0x11839, 0x1183A); (0x1193B, 0x1193C); (0x1193E, 0x1193E); (0x11943, 0x11943);
   (0x119D4, 0x119D7); (0x119DA, 0x119DB); (0x119E0, 0x119E0); (0x11A01, 0x11A0A); (0x11A33, 0x11A38);
   (0x11A3B, 0x11A3E); (0x11A47, 0x11A47); (0x11A51, 0x11A56); (0x11A59, 0x11A5B); (0x11A8A, 0x11A96);
   (0x11A98, 0x11A99); (0x11C30, 0x11C36); (0x11C38, 0x11C3D); (0x11C3F, 0x11C3F); (0x11C92, 0x11CA7);
   (0x11CAA, 0x11CB0); (0x11CB2, 0x11CB3); (0x11CB5, 0x11CB6); (0x11D31, 0x11D36); (0x11D3A, 0x11D3A);
   (0x11D3C, 0x11D3D); (0x11D3F, 0x11D45); (0x11D47, 0x11D47); (0x11D90, 0x11D91); (0x11D95, 0x11D95);
   (0x11D97, 0x11D97); (0x11EF3, 0x11EF4); (0x13430, 0x13438); (0x16AF0, 0x16AF4); (0x16B30, 0x16B36);
   (0x16B40, 0x16B43); (0x16F4F, 0x16F4F); (0x16F8F, 0x16F9F); (0x16FE0, 0x16FE1); (0x16FE3, 0x16FE4);
   (0x1AFF0, 0x1AFF3); (0x1AFF5, 0x1AFFB); (0x1AFFD, 0x1AFFE); (0x1BC9D, 0x1BC9E); (0x1BCA0, 0x1BCA3);
   (0x1CF00, 0x1CF2D); (0x1CF30, 0x1CF46); (0x1D167, 0x1D169); (0x1D173, 0x1D182); (0x1D185, 0x1D18B);
   (0x1D1AA, 0x1D1AD); (0x1D242, 0x1D244); (0x1DA00, 0x1DA36); (0x1DA3B, 0x1DA6C); (0x1DA75, 0x1DA75);
   (0x1DA84, 0x1DA84); (0x1DA9B, 0x1DA9F); (0x1DAA1, 0x1DAAF); (0x1E000, 0x1E006); (0x1E008, 0x1E018);
   (0x1E01B, 0x1E021); (0x1E023, 0x1E024); (0x1E026, 0x1E02A); (0x1E130, 0x1E13D); (0x1E2AE, 0x1E2AE);
   (0x1E2EC, 0x1E2EF); (0x1E8D0, 0x1E8D6); (0x1E944, 0x1E94B); (0x1F3FB, 0x1F3FF); (0xE0001, 0xE0001);
   (0xE0020, 0xE007F); (0xE0100, 0xE01EF)
  ].

Definition inRanges (c : Z) (ranges : list (Z * Z)) : bool :=
  existsb (fun r => (fst r <=? c) && (c <=? snd r)) ranges.

Definition cased (ch : string) : bool :=
  match codePoint ch with Some c => inRanges c casedRanges | None => false end.

Definition caseIgnorable (ch : string) : bool :=
  match codePoint ch with Some c => inRanges c caseIgnorableRanges | None => false end.

Definition lowerCodePoint (c : Z) : option (list Z) :=
  match List.find (fun e => fst e =? c) lowerTable with
  | Some e => Some (snd e)
  | None => None
  end.

(** The lower-case form of one character, out of context. *)
Definition lowerChar (ch : string) : string :=
  match ch with
  | String a EmptyString => String (lower_ascii a) EmptyString
  | _ =>
      match codePoint ch with
      | Some c =>
          match lowerCodePoint c with
          | Some l => join (List.map utf8 l)
          | None => ch
          end
      | None => ch
      end
  end.

Definition capitalSigma : string := utf8 0x3A3.
Definition smallSigma : string := utf8 0x3C3.
Definition finalSigma : string := utf8 0x3C2.

Definition isSigma (ch : string) : bool := String.eqb ch capitalSigma.

(** A cased letter follows, case-ignorable characters apart. *)
Fixpoint casedAhead (rest : list string) : bool :=
  match rest with
  | [] => false
  | ch :: rest' => if caseIgnorable ch then casedAhead rest' else cased ch
  end.

(** The characters in lower case; [casedBefore] says whether a cased
    letter precedes, case-ignorable characters apart. A capital sigma
    that ends a word becomes the final sigma (the condition
    [Final_Sigma] of [SpecialCasing.txt], the one mapping of the
    locale-insensitive conversion that depends on the context). *)
Fixpoint lowerAll (casedBefore : bool) (l : list string) : list string :=
  match l with
  | [] => []
  | ch :: rest =>
      (if isSigma ch
       then if casedBefore && negb (casedAhead rest) then finalSigma else smallSigma
       else lowerChar ch)
      :: lowerAll (if caseIgnorable ch then casedBefore else cased ch) rest
  end.

(** [String.prototype.toLowerCase]: the default case conversion of
    Unicode. *)
Definition toLowerCase (s : string) : string := join (lowerAll false (chunks s)).

(** [s.startsWith(k)]. *)
Fixpoint startsWith (s k : string) {struct k} : bool :=
  match k, s with
  | EmptyString, _ => true
  | String _ _, EmptyString => false
  | String a k', String b s' => if Ascii.eqb a b then startsWith s' k' else false
  end.

(** [s.includes(k)]: [k] occurs in [s] as a contiguous substring. *)
Fixpoint includes (s k : string) : bool :=
  startsWith s k ||
  match s with
  | EmptyString => false
  | String _ s' => includes s' k
  end.

(** WhiteSpace and LineTerminator of ECMAScript. *)
Definition whiteSpace : list Z :=
  [0x9; 0xA; 0xB; 0xC; 0xD; 0x20; 0xA0; 0x1680; 0x2000; 0x2001; 0x2002; 0x2003; 0x2004;
   0x2005; 0x2006; 0x2007; 0x2008; 0x2009; 0x200A; 0x2028; 0x2029; 0x202F; 0x205F;
   0x3000; 0xFEFF].

Definition is_space (ch : string) : bool :=
  match codePoint ch with
  | Some c => existsb (Z.eqb c) whiteSpace
  | None => false
  end.

Fixpoint dropWhile {A : Type} (f : A -> bool) (l : list A) : list A :=
  match l with
  | [] => []
  | x :: l' => if f x then dropWhile f l' else l
  end.

(** The leading white-space characters are dropped. *)
Definition trimStart (s : string) : string := join (dropWhile is_space (chunks s)).

(** The trailing white-space characters are dropped. *)
Definition trimEnd (s : string) : string :=
  join (rev (dropWhile is_space (rev (chunks s)))).

(** [s.trim()] *)
Definition trim (s : string) : string := trimEnd (trimStart s).

(** [s.split(',')]: the pieces between the separators, empty ones kept;
    the result is never the empty array. *)
Fixpoint split (sep : ascii) (s : string) : list string :=
  match s with
  | EmptyString => [EmptyString]
  | String c s' =>
      if Ascii.eqb c sep then EmptyString :: split sep s'
      else match split sep s' with
           | [] => [String c EmptyString]
           | p :: ps => String c p :: ps
           end
  end.

(** JavaScript truthiness of a string: the empty string is falsy. *)
Definition truthy (s : string) : bool :=
  match s with EmptyString => false | _ => true end.

(** [s.length]: the number of UTF-16 code units, one for a character of
    the basic plane and two for one beyond it (a sequence of four
    bytes); a byte that continues a character adds nothing. *)
Fixpoint codeUnits (s : string) : nat :=
  match s with
  | EmptyString => 0
  | String c s' =>
      ((if isContinuation c then 0 else if (240 <=? byte c)%Z then 2 else 1)
       + codeUnits s')%nat
  end.

Example codeUnits_counts :
  codeUnits "0x4c0883a69102937d6231471b5dbb6204fe5129617082792ae468d01a3f362318" = 66%nat /\
  codeUnits "élan" = 4%nat /\ String.length "élan" = 5%nat /\
  codeUnits "𝒳" = 2%nat /\ String.length "𝒳" = 4%nat.
Proof. repeat split; vm_compute; reflexivity. Qed.

(** *** Splitting into characters and joining again *)

Lemma append_empty_r (s : string) : s ++ "" = s.
Proof.
  induction s as [|c s IH]; [reflexivity|].
  change (String c s ++ "") with (String c (s ++ "")). now rewrite IH.
Qed.

Lemma append_assoc (a b c : string) : (a ++ b) ++ c = a ++ (b ++ c).
Proof.
  induction a as [|x a IH]; [reflexivity|].
  change (String x (a ++ b) ++ c = String x (a ++ (b ++ c))).
  change (String x ((a ++ b) ++ c) = String x (a ++ (b ++ c))). now rewrite IH.
Qed.

Lemma join_app l1 l2 : join (l1 ++ l2)%list = join l1 ++ join l2.
Proof.
  induction l1 as [|x l1 IH]; [reflexivity|].
  change (join ((x :: l1) ++ l2)%list) with (x ++ join (l1 ++ l2)%list).
  change (join (x :: l1)) with (x ++ join l1).
  now rewrite IH, append_assoc.
Qed.

Lemma join_chunks s : join (chunks s) = s.
Proof.
  induction s as [|c s IH]; simpl; [reflexivity|].
  destruct (chunks s) as [|[|c' r] chs]; simpl in *; try (now rewrite <- IH).
  destruct (isContinuation c'); simpl; now rewrite <- IH.
Qed.

(** A string that starts a new character. *)
Definition headed (s : string) : bool :=
  match s with
  | EmptyString => false
  | String c _ => negb (isContinuation c)
  end.

(** A character: one byte and the continuation bytes after it. *)
Fixpoint continuations (s : string) : bool :=
  match s with
  | EmptyString => true
  | String c s' => isContinuation c && continuations s'
  end.

Definition shaped (s : string) : bool :=
  match s with
  | EmptyString => false
  | String _ s' => continuations s'
  end.

Lemma chunks_head c s :
  exists r chs, chunks (String c s) = String c r :: chs.
Proof.
  simpl. destruct (chunks s) as [|[|c' r] chs]; eauto.
  destruct (isContinuation c'); eauto.
Qed.

Lemma chunks_app a b :
  headed b = true -> chunks (a ++ b) = (chunks a ++ chunks b)%list.
Proof.
  intros Hb. induction a as [|c a IH]; [reflexivity|].
  simpl. rewrite IH.
  destruct (chunks a) as [|ch chs] eqn:Ha.
  2:{ destruct ch as [|c' r]; [reflexivity|]. simpl.
      destruct (isContinuation c'); reflexivity. }
  simpl. destruct b as [|c' b]; [discriminate|].
  destruct (chunks_head c' b) as (r & chs' & ->).
  simpl in Hb. now destruct (isContinuation c').
Qed.

Lemma chunks_character s : forall c,
  continuations s = true -> chunks (String c s) = [String c s].
Proof.
  induction s as [|c' s IH]; intros c Hs; [reflexivity|].
  simpl in Hs. apply andb_true_iff in Hs as [Hc Hs].
  specialize (IH c' Hs).
  change (chunks (String c (String c' s)))
    with (match chunks (String c' s) with
          | String c'' r :: chs =>
              if isContinuation c'' then String c (String c'' r) :: chs
              else String c EmptyString :: String c'' r :: chs
          | chs => String c EmptyString :: chs
          end).
  rewrite IH. now rewrite Hc.
Qed.

Lemma chunks_shaped ch : shaped ch = true -> chunks ch = [ch].
Proof. destruct ch as [|c s]; [discriminate | apply chunks_character]. Qed.

(** What [chunks] gives: characters, all but the first of which start
    with a byte that is no continuation byte. *)
Definition wellChunked (l : list string) : Prop :=
  Forall (fun ch => shaped ch = true) l /\
  Forall (fun ch => headed ch = true) (tail l).

Lemma wellChunked_chunks s : wellChunked (chunks s).
Proof.
  induction s as [|c s [IH1 IH2]]; [split; constructor|].
  simpl. destruct (chunks s) as [|[|c' r] chs] eqn:Hs.
  - split; [repeat constructor | constructor].
  - inversion IH1; discriminate.
  - destruct (isContinuation c') eqn:Hc.
    + split; [|exact IH2]. inversion IH1; subst. constructor; [|assumption].
      simpl in *. now rewrite Hc.
    + split; [constructor; [reflexivity | exact IH1]|].
      simpl. constructor; [simpl; now rewrite Hc | exact IH2].
Qed.

Lemma wellChunked_tail x l : wellChunked (x :: l) -> wellChunked l.
Proof.
  intros [H1 H2]. inversion H1; subst. split; [assumption|].
  simpl in H2. destruct l; [constructor|]. inversion H2; subst. simpl. assumption.
Qed.

Lemma headed_join x l : headed x = true -> headed (join (x :: l)) = true.
Proof. destruct x; [discriminate|]. simpl. auto. Qed.


Lemma chunks_join l : wellChunked l -> chunks (join l) = l.
Proof.
  induction l as [|x l IH]; intros Hw; [reflexivity|].
  pose proof (wellChunked_tail _ _ Hw) as Hl. destruct Hw as [H1 H2].
  inversion H1; subst.
  destruct l as [|y l].
  - simpl. rewrite append_empty_r. now apply chunks_shaped.
  - change (join (x :: y :: l)) with (x ++ join (y :: l)).
    simpl in H2. inversion H2; subst.
    rewrite chunks_app by (now apply headed_join).
    rewrite IH by assumption. now rewrite chunks_shaped.
Qed.

(** *** Lower case, twice *)

Lemma lower_ascii_idempotent c : lower_ascii (lower_ascii c) = lower_ascii c.
Proof.
  destruct c as [[] [] [] [] [] [] [] []]; vm_compute; reflexivity.
Qed.

Lemma lower_ascii_continuation c : isContinuation (lower_ascii c) = isContinuation c.
Proof.
  destruct c as [[] [] [] [] [] [] [] []]; vm_compute; reflexivity.
Qed.

(** A text that lower-casing leaves as it is, whatever surrounds it:
    its characters are their own lower-case form, and none of them is the
    capital sigma. *)
Definition settled (s : string) : bool :=
  forallb (fun ch => negb (isSigma ch) && String.eqb (lowerChar ch) ch) (chunks s).

Lemma lowerAll_settled b l :
  forallb (fun ch => negb (isSigma ch) && String.eqb (lowerChar ch) ch) l = true ->
  lowerAll b l = l.
Proof.
  revert b; induction l as [|ch l IH]; intros b H; [reflexivity|].
  simpl in H. apply andb_true_iff in H as [H Hl].
  apply andb_true_iff in H as [Hs He].
  apply negb_true_iff in Hs. apply String.eqb_eq in He.
  simpl. now rewrite Hs, He, IH.
Qed.

(** Every image of the table is settled and starts a character. *)
Lemma lowerTable_settled :
  forallb (fun e => let s := join (List.map utf8 (snd e)) in settled s && headed s)
          lowerTable = true.
Proof. vm_compute. reflexivity. Qed.

Lemma lowerCodePoint_settled c l :
  lowerCodePoint c = Some l ->
  settled (join (List.map utf8 l)) = true /\ headed (join (List.map utf8 l)) = true.
Proof.
  unfold lowerCodePoint.
  destruct (List.find _ lowerTable) as [e|] eqn:Hf; [|discriminate].
  intros [= <-]. apply find_some in Hf as [Hin _].
  pose proof lowerTable_settled as H. rewrite forallb_forall in H.
  specialize (H e Hin). cbv zeta in H. now apply andb_true_iff in H.
Qed.


Lemma sigmas_settled :
  settled smallSigma = true /\ headed smallSigma = true /\
  settled finalSigma = true /\ headed finalSigma = true.
Proof. vm_compute. tauto. Qed.

Lemma isSigma_single a : isSigma (String a EmptyString) = false.
Proof.
  apply String.eqb_neq. intros H. apply (f_equal String.length) in H.
  vm_compute in H. discriminate.
Qed.

Lemma codePoint_headed ch c : codePoint ch = Some c -> headed ch = true.
Proof.
  unfold codePoint, headed, isContinuation.
  destruct ch as [|a [|b [|d [|e [|f r]]]]]; try discriminate; intros H;
    repeat match type of H with
           | (if ?x then _ else _) = _ => destruct x eqn:?; [|discriminate]
           end;
    repeat match goal with
           | H : _ && _ = true |- _ => apply andb_true_iff in H as [? ?]
           end;
    apply negb_true_iff, andb_false_iff;
    repeat match goal with
           | H : (_ <=? _) = true |- _ => apply Z.leb_le in H
           | H : (_ <? _) = true |- _ => apply Z.ltb_lt in H
           end;
    first [ left; apply Z.leb_gt; lia | right; apply Z.ltb_ge; lia ].
Qed.

Lemma settled_shaped ch :
  shaped ch = true -> isSigma ch = false -> lowerChar ch = ch -> settled ch = true.
Proof.
  intros Hsh Hs He. unfold settled. rewrite (chunks_shaped ch Hsh). simpl.
  rewrite Hs, He, String.eqb_refl. reflexivity.
Qed.

(** The lower-case form of a character that is not the capital sigma is
    settled, and starts a character when the character does. *)
Lemma lowerChar_settled ch :
  shaped ch = true -> isSigma ch = false ->
  settled (lowerChar ch) = true /\ (headed ch = true -> headed (lowerChar ch) = true).
Proof.
  intros Hsh Hs.
  destruct ch as [|a [|b r]]; [discriminate| |].
  - simpl lowerChar. split.
    + apply settled_shaped; [reflexivity | apply isSigma_single |].
      simpl. now rewrite lower_ascii_idempotent.
    + simpl. now rewrite lower_ascii_continuation.
  - remember (String a (String b r)) as ch eqn:Hch.
    assert (Hl : lowerChar ch =
                 match codePoint ch with
                 | Some c =>
                     match lowerCodePoint c with
                     | Some l => join (List.map utf8 l)
                     | None => ch
                     end
                 | None => ch
                 end) by (subst ch; reflexivity).
    destruct (codePoint ch) as [c|] eqn:Hc.
    + destruct (lowerCodePoint c) as [l|] eqn:Hlow.
      * rewrite Hl. destruct (lowerCodePoint_settled c l Hlow). split; auto.
      * rewrite Hl. split; [|auto]. apply settled_shaped; auto.
    + rewrite Hl. split; [|auto]. apply settled_shaped; auto.
Qed.

Lemma settled_app a b :
  settled a = true -> settled b = true -> headed b = true -> settled (a ++ b) = true.
Proof.
  intros Ha Hb Hh. unfold settled in *. rewrite chunks_app by assumption.
  rewrite forallb_app. now rewrite Ha, Hb.
Qed.

Lemma lowerAll_join_settled l : forall b,
  wellChunked l ->
  settled (join (lowerAll b l)) = true /\
  (forall ch rest, l = ch :: rest -> headed ch = true -> headed (join (lowerAll b l)) = true).
Proof.
  induction l as [|ch l IH]; intros b Hw.
  - split; [reflexivity | discriminate].
  - pose proof (wellChunked_tail _ _ Hw) as Hl. destruct Hw as [H1 H2].
    inversion H1 as [|? ? Hsh _]; subst.
    set (o := if isSigma ch
              then if b && negb (casedAhead l) then finalSigma else smallSigma
              else lowerChar ch).
    assert (Ho : settled o = true /\ (headed ch = true -> headed o = true)).
    { unfold o. destruct sigmas_settled as (S1 & S2 & S3 & S4).
      destruct (isSigma ch) eqn:Hs.
      - destruct (b && negb (casedAhead l)); split; auto.
      - now apply lowerChar_settled. }
    destruct Ho as [Ho1 Ho2].
    change (lowerAll b (ch :: l))
      with (o :: lowerAll (if caseIgnorable ch then b else cased ch) l).
    destruct (IH (if caseIgnorable ch then b else cased ch) Hl) as [IH1 IH2].
    split.
    + change (join (o :: ?r)) with (o ++ join r).
      destruct l as [|ch2 l2].
      * simpl. now rewrite append_empty_r.
      * apply settled_app; [assumption | assumption |].
        simpl in H2. inversion H2; subst. eapply IH2; eauto.
    + intros ch' rest [= <- <-] Hh. specialize (Ho2 Hh).
      change (join (o :: ?r)) with (o ++ join r).
      destruct o; [discriminate | exact Ho2].
Qed.

Lemma toLowerCase_settled s : settled (toLowerCase s) = true.
Proof. apply lowerAll_join_settled, wellChunked_chunks. Qed.

Lemma toLowerCase_of_settled s : settled s = true -> toLowerCase s = s.
Proof.
  intros H. unfold toLowerCase. rewrite lowerAll_settled by exact H. apply join_chunks.
Qed.

(** Lower-casing a text that is in lower case changes nothing. *)
Lemma toLowerCase_idempotent s : toLowerCase (toLowerCase s) = toLowerCase s.
Proof. apply toLowerCase_of_settled, toLowerCase_settled. Qed.

(** Lower-casing never empties a text. *)
Lemma lowerChar_nonempty ch : ch <> "" -> lowerChar ch <> "".
Proof.
  intros Hne. destruct ch as [|a [|b r]]; [congruence | discriminate |].
  remember (String a (String b r)) as ch eqn:Hch.
  assert (Hl : lowerChar ch =
               match codePoint ch with
               | Some c =>
                   match lowerCodePoint c with
                   | Some l => join (List.map utf8 l)
                   | None => ch
                   end
               | None => ch
               end) by (subst ch; reflexivity).
  rewrite Hl. destruct (codePoint ch) as [c|]; [|exact Hne].
  destruct (lowerCodePoint c) as [l|] eqn:Hlow; [|exact Hne].
  destruct (lowerCodePoint_settled c l Hlow) as [_ Hh].
  destruct (join (List.map utf8 l)); [discriminate | discriminate].
Qed.

Lemma toLowerCase_nonempty s : s <> "" -> toLowerCase s <> "".
Proof.
  destruct s as [|c s]; [congruence|]. intros _. unfold toLowerCase.
  destruct (chunks_head c s) as (r & chs & ->).
  change (lowerAll false (String c r :: chs))
    with ((if isSigma (String c r)
           then if false && negb (casedAhead chs) then finalSigma else smallSigma
           else lowerChar (String c r))
          :: lowerAll (if caseIgnorable (String c r) then false else cased (String c r)) chs).
  change (join (?o :: ?l)) with (o ++ join l).
  assert (Ho : (if isSigma (String c r)
                then if false && negb (casedAhead chs) then finalSigma else smallSigma
                else lowerChar (String c r)) <> "").
  { destruct (isSigma (String c r)); [discriminate|].
    apply lowerChar_nonempty. discriminate. }
  destruct (if isSigma (String c r) then _ else _); [congruence | discriminate].
Qed.

(** *** Trimming *)

Definition dropEnd {A : Type} (f : A -> bool) (l : list A) : list A :=
  rev (dropWhile f (rev l)).

Lemma dropWhile_suffix {A} (f : A -> bool) l : exists pre, l = (pre ++ dropWhile f l)%list.
Proof.
  induction l as [|x l [pre IH]]; [now exists []|]. simpl.
  destruct (f x); [|now exists []]. exists (x :: pre). simpl. now rewrite <- IH.
Qed.

Lemma dropEnd_prefix {A} (f : A -> bool) l : exists post, l = (dropEnd f l ++ post)%list.
Proof.
  unfold dropEnd. destruct (dropWhile_suffix f (rev l)) as [pre H].
  exists (rev pre). rewrite <- rev_app_distr, <- H. now rewrite rev_involutive.
Qed.

Lemma dropWhile_idempotent {A} (f : A -> bool) l :
  dropWhile f (dropWhile f l) = dropWhile f l.
Proof.
  induction l as [|x l IH]; [reflexivity|]. simpl.
  destruct (f x) eqn:Hx; [exact IH|]. simpl. now rewrite Hx.
Qed.

Lemma dropEnd_idempotent {A} (f : A -> bool) l : dropEnd f (dropEnd f l) = dropEnd f l.
Proof. unfold dropEnd. now rewrite rev_involutive, dropWhile_idempotent. Qed.

Lemma dropWhile_dropEnd {A} (f : A -> bool) l :
  dropWhile f l = l -> dropWhile f (dropEnd f l) = dropEnd f l.
Proof.
  intros H. destruct (dropEnd_prefix f l) as [post Hp].
  destruct (dropEnd f l) as [|x p]; [reflexivity|].
  rewrite Hp in H. simpl in *. destruct (f x); [|reflexivity].
  exfalso. destruct (dropWhile_suffix f (p ++ post)%list) as [pre Hs].
  rewrite H in Hs. apply (f_equal (@length A)) in Hs.
  rewrite !length_app in Hs. simpl in Hs. rewrite ?length_app in Hs. lia.
Qed.

Lemma wellChunked_suffix pre l : wellChunked (pre ++ l)%list -> wellChunked l.
Proof.
  induction pre as [|x pre IH]; [auto|]. simpl. intros H.
  apply IH. eapply wellChunked_tail; eauto.
Qed.

Lemma wellChunked_prefix l post : wellChunked (l ++ post)%list -> wellChunked l.
Proof.
  intros [H1 H2]. apply Forall_app in H1 as [H1 _]. split; [exact H1|].
  destruct l as [|x l]; [constructor|]. simpl in *.
  now apply Forall_app in H2 as [H2 _].
Qed.

Definition trimList (l : list string) : list string :=
  dropEnd is_space (dropWhile is_space l).

Lemma wellChunked_trimList l : wellChunked l -> wellChunked (trimList l).
Proof.
  intros H. unfold trimList.
  destruct (dropWhile_suffix is_space l) as [pre Hpre].
  destruct (dropEnd_prefix is_space (dropWhile is_space l)) as [post Hpost].
  rewrite Hpre in H. apply wellChunked_suffix in H.
  rewrite Hpost in H. now apply wellChunked_prefix in H.
Qed.

Lemma trim_chunks s : trim s = join (trimList (chunks s)).
Proof.
  unfold trim, trimEnd, trimStart, trimList, dropEnd.
  rewrite chunks_join; [reflexivity|].
  destruct (dropWhile_suffix is_space (chunks s)) as [pre Hpre].
  pose proof (wellChunked_chunks s) as H. rewrite Hpre in H.
  now apply wellChunked_suffix in H.
Qed.

Lemma trimList_idempotent l : trimList (trimList l) = trimList l.
Proof.
  unfold trimList.
  rewrite dropWhile_dropEnd by apply dropWhile_idempotent.
  apply dropEnd_idempotent.
Qed.

Lemma trim_idempotent s : trim (trim s) = trim s.
Proof.
  rewrite (trim_chunks (trim s)), trim_chunks.
  rewrite chunks_join by apply wellChunked_trimList, wellChunked_chunks.
  now rewrite trimList_idempotent.
Qed.

(** What trimming leaves is a part of the text. *)
Lemma trim_part s : exists pre post, s = pre ++ trim s ++ post.
Proof.
  rewrite trim_chunks. unfold trimList.
  destruct (dropWhile_suffix is_space (chunks s)) as [pre Hpre].
  destruct (dropEnd_prefix is_space (dropWhile is_space (chunks s))) as [post Hpost].
  exists (join pre), (join post).
  rewrite <- !join_app, <- Hpost, <- Hpre. symmetry. apply join_chunks.
Qed.

(** *** Prefixes and substrings *)

Lemma startsWith_spec s k :
  startsWith s k = true <-> exists post, s = k ++ post.
Proof.
  revert s; induction k as [|a k IH]; intros s; simpl.
  - split; [intros _; now exists s | reflexivity].
  - destruct s as [|b s]; simpl.
    + split; [discriminate | intros [post H]; discriminate].
    + destruct (Ascii.eqb_spec a b) as [->|Hne].
      * rewrite IH. split; intros [post H]; exists post.
        -- now rewrite H.
        -- now inversion H.
      * split; [discriminate | intros [post H]; inversion H; congruence].
Qed.

Lemma includes_spec s k :
  includes s k = true <-> exists pre post, s = pre ++ k ++ post.
Proof.
  induction s as [|c s IH]; simpl.
  - rewrite orb_false_r, startsWith_spec. split.
    + intros [post H]. now exists EmptyString, post.
    + intros [pre [post H]]. destruct pre; simpl in H; [now exists post | discriminate].
  - rewrite orb_true_iff, startsWith_spec, IH. split.
    + intros [[post H] | [pre [post H]]].
      * now exists EmptyString, post.
      * exists (String c pre), post. simpl. now rewrite H.
    + intros [pre [post H]]. destruct pre as [|d pre]; simpl in H.
      * left. now exists post.
      * right. inversion H. now exists pre, post.
Qed.

End JsString.

(** ** Name filter ([TOKEN_NAME_KEYWORDS], [shouldBuyToken]) *)

Module TokenFilter.
Import JsString.

(** [process.env.TOKEN_NAME_CONTAINS?.trim() || ''] *)
Definition TOKEN_NAME_CONTAINS (env : gmap string string) : string :=
  match env !! "TOKEN_NAME_CONTAINS" with
  | Some v => if truthy (trim v) then trim v else ""
  | None => ""
  end.

(** [TOKEN_NAME_CONTAINS ? split(',').map(trim).filter(k => k.length > 0) : []] *)
Definition TOKEN_NAME_KEYWORDS (env : gmap string string) : list string :=
  let c := TOKEN_NAME_CONTAINS env in
  if truthy c
  then List.filter (fun k => (0 <? String.length k)%nat) (List.map trim (split "," c))
  else [].

(** [TOKEN_NAME_KEYWORDS.some(keyword => nameLower.includes(keyword.toLowerCase()))] *)
Definition containsKeyword (keywords : list string) (nameLower : string) : bool :=
  existsb (fun keyword => includes nameLower (toLowerCase keyword)) keywords.

Definition shouldBuyToken (keywords : list string) (name : string) : bool :=
  match keywords with
  | [] => true
  | _ => negb (containsKeyword keywords (toLowerCase name))
  end.

Lemma containsKeyword_spec keywords nameLower :
  containsKeyword keywords nameLower = true <->
  exists keyword, In keyword keywords /\
    exists pre post, nameLower = pre ++ toLowerCase keyword ++ post.
Proof.
  unfold containsKeyword. rewrite existsb_exists.
  split; intros [k [Hin H]]; exists k; split; auto; now apply includes_spec.
Qed.

(** C10. The filter rejects a name exactly when its lower-cased form
    contains the lower-cased form of one of the configured keywords, so
    the case of neither matters; with TOKEN_NAME_CONTAINS = "Moon,Pepe"
    the keywords are ["Moon"; "Pepe"], "SafeMoon" is rejected and
    "Rocket" accepted; with an empty or absent keyword configuration
    every name is accepted. *)
Theorem shouldBuyToken_deny_list :
  (forall (keywords : list string) (name : string),
      shouldBuyToken keywords name = false <->
      exists keyword, In keyword keywords /\
        exists pre post, toLowerCase name = pre ++ toLowerCase keyword ++ post) /\
  TOKEN_NAME_KEYWORDS {[ "TOKEN_NAME_CONTAINS" := "Moon,Pepe" ]} = ["Moon"; "Pepe"] /\
  shouldBuyToken ["Moon"; "Pepe"] "SafeMoon" = false /\
  shouldBuyToken ["Moon"; "Pepe"] "Rocket" = true /\
  shouldBuyToken ["MOON"; "PEPE"] "safemoon" = false /\
  shouldBuyToken ["moon"; "pepe"] "SAFEMOON" = false /\
  shouldBuyToken ["élan"] "ÉLAN token" = false /\
  shouldBuyToken ["ÉLAN"] "élan vital" = false /\
  shouldBuyToken ["ЛУНА"] "Сейф Луна" = false /\
  toLowerCase "SafeMoon ÉLAN ΟΔΟΣ" = "safemoon élan οδος" /\
  TOKEN_NAME_KEYWORDS ∅ = [] /\
  TOKEN_NAME_KEYWORDS {[ "TOKEN_NAME_CONTAINS" := "" ]} = [] /\
  (forall name, shouldBuyToken [] name = true).
Proof.
  split; [|repeat split; vm_compute; reflexivity].
  intros keywords name. unfold shouldBuyToken.
  destruct keywords as [|k0 ks].
  - split; [discriminate | intros [k [[] _]]].
  - rewrite negb_false_iff. apply containsKeyword_spec.
Qed.

End TokenFilter.

(** ** Reserve oracle ([getCurrentPriceFromReservesSafe], [getCurrentPriceFromReserves]) *)

Module ReserveOracle.

(** What one [pairContract.getReserves()] raced against its 3 s timer
    gives: the two reserves, or [None] when the call throws or the timer
    wins. *)
Definition ReservesReply : Type := option (Z * Z).

Definition maxRetries : nat := 5.

(** The body of the [try] block for one provider: [Some price] when the
    function returns from there, [None] when the loop goes on. *)
Definition priceFromReply (tokenIsToken1 : bool) (reply : ReservesReply) : option Z :=
  match reply with
  | Some (reserve0, reserve1) =>
      if (reserve0 >? 0) && (reserve1 >? 0) then
        let reserveWBNB := if tokenIsToken1 then reserve0 else reserve1 in
        let reserveToken := if tokenIsToken1 then reserve1 else reserve0 in
        if reserveToken =? 0 then None
        else Some (reserveWBNB * 1000000 * 10 ^ 18 / reserveToken)
      else None
  | None => None
  end.

(** [for (const prov of providersToTry)], the providers given by index. *)
Fixpoint tryProviders (tokenIsToken1 : bool) (getReserves : nat -> ReservesReply)
  (providersToTry : list nat) : option Z :=
  match providersToTry with
  | [] => None
  | prov :: rest =>
      match priceFromReply tokenIsToken1 (getReserves prov) with
      | Some price => Some price
      | None => tryProviders tokenIsToken1 getReserves rest
      end
  end.

(** [for (let i = 0; i < maxRetries; i++)], the rounds given as a list;
    [getReserves i prov] is the reply that provider [prov] gives in
    round [i]. *)
Fixpoint retryRounds (tokenIsToken1 : bool) (getReserves : nat -> nat -> ReservesReply)
  (providersToTry : list nat) (rounds : list nat) : Z :=
  match rounds with
  | [] => 0
  | i :: later =>
      match tryProviders tokenIsToken1 (getReserves i) providersToTry with
      | Some price => price
      | None => retryRounds tokenIsToken1 getReserves providersToTry later
      end
  end.

(** [providersToTry = [provider, ...rpcProviders]]: index 0 is the
    WebSocket provider, the others are the HTTP fallbacks. *)
Definition getCurrentPriceFromReservesSafe (rpcProviders : nat)
  (getReserves : nat -> nat -> ReservesReply) (tokenIsToken1 : bool) : Z :=
  retryRounds tokenIsToken1 getReserves (seq 0 (1 + rpcProviders)) (seq 0 maxRetries).

(** The single-shot variant of [new.ts]. *)
Definition getCurrentPriceFromReserves (reply : ReservesReply) (tokenIsToken1 : bool) : Z :=
  match reply with
  | Some (reserve0, reserve1) =>
      let reserveWBNB := if tokenIsToken1 then reserve0 else reserve1 in
      let reserveToken := if tokenIsToken1 then reserve1 else reserve0 in
      if reserveToken =? 0 then 0
      else reserveWBNB * 1000000 * 10 ^ 18 / reserveToken
  | None => 0
  end.

(** *** The contract in the specification's words *)

(** Base-asset reserve over token reserve at a total scaling of 10^24. *)
Definition scaledRatio (reserveBase reserveToken : Z) : Z :=
  reserveBase * 10 ^ 24 / reserveToken.

(** The replies in the order the rounds fetch them. *)
Definition fetched (rpcProviders : nat) (getReserves : nat -> nat -> ReservesReply)
  : list ReservesReply :=
  flat_map (fun i => List.map (getReserves i) (seq 0 (1 + rpcProviders))) (seq 0 maxRetries).

Definition bothNonZero (reply : ReservesReply) : bool :=
  match reply with
  | Some (reserve0, reserve1) => (reserve0 >? 0) && (reserve1 >? 0)
  | None => false
  end.

(** The scaled ratio of the first fetched reserves with both sides
    non-zero, the zero sentinel when no round fetches such reserves. *)
Definition getPrice_spec (rpcProviders : nat) (getReserves : nat -> nat -> ReservesReply)
  (tokenIsSecondLeg : bool) : Z :=
  match List.find bothNonZero (fetched rpcProviders getReserves) with
  | Some (Some (reserve0, reserve1)) =>
      if tokenIsSecondLeg then scaledRatio reserve0 reserve1
      else scaledRatio reserve1 reserve0
  | _ => 0
  end.

Lemma priceFromReply_spec t reply :
  priceFromReply t reply =
  if bothNonZero reply then
    match reply with
    | Some (r0, r1) => Some (if t then scaledRatio r0 r1 else scaledRatio r1 r0)
    | None => None
    end
  else None.
Proof.
  destruct reply as [[r0 r1]|]; simpl; [|reflexivity].
  destruct (r0 >? 0) eqn:H0; simpl; [|reflexivity].
  destruct (r1 >? 0) eqn:H1; simpl; [|reflexivity].
  apply Z.gtb_lt in H0, H1. unfold scaledRatio.
  replace (10 ^ 24) with (1000000 * 10 ^ 18) by reflexivity.
  destruct t.
  - destruct (Z.eqb_spec r1 0); [lia|]. now rewrite Z.mul_assoc.
  - destruct (Z.eqb_spec r0 0); [lia|]. now rewrite Z.mul_assoc.
Qed.

Lemma tryProviders_spec t getReserves provs :
  tryProviders t getReserves provs =
  match List.find bothNonZero (List.map getReserves provs) with
  | Some (Some (r0, r1)) => Some (if t then scaledRatio r0 r1 else scaledRatio r1 r0)
  | _ => None
  end.
Proof.
  induction provs as [|p provs IH]; simpl; [reflexivity|].
  rewrite priceFromReply_spec.
  destruct (bothNonZero (getReserves p)) eqn:Hb.
  - destruct (getReserves p) as [[r0 r1]|]; [reflexivity | discriminate].
  - exact IH.
Qed.

Lemma find_app_found {A} (f : A -> bool) (l1 l2 : list A) x :
  List.find f l1 = Some x -> List.find f (l1 ++ l2) = Some x.
Proof.
  induction l1 as [|a l1 IH]; simpl; [discriminate|].
  destruct (f a); auto.
Qed.

Lemma find_app_missing {A} (f : A -> bool) (l1 l2 : list A) :
  List.find f l1 = None -> List.find f (l1 ++ l2) = List.find f l2.
Proof.
  induction l1 as [|a l1 IH]; simpl; [reflexivity|].
  destruct (f a); [discriminate | auto].
Qed.

Lemma find_bothNonZero_Some l r :
  List.find bothNonZero l = Some r -> exists r0 r1, r = Some (r0, r1).
Proof.
  intros H. apply find_some in H as [_ H].
  destruct r as [[r0 r1]|]; [eauto | discriminate].
Qed.

Lemma retryRounds_spec t getReserves provs rounds :
  retryRounds t getReserves provs rounds =
  match List.find bothNonZero
          (flat_map (fun i => List.map (getReserves i) provs) rounds) with
  | Some (Some (r0, r1)) => if t then scaledRatio r0 r1 else scaledRatio r1 r0
  | _ => 0
  end.
Proof.
  induction rounds as [|i rounds IH]; simpl; [reflexivity|].
  rewrite tryProviders_spec.
  destruct (List.find bothNonZero (List.map (getReserves i) provs)) as [r|] eqn:Hf.
  - rewrite (find_app_found _ _ _ _ Hf).
    destruct (find_bothNonZero_Some _ _ Hf) as [r0 [r1 ->]]. reflexivity.
  - rewrite (find_app_missing _ _ _ Hf). exact IH.
Qed.

(** C6. The safe price reader is the specified [getPrice]: it returns the
    integer (base reserve * 10^24) / token reserve of the first reserves
    fetched with both sides non-zero, and the zero sentinel when the five
    rounds over all providers fetch none; the single-shot reader of
    [new.ts] gives the same ratio on such reserves and zero on a failed
    read; for reserves (10 * 10^18, 1000 * 10^18) with the token as
    second leg the price is 10^22, that is 0.01 at scale 10^24. *)
Theorem getPrice_scaled_ratio :
  (forall rpcProviders getReserves tokenIsToken1,
      getCurrentPriceFromReservesSafe rpcProviders getReserves tokenIsToken1 =
      getPrice_spec rpcProviders getReserves tokenIsToken1) /\
  (forall reserve0 reserve1 tokenIsToken1,
      bothNonZero (Some (reserve0, reserve1)) = true ->
      getCurrentPriceFromReserves (Some (reserve0, reserve1)) tokenIsToken1 =
      if tokenIsToken1 then scaledRatio reserve0 reserve1
      else scaledRatio reserve1 reserve0) /\
  (forall tokenIsToken1, getCurrentPriceFromReserves None tokenIsToken1 = 0) /\
  (forall rpcProviders,
      getCurrentPriceFromReservesSafe rpcProviders
        (fun _ _ => Some (10 * 10 ^ 18, 1000 * 10 ^ 18)) true = 10 ^ 22) /\
  10 ^ 22 * 100 = 1 * 10 ^ 24.
Proof.
  split; [|split; [|split; [|split]]].
  - intros. unfold getCurrentPriceFromReservesSafe, getPrice_spec, fetched.
    apply retryRounds_spec.
  - intros r0 r1 t H. simpl in H. apply andb_true_iff in H as [H0 H1].
    apply Z.gtb_lt in H0, H1. unfold getCurrentPriceFromReserves, scaledRatio.
    replace (10 ^ 24) with (1000000 * 10 ^ 18) by reflexivity.
    destruct t.
    + destruct (Z.eqb_spec r1 0); [lia|]. now rewrite Z.mul_assoc.
    + destruct (Z.eqb_spec r0 0); [lia|]. now rewrite Z.mul_assoc.
  - reflexivity.
  - intros n. unfold getCurrentPriceFromReservesSafe. reflexivity.
  - reflexivity.
Qed.

(** The theorem at reserves (10 * 10^18, 1000 * 10^18). *)
Lemma getPrice_scaled_ratio_witness :
  getCurrentPriceFromReserves (Some (10 * 10 ^ 18, 1000 * 10 ^ 18)) true =
  scaledRatio (10 * 10 ^ 18) (1000 * 10 ^ 18).
Proof.
  exact (proj1 (proj2 getPrice_scaled_ratio) (10 * 10 ^ 18) (1000 * 10 ^ 18) true eq_refl).
Defined.

End ReserveOracle.

(** ** Router approval ([approveToken]) *)

Module Approval.

Definition MaxUint256 : Z := 2 ^ 256 - 1.

Definition ROUTER : string := "0x10ED43C718714eb63d5aA57B78B54704E256024E".

(** One [tokenContract.approve(spender, amount)] call. *)
Record ApproveCall : Type := { spender : string; amount : Z }.

Inductive Completion : Type := Returned | Thrown.

(** The three awaited calls of [approveToken] and what they answer:
    [allowance] ([None]: the read throws), [approve] and [tx.wait(1)]
    ([false]: the call throws). *)
Record ApproveReplies : Type :=
  { allowanceReply : option Z; approveSent : bool; approveMined : bool }.

(** [allowance >= amount]: nothing to do. *)
Definition alreadyApproved (allowance amount : Z) : bool := allowance >=? amount.

(** The [approve] calls that [approveToken(token, amount)] makes, and how
    it completes. *)
Definition approveToken (amount : Z) (chain : ApproveReplies)
  : list ApproveCall * Completion :=
  match allowanceReply chain with
  | None => ([], Thrown)
  | Some allowance =>
      if alreadyApproved allowance amount then ([], Returned)
      else
        let calls := [ {| spender := ROUTER; amount := MaxUint256 |} ] in
        if approveSent chain && approveMined chain then (calls, Returned)
        else (calls, Thrown)
  end.

(** With no allowance and 1000 tokens held, the approval is not for
    the 1000 tokens held. *)
Lemma approveToken_not_exact_balance :
  ~ (forall (tokenBalance allowance : Z) (chain : ApproveReplies),
        allowanceReply chain = Some allowance ->
        allowance < tokenBalance ->
        fst (approveToken tokenBalance chain) =
        [ {| spender := ROUTER; amount := tokenBalance |} ]).
Proof.
  intros H.
  specialize (H 1000 0
    {| allowanceReply := Some 0; approveSent := true; approveMined := true |}
    eq_refl eq_refl).
  vm_compute in H. discriminate H.
Qed.

(** C8, amended. When the allowance is below the held balance, the sell
    path makes one approval, of the router, for the maximal uint256
    amount; when the allowance covers the balance it makes none. *)
Theorem approveToken_max_allowance (tokenBalance allowance : Z) (chain : ApproveReplies) :
  allowanceReply chain = Some allowance ->
  (allowance < tokenBalance ->
   fst (approveToken tokenBalance chain) =
   [ {| spender := ROUTER; amount := 2 ^ 256 - 1 |} ]) /\
  (tokenBalance <= allowance ->
   approveToken tokenBalance chain = ([], Returned)).
Proof.
  intros Ha. unfold approveToken, alreadyApproved. rewrite Ha.
  split; intros Hlt.
  - destruct (Z.geb_spec allowance tokenBalance); [lia|].
    destruct (approveSent chain && approveMined chain); reflexivity.
  - destruct (Z.geb_spec allowance tokenBalance); [reflexivity | lia].
Qed.

Lemma approveToken_max_allowance_witness :
  fst (approveToken 1000
         {| allowanceReply := Some 0; approveSent := true; approveMined := true |}) =
  [ {| spender := ROUTER; amount := 2 ^ 256 - 1 |} ].
Proof.
  apply (approveToken_max_allowance 1000 0
           {| allowanceReply := Some 0; approveSent := true; approveMined := true |}
           eq_refl).
  reflexivity.
Defined.

End Approval.

(** ** Gas price of the buy ([executeSwap]) *)

Module GasPrice.

(** [ethers.parseUnits(x, 'gwei')], in wei, for the two literals used. *)
Definition gwei_3 : Z := 3 * 10 ^ 9.
Definition gwei_0_05 : Z := 50000000.

(** [feeData.gasPrice || ethers.parseUnits('3', 'gwei')]: a missing or
    zero gas price is falsy. *)
Definition networkGas (feeData_gasPrice : option Z) : Z :=
  match feeData_gasPrice with
  | Some g => if g =? 0 then gwei_3 else g
  | None => gwei_3
  end.

Definition gasPrice (competitiveGas : bool) (feeData_gasPrice : option Z) : Z :=
  if competitiveGas then networkGas feeData_gasPrice * 150 / 100
  else gwei_0_05.

(** No ceiling bounds the competitive gas price: whatever the maximum,
    a network price twice as high is used at one and a half times its
    value. *)
Lemma gasPrice_not_clamped :
  ~ (exists maxGasPrice : Z,
        forall network : Z, 0 < network ->
          gasPrice true (Some network) = Z.min (network * 150 / 100) maxGasPrice
          /\ gasPrice true (Some network) <= maxGasPrice).
Proof.
  intros [m H].
  destruct (H (2 * Z.max m 1) ltac:(lia)) as [_ Hle].
  unfold gasPrice, networkGas in Hle.
  destruct (Z.eqb_spec (2 * Z.max m 1) 0); [lia|].
  assert (2 * Z.max m 1 <= 2 * Z.max m 1 * 150 / 100).
  { apply Z.div_le_lower_bound; lia. }
  lia.
Qed.

(** C9, amended. With the competitive option the gas price is the network
    gas price (3 gwei when the fee data carries none) times 150 / 100,
    rounded down, and is never below the network price: nothing clamps
    it; without the option it is the fixed 0.05 gwei. *)
Theorem gasPrice_competitive_unclamped :
  (forall network : Z, 0 < network ->
      gasPrice true (Some network) = network * 150 / 100 /\
      network <= gasPrice true (Some network)) /\
  gasPrice true None = 4500000000 /\
  gasPrice true (Some 0) = 4500000000 /\
  (forall feeData_gasPrice, gasPrice false feeData_gasPrice = 50000000).
Proof.
  repeat split; try reflexivity.
  - unfold gasPrice, networkGas. destruct (Z.eqb_spec network 0); [lia | reflexivity].
  - unfold gasPrice, networkGas. destruct (Z.eqb_spec network 0); [lia|].
    apply Z.div_le_lower_bound; lia.
Qed.

Lemma gasPrice_competitive_unclamped_witness :
  gasPrice true (Some 100000000000) = 100000000000 * 150 / 100 /\
  100000000000 <= gasPrice true (Some 100000000000).
Proof.
  apply (proj1 gasPrice_competitive_unclamped 100000000000). reflexivity.
Defined.

End GasPrice.

(** ** Multi-endpoint broadcast ([submitRawTx]) *)

Module Broadcast.
Import JsString.

(** What [provider.broadcastTransaction] of one endpoint does: it answers
    after [respondsAt] milliseconds, with a response carrying a hash, with
    no response object, or by throwing. *)
Inductive Reply : Type :=
| Accepted (hash : string)
| NoResponse
| Rejected (message : string).

Record Endpoint : Type := { respondsAt : Z; reply : Reply }.

(** The value one submission promise is fulfilled with, and when. *)
Record Submission : Type :=
  { success : bool; hash : string; error : string; provider : nat; settledAt : Z }.

(** The callback of [rpcProviders.map]: the broadcast raced against the
    [timeoutMs] timer; every failure is caught and turned into a value.
    An answer that arrives exactly with the timer counts as in time. *)
Definition submission (timeoutMs : Z) (index : nat) (e : Endpoint) : Submission :=
  let failed message at_ :=
    {| success := false; hash := ""; error := message; provider := index; settledAt := at_ |} in
  if (respondsAt e <=? timeoutMs) then
    match reply e with
    | Accepted h =>
        if truthy h
        then {| success := true; hash := h; error := ""; provider := index;
                settledAt := respondsAt e |}
        else failed "No transaction hash returned" (respondsAt e)
    | NoResponse => failed "No transaction hash returned" (respondsAt e)
    | Rejected message => failed message (respondsAt e)
    end
  else failed "Timeout" timeoutMs.

(** [Promise.allSettled(submissions)] is fulfilled when the last of the
    promises has settled. *)
Definition allSettledAt (submissions : list Submission) : Z :=
  fold_right Z.max 0 (List.map settledAt submissions).

Definition accepted (r : Submission) : bool := success r && truthy (hash r).

Definition allFailed : string := "All RPC endpoints failed to broadcast transaction".

(** [submitRawTx]: the time at which the call completes, and the hash it
    returns ([inl]) or the message of the error it throws ([inr]). *)
Definition submitRawTx (rpcProviders : list Endpoint) (timeoutMs : Z)
  : Z * (string + string) :=
  let submissions := imap (submission timeoutMs) rpcProviders in
  let results := submissions in
  let resumedAt := allSettledAt submissions in
  match List.find accepted results with
  | Some result => (resumedAt, inl (hash result))
  | None => (resumedAt, inr allFailed)
  end.

(** *** The contract in the specification's words *)

(** An endpoint succeeds when it answers with a hash within the timeout. *)
Definition succeeds (timeoutMs : Z) (e : Endpoint) : bool :=
  (respondsAt e <=? timeoutMs) &&
  match reply e with Accepted h => truthy h | _ => false end.

Lemma accepted_submission timeoutMs index e :
  accepted (submission timeoutMs index e) = succeeds timeoutMs e.
Proof.
  unfold accepted, submission, succeeds.
  destruct (respondsAt e <=? timeoutMs); [|reflexivity].
  destruct (reply e) as [h| |m]; try reflexivity.
  destruct (truthy h) eqn:Hh; simpl; [exact Hh | reflexivity].
Qed.

Lemma find_accepted_imap timeoutMs (endpoints : list Endpoint) k :
  List.find accepted (imap (fun i => submission timeoutMs (k + i)) endpoints) = None <->
  forall e, In e endpoints -> succeeds timeoutMs e = false.
Proof.
  revert k; induction endpoints as [|e es IH]; intros k; simpl.
  - split; [intros _ e [] | reflexivity].
  - rewrite accepted_submission.
    destruct (succeeds timeoutMs e) eqn:He.
    + split; [discriminate|]. intros H. specialize (H e (or_introl eq_refl)). congruence.
    + rewrite (imap_ext _ (fun i => submission timeoutMs (S k + i))).
      2:{ intros i x _. simpl. f_equal. lia. }
      rewrite IH. split.
      * intros H x [<-|Hx]; auto.
      * intros H x Hx. apply H. now right.
Qed.

(** The part of the contract that the code keeps: the call throws the
    all-endpoints-failed error exactly when no endpoint succeeds. *)
Lemma submitRawTx_fails_iff (rpcProviders : list Endpoint) (timeoutMs : Z) :
  snd (submitRawTx rpcProviders timeoutMs) = inr allFailed <->
  forall e, In e rpcProviders -> succeeds timeoutMs e = false.
Proof.
  unfold submitRawTx.
  rewrite <- (find_accepted_imap timeoutMs rpcProviders 0).
  simpl. destruct (List.find accepted _); simpl; split; congruence.
Qed.

Lemma allSettledAt_ge (submissions : list Submission) r :
  In r submissions -> settledAt r <= allSettledAt submissions.
Proof.
  unfold allSettledAt. induction submissions as [|x l IH]; simpl; [intros []|].
  intros [->|Hin]; [lia|]. specialize (IH Hin). lia.
Qed.

Lemma In_imap_submission timeoutMs (endpoints : list Endpoint) e k :
  In e endpoints ->
  exists index, In (submission timeoutMs index e)
                   (imap (fun i => submission timeoutMs (k + i)) endpoints).
Proof.
  revert k; induction endpoints as [|x l IH]; intros k; simpl; [intros []|].
  intros [->|Hin].
  - exists (k + 0)%nat. now left.
  - destruct (IH (S k) Hin) as [index Hi]. exists index. right.
    rewrite (imap_ext _ (fun i => submission timeoutMs (S k + i))); [exact Hi|].
    intros i y _. simpl. f_equal. lia.
Qed.

(** The call is not over before its slowest submission: with one
    endpoint silent until the timer, it lasts the whole timeout, whatever
    the other endpoints answer. *)
Lemma submitRawTx_waits_for_silent_endpoint (rpcProviders : list Endpoint)
  (timeoutMs : Z) (e : Endpoint) :
  In e rpcProviders -> timeoutMs < respondsAt e ->
  timeoutMs <= fst (submitRawTx rpcProviders timeoutMs).
Proof.
  intros Hin Hlate.
  destruct (In_imap_submission timeoutMs rpcProviders e 0 Hin) as [index Hi].
  apply allSettledAt_ge in Hi.
  assert (Hs : settledAt (submission timeoutMs index e) = timeoutMs).
  { unfold submission. destruct (Z.leb_spec (respondsAt e) timeoutMs); [lia | reflexivity]. }
  rewrite Hs in Hi. unfold submitRawTx. simpl in *.
  destruct (List.find accepted _); exact Hi.
Qed.

(** With more endpoints than the script configures the call is no race.
    Three endpoints, the second accepting after 50 ms and the two others
    silent until the 5000 ms timer: the call returns the second
    endpoint's hash, but only at 5000 ms, once every submission has
    settled. Two endpoints that both accept, the second one first: the
    call returns the hash of the first in index order, at the time the
    slower one answers. *)
Example submitRawTx_waits_for_all :
  submitRawTx [ {| respondsAt := 60000; reply := Rejected "late" |};
                {| respondsAt := 50; reply := Accepted "0xb2" |};
                {| respondsAt := 60000; reply := Rejected "late" |} ] 5000
  = (5000, inl "0xb2") /\
  submitRawTx [ {| respondsAt := 400; reply := Accepted "0xa1" |};
                {| respondsAt := 50; reply := Accepted "0xb2" |} ] 5000
  = (400, inl "0xa1").
Proof. split; vm_compute; reflexivity. Qed.

(** *** The configured endpoints *)

(** [BSC_RPC_ENDPOINTS] has one entry, [RPC_PROVIDER_URL], every other
    one being commented out, and [rpcProviders] one provider for it. *)
Definition rpcProviders (RPC_PROVIDER_URL : Endpoint) : list Endpoint :=
  [RPC_PROVIDER_URL].








End Broadcast.

(** ** The global lock ([isSnipingActive], [currentTargetToken]) *)

Module Gate.

Record State : Type :=
  { isSnipingActive : bool; currentTargetToken : option string }.

(** [let isSnipingActive = false; let currentTargetToken = null] *)
Definition fresh : State :=
  {| isSnipingActive := false; currentTargetToken := None |}.

(** [isSnipingActive = true; currentTargetToken = newToken] *)
Definition lock (newToken : string) : State :=
  {| isSnipingActive := true; currentTargetToken := Some newToken |}.

(** [isSnipingActive = false; currentTargetToken = null] *)
Definition unlock : State := fresh.

(** The final check and the lock of the handler, which no [await]
    separates: whether the lock was taken, and the gate afterwards. *)
Definition tryAcquire (newToken : string) (g : State) : bool * State :=
  if isSnipingActive g then (false, g) else (true, lock newToken).

End Gate.

(** ** Liquidity figures *)

Module Liquidity.

Definition Qltb (a b : Q) : bool := (Qnum a * QDen b <? Qnum b * QDen a)%Z.

Lemma Qltb_lt a b : Qltb a b = true <-> (a < b)%Q.
Proof. unfold Qltb, Qlt. apply Z.ltb_lt. Qed.

(** A double-precision number: the rational it stands for, an infinity,
    or the value that is not a number. *)
Inductive Double : Type :=
| Finite (q : Q)
| PlusInfinity
| MinusInfinity
| NotANumber.

(** [a < b] on numbers: false whenever one of the two is not a number. *)
Definition ltb (a b : Double) : bool :=
  match a, b with
  | Finite x, Finite y => Qltb x y
  | Finite _, PlusInfinity => true
  | MinusInfinity, Finite _ => true
  | MinusInfinity, PlusInfinity => true
  | _, _ => false
  end.

(** [limit > 0] and [x < limit] for a finite [x]. *)
Definition positive (limit : Double) : bool := ltb (Finite 0) limit.
Definition below (x : Q) (limit : Double) : bool := ltb (Finite x) limit.

(** The integer nearest to [n/d], a tie going to the even one ([d > 0]). *)
Definition roundHalfEven (n d : Z) : Z :=
  let q := n / d in
  let r := n mod d in
  if 2 * r <? d then q
  else if d <? 2 * r then q + 1
  else if Z.even q then q else q + 1.

(** [2^k <= n/d] *)
Definition atLeastPow2 (n d k : Z) : bool :=
  if 0 <=? k then d * 2 ^ k <=? n else d <=? n * 2 ^ (- k).

(** The binary64 number nearest to [n/d], a tie going to the even
    mantissa, for [n >= 0] and [d > 0]: 53 bits of mantissa from the
    leading bit of the quotient on, and no bit below 2^-1074. This is
    what [Number] makes of a decimal text whose value is [n/d]; the
    values met here are far below 2^1024, where the numbers end. *)
Definition nearestDouble (n d : Z) : Q :=
  if n <=? 0 then 0%Q
  else
    let k := Z.log2 n - Z.log2 d in
    let exponent := if atLeastPow2 n d k then k else k - 1 in
    let e := Z.max (exponent - 52) (- 1074) in
    if 0 <=? e
    then Qmake (roundHalfEven n (d * 2 ^ e) * 2 ^ e) 1
    else Qmake (roundHalfEven (n * 2 ^ (- e)) d) (Z.to_pos (2 ^ (- e))).

(** [Number(ethers.formatEther(wei))]: [formatEther] writes [wei/10^18]
    out in full, [Number] reads the nearest double. Reserves are
    unsigned. *)
Definition formatEther (wei : Z) : Q := nearestDouble wei (10 ^ 18).

(** [wbnbLiquidityBNB * 2], a doubling that is exact. *)
Definition totalLiquidityBNB (wbnbReserve : Z) : Q := (formatEther wbnbReserve * 2)%Q.

(** One wei below half a BNB is read as half a BNB: the total is 1 BNB,
    which is not below a minimum of 1. *)
Example formatEther_rounds :
  (formatEther 499999999999999999 == 1 # 2)%Q /\
  below (totalLiquidityBNB 499999999999999999) (Finite 1) = false /\
  below (totalLiquidityBNB 499999999999999900) (Finite 1) = true /\
  (formatEther (10 ^ 17) == 3602879701896397 # 36028797018963968)%Q.
Proof. vm_compute. repeat split; congruence. Qed.

End Liquidity.

(** ** Module initialisation: the settings read from [process.env] *)

Module Startup.
Import JsString.

Record Settings : Type :=
  { sendBNB : string;
    TOKEN_NAME_KEYWORDS : list string;
    MIN_LIQUIDITY_BNB : Liquidity.Double;
    SNIPER_CONTRACT_ADDRESS : string;
    PROVIDER_URL : option string;
    RPC_PROVIDER_URL : option string;
    PRIVATE_KEY : string }.

(** [String(v)] of a value that is a string or [undefined]. *)
Definition String_ (v : option string) : string :=
  match v with Some s => s | None => "undefined" end.

Definition sniperAddressError : string :=
  "SNIPER_CONTRACT_ADDRESS not set in .env file! Deploy the contract first.".
Definition privateKeyError : string := "PRIVATE_KEY not set in .env file!".

(** The library calls of the top-level statements. A constructor gives
    the message of the error it throws, [None] when it returns. *)
Record Library : Type :=
  { isAddress : string -> bool;                        (* isAddress(a, false) *)
    parseFloat : string -> Liquidity.Double;
    WebSocketProvider : option string -> option string;  (* new ethers.WebSocketProvider(url) *)
    Wallet : string -> option string;                  (* new ethers.Wallet(key, provider) *)
    JsonRpcProvider : option string -> option string }.  (* new ethers.JsonRpcProvider(url) *)

(** The top-level statements of the script, in their order: the error
    that ends the process ([inl]) or the settings ([inr]). *)
Definition load (lib : Library) (env : gmap string string) : string + Settings :=
  let sendBNB_ := String_ (env !! "SEND_BNB") in
  let keywords := TokenFilter.TOKEN_NAME_KEYWORDS env in
  let minLiquidity :=
    match env !! "MIN_LIQUIDITY_BNB" with
    | Some v => if truthy v then parseFloat lib v else Liquidity.Finite 0
    | None => Liquidity.Finite 0
    end in
  match env !! "SNIPER_CONTRACT_ADDRESS" with
  | None => inl sniperAddressError
  | Some sniper =>
      if negb (truthy sniper) || negb (isAddress lib sniper) then inl sniperAddressError
      else
        match env !! "PRIVATE_KEY" with
        | None => inl privateKeyError
        | Some key =>
            if negb (truthy key) then inl privateKeyError
            else
              match WebSocketProvider lib (env !! "WS_PROVIDER_URL") with
              | Some message => inl message
              | None =>
                  match Wallet lib key with
                  | Some message => inl message
                  | None =>
                      match JsonRpcProvider lib (env !! "RPC_PROVIDER_URL") with
                      | Some message => inl message
                      | None =>
                          inr {| sendBNB := sendBNB_;
                                 TOKEN_NAME_KEYWORDS := keywords;
                                 MIN_LIQUIDITY_BNB := minLiquidity;
                                 SNIPER_CONTRACT_ADDRESS := sniper;
                                 PROVIDER_URL := env !! "WS_PROVIDER_URL";
                                 RPC_PROVIDER_URL := env !! "RPC_PROVIDER_URL";
                                 PRIVATE_KEY := key |}
                      end
                  end
              end
        end
  end.

(** How the process starts. *)
Inductive Start : Type :=
| Fatal (message : string)                 (* a top-level statement throws *)
| Idle                                     (* [main] is rejected: logged, no listener *)
| Listening (cfg : Settings) (nonce : Z).  (* the handler is registered *)

(** The script up to the registration of the handler; [pending] is the
    answer of the nonce read at the head of [main], [None] when it or a
    contract construction before it throws, which
    [main().catch(console.error)] logs. *)
Definition start (lib : Library) (env : gmap string string) (pending : option Z) : Start :=
  match load lib env with
  | inl message => Fatal message
  | inr cfg =>
      match pending with
      | Some nonce => Listening cfg nonce
      | None => Idle
      end
  end.




End Startup.

(** ** The [PairCreated] handler and the interleaving of its instances *)

Module Handler.
Import JsString.

Definition WBNB : string := "0xbb4CdB9CBd36B01bD1cBaEBF2De08d9173bc095c".

(** One [PairCreated] event with the answers the chain gives to the calls
    its handler awaits: [getReserves] ([None]: it throws), [getTokenInfo]
    ([None]: the lookup fails or times out) and [executeSwap] ([inl] the
    hash of the submitted buy, [inr] the error of a failed one;
    [executeSwap] catches what its body throws, and a failure of the
    nonce resynchronisation inside its [catch] is left out). *)
Record Event : Type :=
  { token0 : string;
    token1 : string;
    pair : string;
    reserves : option (Z * Z);
    tokenInfo : option (string * string);
    swapResult : string + string }.

Inductive Outcome : Type :=
| Skipped        (* a filter rejected the event *)
| Busy           (* the gate was found active *)
| BuyFailed      (* locked, the buy failed, unlocked *)
| LifecycleOver. (* locked, bought, the position's life cycle ended *)

(** Where a handler instance stands: the [await] it is suspended at. *)
Inductive Pc : Type :=
| Arrived
| AwaitReserves
| AwaitTokenInfo
| AwaitDelay
| AwaitSwap
| Monitoring
| Exited
| Finished (o : Outcome).

Definition token0IsWBNB (ev : Event) : bool :=
  String.eqb (toLowerCase (token0 ev)) (toLowerCase WBNB).
Definition token1IsWBNB (ev : Event) : bool :=
  String.eqb (toLowerCase (token1 ev)) (toLowerCase WBNB).

(** [token0Lower === wbnbLower ? token1 : token0] *)
Definition newToken (ev : Event) : string :=
  if token0IsWBNB ev then token1 ev else token0 ev.

(** The minimum-liquidity filter: [true] when the pool is skipped. *)
Definition belowMinimum (cfg : Startup.Settings) (ev : Event) (r0 r1 : Z) : bool :=
  if Liquidity.positive (Startup.MIN_LIQUIDITY_BNB cfg) then
    let wbnbReserve := if token0IsWBNB ev then r0 else r1 in
    Liquidity.below (Liquidity.totalLiquidityBNB wbnbReserve) (Startup.MIN_LIQUIDITY_BNB cfg)
  else false.

(** The synchronous segment that a handler suspended at [pc] runs when it
    is resumed with gate [g]: where it suspends or ends, the gate it
    leaves, and whether it ended the process ([process.exit(1)]). *)
Definition segment (cfg : Startup.Settings) (ev : Event) (pc : Pc) (g : Gate.State)
  : Pc * Gate.State * bool :=
  match pc with
  | Arrived =>
      if negb (token0IsWBNB ev) && negb (token1IsWBNB ev)
      then (Finished Skipped, g, false)
      else (AwaitReserves, g, false)
  | AwaitReserves =>
      match reserves ev with
      | None => (Finished Skipped, g, false)
      | Some (r0, r1) =>
          if (r0 =? 0) || (r1 =? 0) then (Finished Skipped, g, false)
          else if belowMinimum cfg ev r0 r1 then (Finished Skipped, g, false)
          else if Gate.isSnipingActive g then (Finished Busy, g, false)
          else (AwaitTokenInfo, g, false)
      end
  | AwaitTokenInfo =>
      match tokenInfo ev with
      | None => (Finished Skipped, g, false)
      | Some (name, symbol) =>
          if negb (TokenFilter.shouldBuyToken (Startup.TOKEN_NAME_KEYWORDS cfg) name)
          then (Finished Skipped, g, false)
          else if Gate.isSnipingActive g then (Finished Busy, g, false)
          else (AwaitDelay, g, false)
      end
  | AwaitDelay =>
      match Gate.tryAcquire (newToken ev) g with
      | (false, g') => (Finished Busy, g', false)
      | (true, g') =>
          if negb (truthy (Startup.sendBNB cfg)) then (Exited, g', true)
          else (AwaitSwap, g', false)
      end
  | AwaitSwap =>
      match swapResult ev with
      | inl txHash =>
          if truthy txHash then (Monitoring, g, false)
          else (Finished BuyFailed, Gate.unlock, false)
      | inr _ => (Finished BuyFailed, Gate.unlock, false)
      end
  | Monitoring => (Finished LifecycleOver, Gate.unlock, false)
  | Exited => (Exited, g, false)
  | Finished o => (Finished o, g, false)
  end.

Record Instance : Type := { event : Event; pc : Pc }.

(** The process: the gate, the handler instances in flight, and whether
    the process has exited. *)
Record System : Type :=
  { gate : Gate.State; handlers : list Instance; halted : bool }.

Definition initial (events : list Event) : System :=
  {| gate := Gate.fresh;
     handlers := List.map (fun ev => {| event := ev; pc := Arrived |}) events;
     halted := false |}.

(** The event loop resumes instance [i] for one segment. *)
Definition step (cfg : Startup.Settings) (s : System) (i : nat) : System :=
  if halted s then s
  else
    match handlers s !! i with
    | None => s
    | Some h =>
        match segment cfg (event h) (pc h) (gate s) with
        | (pc', g', exit) =>
            {| gate := g';
               handlers := <[i := {| event := event h; pc := pc' |}]> (handlers s);
               halted := exit |}
        end
    end.

(** A schedule lists the instances in the order the loop resumes them. *)
Definition run (cfg : Startup.Settings) (schedule : list nat) (s : System) : System :=
  fold_left (step cfg) schedule s.

(** *** Observations *)

(** The instance holds the lock. *)
Definition holding (p : Pc) : bool :=
  match p with AwaitSwap | Monitoring | Exited => true | _ => false end.

(** The instance has given the lock back. *)
Definition released (p : Pc) : bool :=
  match p with Finished BuyFailed | Finished LifecycleOver => true | _ => false end.

(** The instance was accepted: it took the lock at some point. *)
Definition accepted (p : Pc) : bool := holding p || released p.

(** The instance was rejected because the gate was active. *)
Definition rejected (p : Pc) : bool :=
  match p with Finished Busy => true | _ => false end.

Definition skipped (p : Pc) : bool :=
  match p with Finished Skipped => true | _ => false end.

(** The instance is past the point where it takes or is refused the lock. *)
Definition settled (p : Pc) : bool :=
  match p with
  | Arrived | AwaitReserves | AwaitTokenInfo | AwaitDelay => false
  | _ => true
  end.

(** The event passes every filter of the handler. *)
Definition qualifies (cfg : Startup.Settings) (ev : Event) : bool :=
  (token0IsWBNB ev || token1IsWBNB ev) &&
  match reserves ev with
  | Some (r0, r1) => negb ((r0 =? 0) || (r1 =? 0)) && negb (belowMinimum cfg ev r0 r1)
  | None => false
  end &&
  match tokenInfo ev with
  | Some (name, _) => TokenFilter.shouldBuyToken (Startup.TOKEN_NAME_KEYWORDS cfg) name
  | None => false
  end.

Definition count (f : Pc -> bool) (l : list Instance) : nat :=
  length (List.filter (fun h => f (pc h)) l).

(** *** Counting instances *)

Lemma count_cons f h l :
  count f (h :: l) = (Nat.b2n (f (pc h)) + count f l)%nat.
Proof. unfold count. simpl. destruct (f (pc h)); reflexivity. Qed.

Lemma count_insert f (l : list Instance) i h pc' :
  l !! i = Some h ->
  (count f (<[i := {| event := event h; pc := pc' |}]> l) + Nat.b2n (f (pc h))
   = count f l + Nat.b2n (f pc'))%nat.
Proof.
  revert i; induction l as [|x l IH]; intros i Hi; [discriminate|].
  destruct i as [|i]; simpl in Hi.
  - injection Hi as ->. simpl. rewrite !count_cons. simpl. lia.
  - simpl. rewrite !count_cons. specialize (IH i Hi). lia.
Qed.

Lemma count_lookup_le f (l : list Instance) i h :
  l !! i = Some h -> (Nat.b2n (f (pc h)) <= count f l)%nat.
Proof.
  revert i; induction l as [|x l IH]; intros i Hi; [discriminate|].
  rewrite count_cons. destruct i as [|i]; simpl in Hi.
  - injection Hi as ->. lia.
  - specialize (IH i Hi). lia.
Qed.

Lemma count_accepted l :
  count accepted l = (count holding l + count released l)%nat.
Proof.
  induction l as [|h l IH]; [reflexivity|].
  rewrite !count_cons, IH. unfold accepted.
  destruct (pc h) as [| | | | | | |[]]; simpl; lia.
Qed.

(** Settled instances that were not filtered out hold the lock, have
    released it, or were rejected. *)
Lemma count_settled l :
  Forall (fun h => settled (pc h) = true /\ skipped (pc h) = false) l ->
  length l = (count holding l + count released l + count rejected l)%nat.
Proof.
  induction 1 as [|h l [Hs Hk] _ IH]; [reflexivity|].
  rewrite !count_cons. simpl. rewrite IH.
  destruct (pc h) as [| | | | | | |[]]; simpl in *; try discriminate; lia.
Qed.

(** *** Invariants of the interleaving *)

Ltac segment_cases H :=
  unfold segment, Gate.tryAcquire in H;
  match type of H with
  | context [Gate.isSnipingActive ?g] => destruct (Gate.isSnipingActive g) eqn:?
  | _ => idtac
  end;
  simpl in H;
  repeat match type of H with
         | context [match ?x with _ => _ end] => destruct x eqn:?
         end;
  inversion H; subst; clear H.

(** As many instances hold the lock as the gate says (none or one); an
    instance is rejected only after one was accepted; an inactive gate
    names no target. *)
Definition Inv (s : System) : Prop :=
  count holding (handlers s) = Nat.b2n (Gate.isSnipingActive (gate s)) /\
  (1 <= count rejected (handlers s) -> 1 <= count accepted (handlers s))%nat /\
  (Gate.isSnipingActive (gate s) = false -> Gate.currentTargetToken (gate s) = None).

Lemma Inv_initial events : Inv (initial events).
Proof.
  unfold Inv, initial; simpl. repeat split; auto.
  - induction events as [|ev events IH]; [reflexivity|].
    simpl. rewrite count_cons. simpl. exact IH.
  - intros H. exfalso. revert H.
    induction events as [|ev events IH]; simpl.
    + unfold count. simpl. lia.
    + rewrite count_cons. simpl. exact IH.
Qed.

Lemma Inv_step cfg s i : Inv s -> Inv (step cfg s i).
Proof.
  intros (Hh & Hr & Ht). unfold step.
  destruct s as [[active target] l stopped]; simpl in *.
  destruct stopped; [now repeat split|].
  destruct (l !! i) as [h|] eqn:Hi; [|now repeat split].
  destruct (segment cfg (event h) (pc h) _) as [[pc' g'] ex] eqn:Hseg.
  pose proof (count_insert holding _ _ _ pc' Hi) as Ch.
  pose proof (count_insert released _ _ _ pc' Hi) as Cr.
  pose proof (count_insert rejected _ _ _ pc' Hi) as Cj.
  pose proof (count_lookup_le holding _ _ _ Hi) as Lh.
  pose proof (count_lookup_le rejected _ _ _ Hi) as Lj.
  unfold Inv; simpl. rewrite !count_accepted in *.
  set (l' := <[i := _]> l) in *.
  destruct active; destruct (pc h) eqn:Hpc; segment_cases Hseg; simpl in *;
    repeat split; try (intros; lia); try congruence; auto.
Qed.

Lemma Inv_run cfg schedule s : Inv s -> Inv (run cfg schedule s).
Proof.
  revert s; induction schedule as [|i schedule IH]; intros s H; simpl; auto.
  apply IH, Inv_step, H.
Qed.

(** The instances keep their events, and a qualifying event is never
    filtered out. *)
Definition Kept (cfg : Startup.Settings) (events : list Event) (s : System) : Prop :=
  List.map event (handlers s) = events /\
  Forall (fun h => qualifies cfg (event h) = true -> skipped (pc h) = false) (handlers s).

Lemma Kept_initial cfg events : Kept cfg events (initial events).
Proof.
  unfold Kept, initial; simpl. split.
  - rewrite List.map_map. simpl. apply List.map_id.
  - apply Forall_forall. intros h Hin.
    apply list_elem_of_In, in_map_iff in Hin as [ev [<- _]]. reflexivity.
Qed.

Lemma segment_not_skipped cfg ev p g p' g' ex :
  segment cfg ev p g = (p', g', ex) ->
  qualifies cfg ev = true -> skipped p = false -> skipped p' = false.
Proof.
  intros Hseg Hq Hs. unfold qualifies in Hq.
  apply andb_true_iff in Hq as [Hq Hi]. apply andb_true_iff in Hq as [Hw Hr].
  destruct p; segment_cases Hseg; simpl in *; try reflexivity; try discriminate;
    try congruence.
  all: try (destruct (token0IsWBNB ev), (token1IsWBNB ev); simpl in *; discriminate).
  all: match goal with
       | H : negb ?b = true, H' : ?b = true |- _ => rewrite H' in H; discriminate H
       end.
Qed.

Lemma Kept_step cfg events s i : Kept cfg events s -> Kept cfg events (step cfg s i).
Proof.
  intros [He Hf]. unfold step.
  destruct (halted s); [now split|].
  destruct (handlers s !! i) as [h|] eqn:Hi; [|now split].
  destruct (segment cfg (event h) (pc h) (gate s)) as [[pc' g'] ex] eqn:Hseg.
  split; simpl.
  - rewrite <- He. rewrite list_fmap_insert. simpl.
    apply list_insert_id. rewrite list_lookup_fmap, Hi. reflexivity.
  - apply Forall_insert; [exact Hf|]. simpl. intros Hq.
    eapply segment_not_skipped; eauto.
    eapply Forall_lookup_1 in Hf; eauto.
Qed.

Lemma Kept_run cfg events schedule s :
  Kept cfg events s -> Kept cfg events (run cfg schedule s).
Proof.
  revert s; induction schedule as [|i schedule IH]; intros s H; simpl; auto.
  apply IH, Kept_step, H.
Qed.

(** *** Mutual exclusion *)

Lemma contender_rejected cfg ev p g :
  Gate.isSnipingActive g = true -> holding p = false ->
  exists p', segment cfg ev p g = (p', g, false) /\ holding p' = false.
Proof.
  intros Ha Hp. destruct (segment cfg ev p g) as [[p' g'] ex] eqn:Hseg.
  destruct p; try discriminate; segment_cases Hseg; try congruence;
    eexists; split; reflexivity.
Qed.

(** C1. Whatever the events and however the event loop interleaves the
    segments of their handlers: at most one instance holds the lock, and
    one does exactly when the gate is active; taking the lock is a
    test-and-set, which fails on an active gate and leaves it as it is,
    and an instance that does not hold the lock and is resumed while the
    gate is active neither takes nor changes it; and once N >= 1
    qualifying events fired at a fresh gate have all been decided while
    no lock was given back, exactly one was accepted and N - 1 were
    rejected. *)
Theorem gate_mutual_exclusion (cfg : Startup.Settings) (events : list Event)
  (schedule : list nat) :
  let s := run cfg schedule (initial events) in
  (count holding (handlers s) <= 1)%nat /\
  count holding (handlers s) = Nat.b2n (Gate.isSnipingActive (gate s)) /\
  (forall token g, Gate.isSnipingActive g = true ->
     Gate.tryAcquire token g = (false, g)) /\
  (forall token g, Gate.isSnipingActive g = false ->
     Gate.tryAcquire token g =
     (true, {| Gate.isSnipingActive := true; Gate.currentTargetToken := Some token |})) /\
  (forall ev p g, Gate.isSnipingActive g = true -> holding p = false ->
     exists p', segment cfg ev p g = (p', g, false) /\ holding p' = false) /\
  (events <> [] ->
   forallb (qualifies cfg) events = true ->
   forallb (fun h => settled (pc h)) (handlers s) = true ->
   count released (handlers s) = 0%nat ->
   count accepted (handlers s) = 1%nat /\
   count rejected (handlers s) = (length events - 1)%nat).
Proof.
  intros s.
  destruct (Inv_run cfg schedule _ (Inv_initial events)) as (Hh & Hr & _).
  destruct (Kept_run cfg events schedule _ (Kept_initial cfg events)) as [He Hk].
  fold s in Hh, Hr, He, Hk.
  split; [|split; [|split; [|split; [|split]]]].
  - rewrite Hh. destruct (Gate.isSnipingActive (gate s)); simpl; lia.
  - exact Hh.
  - intros token g Hg. unfold Gate.tryAcquire. now rewrite Hg.
  - intros token g Hg. unfold Gate.tryAcquire. now rewrite Hg.
  - intros ev p g. apply contender_rejected.
  - intros Hne Hq Hs Hrel.
    assert (Hlen : length (handlers s) = length events).
    { rewrite <- He. now rewrite length_map. }
    assert (Hall : Forall (fun h => settled (pc h) = true /\ skipped (pc h) = false)
                          (handlers s)).
    { apply Forall_forall. intros h Hin. split.
      - rewrite forallb_forall in Hs. apply Hs. now apply list_elem_of_In.
      - rewrite Forall_forall in Hk. apply (Hk h Hin).
        rewrite forallb_forall in Hq. apply Hq. rewrite <- He.
        apply in_map. now apply list_elem_of_In. }
    pose proof (count_settled _ Hall) as Hsum.
    rewrite count_accepted in *.
    assert (0 < length events)%nat by (destruct events; [congruence | simpl; lia]).
    destruct (Gate.isSnipingActive (gate s)); simpl in Hh; lia.
Qed.

Definition sampleSettings : Startup.Settings :=
  {| Startup.sendBNB := "0.001";
     Startup.TOKEN_NAME_KEYWORDS := ["Moon"; "Pepe"];
     Startup.MIN_LIQUIDITY_BNB := Liquidity.Finite 1;
     Startup.SNIPER_CONTRACT_ADDRESS := "0x5FbDB2315678afecb367f032d93F642f64180aa3";
     Startup.PROVIDER_URL := Some "wss://bsc-rpc.publicnode.com";
     Startup.RPC_PROVIDER_URL := Some "https://bsc-dataseed1.binance.org";
     Startup.PRIVATE_KEY :=
       "0x4c0883a69102937d6231471b5dbb6204fe5129617082792ae468d01a3f362318" |}.

Definition sampleEvent (token name : string) : Event :=
  {| token0 := WBNB; token1 := token; pair := "0xpair";
     reserves := Some (5 * 10 ^ 18, 10 ^ 24);
     tokenInfo := Some (name, "SYM");
     swapResult := inl "0xbuy" |}.

Definition sampleEvents : list Event :=
  [sampleEvent "0xA" "Rocket"; sampleEvent "0xB" "Comet"; sampleEvent "0xC" "Star"].

(** Three qualifying events interleaved segment by segment; the second
    handler is the first to come back from its 80 ms pause. *)
Lemma gate_mutual_exclusion_witness :
  let s := run sampleSettings [0; 1; 2; 0; 1; 2; 2; 1; 0; 1; 0; 2]%nat (initial sampleEvents) in
  count accepted (handlers s) = 1%nat /\ count rejected (handlers s) = 2%nat.
Proof.
  apply (gate_mutual_exclusion sampleSettings sampleEvents
           [0; 1; 2; 0; 1; 2; 2; 1; 0; 1; 0; 2]%nat).
  - discriminate.
  - vm_compute; reflexivity.
  - vm_compute; reflexivity.
  - vm_compute; reflexivity.
Defined.

End Handler.

(** ** The sell monitor ([scheduleSellAfterBuy], [executeSell], the tick) *)

Module Monitor.

(** [BSC_RPC_ENDPOINTS] lists one endpoint. *)
Definition rpcProviders : nat := 1.

(** The answers the chain gives to the calls awaited by the monitor at
    one moment. [None] and [false] stand for a call that throws. *)
Record World : Type :=
  { receipt : option (option Z);      (* waitForTransaction: null, or the status *)
    balanceOf : option Z;
    priceReplies : nat -> nat -> ReserveOracle.ReservesReply;
    pairReserves : ReserveOracle.ReservesReply;
    allowance : option Z;
    approveSent : bool;
    approveMined : bool;
    pendingNonce : option Z;
    populated : bool;
    signed : bool;
    endpoints : list Broadcast.Endpoint }.

(** The constants of one position: the arguments of
    [scheduleSellAfterBuy] and what it reads before it starts to poll. *)
Record Position : Type :=
  { token : string;
    tokenIsToken1 : bool;
    tokenBalance : Z;
    initialPrice : Z;
    initialLiquidityBNB : Q }.

(** [(initialPrice * 105n) / 100n] *)
Definition targetPrice (pos : Position) : Z := initialPrice pos * 105 / 100.

(** The reason handed to [executeSell]. *)
Inductive Reason : Type :=
| LiquidityDrop   (* 'LIQUIDITY DROP BELOW MINIMUM - Possible rug pull' *)
| TargetHit.      (* 'TARGET HIT! Selling at +10% or more' *)

(** A sell transaction handed to [submitRawTx]. *)
Record SellTx : Type :=
  { amountIn : Z; amountOutMin : Z; nonce : Z; gasPrice : Z }.

(** Where a tick of the interval stands. The reason is carried along
    inside [executeSell] because the two call sites continue differently
    when it returns or throws; [nonce_] is the local [nonce]. *)
Inductive TickPc : Type :=
| AwaitLiquidityReserves
| AwaitPrice
| AwaitAllowance (why : Reason)
| AwaitApprove (why : Reason)
| AwaitApproveMined (why : Reason)
| AwaitNonce (why : Reason)
| AwaitPopulate (why : Reason) (nonce_ : Z)
| AwaitSign (why : Reason) (nonce_ : Z)
| AwaitBroadcast (why : Reason)
| TickDone
| TickRejected.   (* the callback's promise is rejected; nothing handles it *)

(** The variables the ticks share, with a record of what was done. *)
Record Monitor : Type :=
  { gate : Gate.State;
    currentNonce : Z;
    sold : bool;
    intervalActive : bool;
    highestPriceSeen : Z;
    sellReasons : list Reason;                 (* one per run of [executeSell] *)
    approvals : list Approval.ApproveCall;
    broadcasts : list SellTx;                  (* one per call of [submitRawTx] *)
    ticks : list TickPc }.

Definition setTicks (m : Monitor) (t : list TickPc) : Monitor :=
  {| gate := gate m; currentNonce := currentNonce m; sold := sold m;
     intervalActive := intervalActive m; highestPriceSeen := highestPriceSeen m;
     sellReasons := sellReasons m; approvals := approvals m;
     broadcasts := broadcasts m; ticks := t |}.

(** *** [scheduleSellAfterBuy] up to [setInterval] *)

Inductive Entry : Type :=
| Started (pos : Position) (m : Monitor)   (* polling; the gate stays locked *)
| Ended (g : Gate.State)                   (* returned early *)
| Crashed.                                 (* the promise is rejected *)

Definition scheduleSellAfterBuy (cfg : Startup.Settings) (token_ : string)
  (tokenIsToken1_ : bool) (w : World) (g : Gate.State) (nonce_ : Z) : Entry :=
  match receipt w with
  | None => Crashed
  | Some None => Ended Gate.unlock
  | Some (Some status) =>
      if negb (status =? 1) then Ended Gate.unlock
      else
        match balanceOf w with
        | None => Crashed
        | Some balance =>
            if balance <=? 0 then Ended Gate.unlock
            else
              let price :=
                ReserveOracle.getCurrentPriceFromReservesSafe
                  rpcProviders (priceReplies w) tokenIsToken1_ in
              if price =? 0 then Ended Gate.unlock
              else
                let liquidity :=
                  if Liquidity.positive (Startup.MIN_LIQUIDITY_BNB cfg) then
                    match pairReserves w with
                    | Some (r0, r1) =>
                        Liquidity.totalLiquidityBNB (if tokenIsToken1_ then r0 else r1)
                    | None => 0%Q
                    end
                  else 0%Q in
                Started
                  {| token := token_; tokenIsToken1 := tokenIsToken1_;
                     tokenBalance := balance; initialPrice := price;
                     initialLiquidityBNB := liquidity |}
                  {| gate := g; currentNonce := nonce_; sold := false;
                     intervalActive := true; highestPriceSeen := price;
                     sellReasons := []; approvals := []; broadcasts := [];
                     ticks := [] |}
        end
  end.

(** The call in the handler, with its [.catch] that unlocks: the gate
    afterwards and the monitor that was started, if any. *)
Definition startSellMonitor (cfg : Startup.Settings) (token_ : string)
  (tokenIsToken1_ : bool) (w : World) (g : Gate.State) (nonce_ : Z)
  : Gate.State * option (Position * Monitor) :=
  match scheduleSellAfterBuy cfg token_ tokenIsToken1_ w g nonce_ with
  | Started pos m => (gate m, Some (pos, m))
  | Ended g' => (g', None)
  | Crashed => (Gate.unlock, None)
  end.

(** *** [executeSell] *)

(** The synchronous head of [executeSell(reason)]: [None] when the
    position is sold already, else the variables after
    [clearInterval(interval); sold = true] and the log line. *)
Definition executeSell_enter (why : Reason) (m : Monitor) : option Monitor :=
  if sold m then None
  else Some {| gate := gate m; currentNonce := currentNonce m; sold := true;
               intervalActive := false; highestPriceSeen := highestPriceSeen m;
               sellReasons := why :: sellReasons m; approvals := approvals m;
               broadcasts := broadcasts m; ticks := ticks m |}.

(** A call of [executeSell] from the tick: it returns at once, or it
    suspends at the allowance read of [approveToken]. *)
Definition callExecuteSell (why : Reason) (m : Monitor) : TickPc * Monitor :=
  match executeSell_enter why m with
  | None => (TickDone, m)
  | Some m' => (AwaitAllowance why, m')
  end.

(** The [catch] block of [executeSell], and its normal end: both unlock. *)
Definition sellFailed (m : Monitor) : TickPc * Monitor :=
  (TickDone,
   {| gate := Gate.unlock; currentNonce := currentNonce m; sold := true;
      intervalActive := intervalActive m; highestPriceSeen := highestPriceSeen m;
      sellReasons := sellReasons m; approvals := approvals m;
      broadcasts := broadcasts m; ticks := ticks m |}).

Definition sellSucceeded (m : Monitor) : TickPc * Monitor :=
  (TickDone,
   {| gate := Gate.unlock; currentNonce := currentNonce m + 1; sold := sold m;
      intervalActive := intervalActive m; highestPriceSeen := highestPriceSeen m;
      sellReasons := sellReasons m; approvals := approvals m;
      broadcasts := broadcasts m; ticks := ticks m |}).

(** [approveToken] throws, outside the [try] of [executeSell]: the call
    in the liquidity check sits in that check's [try], whose [catch]
    goes on to the price; the call of the profit check rejects the tick. *)
Definition sellThrows (why : Reason) (m : Monitor) : TickPc * Monitor :=
  match why with
  | LiquidityDrop => (AwaitPrice, m)
  | TargetHit => (TickRejected, m)
  end.

(** *** The tick *)

(** The interval callback up to its first [await]. *)
Definition tickStart (cfg : Startup.Settings) (pos : Position) (m : Monitor) : TickPc :=
  if sold m then TickDone
  else if Liquidity.positive (Startup.MIN_LIQUIDITY_BNB cfg)
          && Liquidity.Qltb 0 (initialLiquidityBNB pos)
       then AwaitLiquidityReserves
       else AwaitPrice.

(** The segment run when the call a tick awaits answers. *)
Definition tickSegment (cfg : Startup.Settings) (pos : Position) (w : World)
  (pc : TickPc) (m : Monitor) : TickPc * Monitor :=
  match pc with
  | AwaitLiquidityReserves =>
      match pairReserves w with
      | Some (r0, r1) =>
          let wbnbReserve := if tokenIsToken1 pos then r0 else r1 in
          if Liquidity.below (Liquidity.totalLiquidityBNB wbnbReserve)
                             (Startup.MIN_LIQUIDITY_BNB cfg)
          then callExecuteSell LiquidityDrop m
          else (AwaitPrice, m)
      | None => (AwaitPrice, m)
      end
  | AwaitPrice =>
      let currentPrice :=
        ReserveOracle.getCurrentPriceFromReservesSafe
          rpcProviders (priceReplies w) (tokenIsToken1 pos) in
      if currentPrice =? 0 then (TickDone, m)
      else
        let m1 :=
          if currentPrice >? highestPriceSeen m
          then {| gate := gate m; currentNonce := currentNonce m; sold := sold m;
                  intervalActive := intervalActive m; highestPriceSeen := currentPrice;
                  sellReasons := sellReasons m; approvals := approvals m;
                  broadcasts := broadcasts m; ticks := ticks m |}
          else m in
        if currentPrice >=? targetPrice pos then callExecuteSell TargetHit m1
        else (TickDone, m1)
  | AwaitAllowance why =>
      match allowance w with
      | None => sellThrows why m
      | Some allowed =>
          if Approval.alreadyApproved allowed (tokenBalance pos) then (AwaitNonce why, m)
          else
            (AwaitApprove why,
             {| gate := gate m; currentNonce := currentNonce m; sold := sold m;
                intervalActive := intervalActive m; highestPriceSeen := highestPriceSeen m;
                sellReasons := sellReasons m;
                approvals := {| Approval.spender := Approval.ROUTER;
                                Approval.amount := Approval.MaxUint256 |} :: approvals m;
                broadcasts := broadcasts m; ticks := ticks m |})
      end
  | AwaitApprove why =>
      if approveSent w then (AwaitApproveMined why, m) else sellThrows why m
  | AwaitApproveMined why =>
      if approveMined w then (AwaitNonce why, m) else sellThrows why m
  | AwaitNonce why =>
      match pendingNonce w with
      | Some n =>
          (AwaitPopulate why n,
           {| gate := gate m; currentNonce := n; sold := sold m;
              intervalActive := intervalActive m; highestPriceSeen := highestPriceSeen m;
              sellReasons := sellReasons m; approvals := approvals m;
              broadcasts := broadcasts m; ticks := ticks m |})
      | None => sellFailed m
      end
  | AwaitPopulate why nonce_ =>
      if populated w then (AwaitSign why nonce_, m) else sellFailed m
  | AwaitSign why nonce_ =>
      if signed w then
        (AwaitBroadcast why,
         {| gate := gate m; currentNonce := currentNonce m; sold := sold m;
            intervalActive := intervalActive m; highestPriceSeen := highestPriceSeen m;
            sellReasons := sellReasons m; approvals := approvals m;
            broadcasts := {| amountIn := tokenBalance pos; amountOutMin := 0;
                             nonce := nonce_;
                             gasPrice := GasPrice.gwei_0_05 |} :: broadcasts m;
            ticks := ticks m |})
      else sellFailed m
  | AwaitBroadcast why =>
      match snd (Broadcast.submitRawTx (endpoints w) 5000) with
      | inl sellTxHash => sellSucceeded m
      | inr _ => sellFailed m
      end
  | TickDone => (TickDone, m)
  | TickRejected => (TickRejected, m)
  end.

(** What the event loop does next: the interval fires, or the call
    awaited by tick [i] answers as the world [w] has it. *)
Inductive Action : Type :=
| Fire
| Resume (i : nat) (w : World).

Definition step (cfg : Startup.Settings) (pos : Position) (m : Monitor) (a : Action)
  : Monitor :=
  match a with
  | Fire =>
      if intervalActive m
      then setTicks m (ticks m ++ [tickStart cfg pos m])
      else m
  | Resume i w =>
      match ticks m !! i with
      | None => m
      | Some pc =>
          match tickSegment cfg pos w pc m with
          | (pc', m') => setTicks m' (<[i := pc']> (ticks m'))
          end
      end
  end.

Definition run (cfg : Startup.Settings) (pos : Position) (actions : list Action)
  (m : Monitor) : Monitor :=
  fold_left (step cfg pos) actions m.

(** *** At most one sell *)

(** The tick is inside [executeSell], before the call of [submitRawTx]. *)
Definition inSell (pc : TickPc) : bool :=
  match pc with
  | AwaitAllowance _ | AwaitApprove _ | AwaitApproveMined _
  | AwaitNonce _ | AwaitPopulate _ _ | AwaitSign _ _ => true
  | _ => false
  end.

(** The tick awaits the answer of [submitRawTx]. *)
Definition broadcasting (pc : TickPc) : bool :=
  match pc with AwaitBroadcast _ => true | _ => false end.

Definition countPc (f : TickPc -> bool) (l : list TickPc) : nat :=
  length (List.filter f l).

Lemma countPc_cons f pc l :
  countPc f (pc :: l) = (Nat.b2n (f pc) + countPc f l)%nat.
Proof. unfold countPc. simpl. destruct (f pc); reflexivity. Qed.

Lemma countPc_app f l1 l2 :
  countPc f (l1 ++ l2) = (countPc f l1 + countPc f l2)%nat.
Proof. unfold countPc. now rewrite List.filter_app, length_app. Qed.

Lemma countPc_insert f (l : list TickPc) i pc pc' :
  l !! i = Some pc ->
  (countPc f (<[i := pc']> l) + Nat.b2n (f pc)
   = countPc f l + Nat.b2n (f pc'))%nat.
Proof.
  revert i; induction l as [|x l IH]; intros i Hi; [discriminate|].
  destruct i as [|i]; simpl in Hi.
  - injection Hi as ->. simpl. rewrite !countPc_cons. lia.
  - simpl. rewrite !countPc_cons. specialize (IH i Hi). lia.
Qed.

Lemma countPc_lookup_le f (l : list TickPc) i pc :
  l !! i = Some pc -> (Nat.b2n (f pc) <= countPc f l)%nat.
Proof.
  revert i; induction l as [|x l IH]; intros i Hi; [discriminate|].
  rewrite countPc_cons. destruct i as [|i]; simpl in Hi.
  - injection Hi as ->. lia.
  - specialize (IH i Hi). lia.
Qed.

(** The ticks inside [executeSell] before the broadcast and the
    broadcasts made are one at most together, and none while the position
    is not sold; a tick awaits a broadcast only if one was made; a sold
    position has its interval cleared. *)
Definition SellInv (m : Monitor) : Prop :=
  (countPc inSell (ticks m) + length (broadcasts m) <= Nat.b2n (sold m))%nat /\
  (countPc broadcasting (ticks m) <= length (broadcasts m))%nat /\
  (sold m = true -> intervalActive m = false).

Ltac tick_cases H :=
  unfold tickSegment, callExecuteSell, executeSell_enter, sellThrows,
    sellFailed, sellSucceeded in H;
  simpl in H;
  repeat match type of H with
         | context [match ?x with _ => _ end] =>
             lazymatch x with
             | context [match _ with _ => _ end] => fail
             | _ => destruct x eqn:?
             end
         end;
  simpl in H; inversion H; subst; clear H.

(** One segment, with [k] other ticks inside [executeSell] and [j]
    others awaiting a broadcast. *)
Lemma tickSegment_SellInv cfg pos w pc m pc' m' (k j : nat) :
  tickSegment cfg pos w pc m = (pc', m') ->
  (k + Nat.b2n (inSell pc) + length (broadcasts m) <= Nat.b2n (sold m))%nat ->
  (j + Nat.b2n (broadcasting pc) <= length (broadcasts m))%nat ->
  (sold m = true -> intervalActive m = false) ->
  ticks m' = ticks m /\
  (k + Nat.b2n (inSell pc') + length (broadcasts m') <= Nat.b2n (sold m'))%nat /\
  (j + Nat.b2n (broadcasting pc') <= length (broadcasts m'))%nat /\
  (sold m' = true -> intervalActive m' = false).
Proof.
  intros Hseg Hc Hb Hi.
  destruct m as [g n s ia hp rs ap bc tk]; simpl in *.
  destruct s; [specialize (Hi eq_refl); subst ia|];
    destruct pc; tick_cases Hseg; simpl in *;
    repeat split; try lia; try congruence; auto.
Qed.

Lemma SellInv_step cfg pos m a : SellInv m -> SellInv (step cfg pos m a).
Proof.
  intros (Hc & Hb & Hi). destruct a as [|i w]; unfold step.
  - destruct (intervalActive m) eqn:Ha; [|now repeat split].
    assert (Hs : sold m = false).
    { destruct (sold m); [specialize (Hi eq_refl); congruence | reflexivity]. }
    unfold SellInv; simpl. rewrite !countPc_app. unfold tickStart. rewrite Hs in *.
    destruct (_ && _); rewrite !countPc_cons; simpl in *;
      change (countPc inSell []) with 0%nat;
      change (countPc broadcasting []) with 0%nat;
      repeat split; try lia; congruence.
  - destruct (ticks m !! i) as [pc|] eqn:Hl; [|now repeat split].
    destruct (tickSegment cfg pos w pc m) as [pc' m'] eqn:Hseg.
    pose proof (countPc_lookup_le inSell _ _ _ Hl) as Hle.
    pose proof (countPc_insert inSell _ _ _ pc' Hl) as Hins.
    pose proof (countPc_lookup_le broadcasting _ _ _ Hl) as Hle'.
    pose proof (countPc_insert broadcasting _ _ _ pc' Hl) as Hins'.
    destruct (tickSegment_SellInv _ _ _ _ _ _ _
                (countPc inSell (ticks m) - Nat.b2n (inSell pc))
                (countPc broadcasting (ticks m) - Nat.b2n (broadcasting pc))
                Hseg ltac:(lia) ltac:(lia) Hi) as (Ht & Hc' & Hb' & Hi').
    unfold SellInv; simpl. rewrite Ht. repeat split; try lia. exact Hi'.
Qed.

Lemma SellInv_run cfg pos actions m : SellInv m -> SellInv (run cfg pos actions m).
Proof.
  revert m; induction actions as [|a actions IH]; intros m H; simpl; auto.
  apply IH, SellInv_step, H.
Qed.

Lemma SellInv_started cfg token_ t w g n pos m :
  scheduleSellAfterBuy cfg token_ t w g n = Started pos m -> SellInv m.
Proof.
  unfold scheduleSellAfterBuy. intros H.
  repeat match type of H with
         | context [match ?x with _ => _ end] => destruct x eqn:?
         end; try discriminate;
    injection H as <- <-; repeat split; simpl; auto; discriminate.
Qed.

(** C3. From the start of the polling on, whatever the interval fires and
    however the segments of overlapping ticks interleave, [submitRawTx] is
    called once at most; entering [executeSell] happens only on an unsold
    position, and sets [sold] and clears the interval before anything is
    awaited and before any broadcast; a later entry returns at once, and
    a cleared interval fires no tick. *)
Theorem at_most_one_sell (cfg : Startup.Settings) (token_ : string) (t : bool)
  (w0 : World) (g : Gate.State) (n : Z) (pos : Position) (m : Monitor)
  (actions : list Action) :
  scheduleSellAfterBuy cfg token_ t w0 g n = Started pos m ->
  (length (broadcasts (run cfg pos actions m)) <= 1)%nat /\
  (forall why m1 m2, executeSell_enter why m1 = Some m2 ->
     sold m1 = false /\ sold m2 = true /\ intervalActive m2 = false /\
     broadcasts m2 = broadcasts m1) /\
  (forall why m1, sold m1 = true -> callExecuteSell why m1 = (TickDone, m1)) /\
  (forall m1, intervalActive m1 = false -> step cfg pos m1 Fire = m1).
Proof.
  intros Hstart. split; [|split; [|split]].
  - destruct (SellInv_run cfg pos actions m (SellInv_started _ _ _ _ _ _ _ _ Hstart))
      as (Hc & _ & _).
    destruct (sold (run cfg pos actions m)); simpl in Hc; lia.
  - intros why m1 m2 H. unfold executeSell_enter in H.
    destruct (sold m1); [discriminate|]. injection H as <-. now repeat split.
  - intros why m1 H. unfold callExecuteSell, executeSell_enter. now rewrite H.
  - intros m1 H. simpl. now rewrite H.
Qed.

(** *** Sample worlds *)

(** The pool as it was funded: 10 BNB against 1000 tokens. *)
Definition calm : World :=
  {| receipt := Some (Some 1);
     balanceOf := Some (1000 * 10 ^ 18);
     priceReplies := fun _ _ => Some (10 * 10 ^ 18, 1000 * 10 ^ 18);
     pairReserves := Some (10 * 10 ^ 18, 1000 * 10 ^ 18);
     allowance := Some 0;
     approveSent := true;
     approveMined := true;
     pendingNonce := Some 8;
     populated := true;
     signed := true;
     endpoints := [ {| Broadcast.respondsAt := 50; Broadcast.reply := Broadcast.Accepted "0x5e11" |} ] |}.

(** The price has doubled. *)
Definition pumped : World :=
  {| receipt := receipt calm; balanceOf := balanceOf calm;
     priceReplies := fun _ _ => Some (20 * 10 ^ 18, 1000 * 10 ^ 18);
     pairReserves := Some (20 * 10 ^ 18, 1000 * 10 ^ 18);
     allowance := allowance calm; approveSent := true; approveMined := true;
     pendingNonce := pendingNonce calm; populated := true; signed := true;
     endpoints := endpoints calm |}.

(** The pool is drained to 0.1 BNB against one token, and the token's
    [allowance] call reverts. *)
Definition rugged : World :=
  {| receipt := receipt calm; balanceOf := balanceOf calm;
     priceReplies := fun _ _ => Some (10 ^ 17, 10 ^ 18);
     pairReserves := Some (10 ^ 17, 10 ^ 18);
     allowance := None; approveSent := false; approveMined := false;
     pendingNonce := pendingNonce calm; populated := true; signed := true;
     endpoints := endpoints calm |}.

Definition samplePosition : Position :=
  {| token := "0xA"; tokenIsToken1 := true; tokenBalance := 1000 * 10 ^ 18;
     initialPrice := 10 ^ 22; initialLiquidityBNB := Liquidity.totalLiquidityBNB (10 * 10 ^ 18) |}.

Definition sampleMonitor : Monitor :=
  {| gate := Gate.lock "0xA"; currentNonce := 8; sold := false;
     intervalActive := true; highestPriceSeen := 10 ^ 22;
     sellReasons := []; approvals := []; broadcasts := []; ticks := [] |}.

Lemma sample_started :
  scheduleSellAfterBuy Handler.sampleSettings "0xA" true calm (Gate.lock "0xA") 8
  = Started samplePosition sampleMonitor.
Proof. vm_compute. reflexivity. Qed.

(** Two ticks in flight at once; the first enters [executeSell] and goes
    through the approval, the other finds the position sold. *)
Definition overlappingTicks : list Action :=
  [Fire; Fire; Resume 0 pumped; Resume 1 pumped; Resume 0 pumped; Fire;
   Resume 1 pumped; Resume 0 pumped; Resume 0 pumped; Resume 0 pumped;
   Resume 0 pumped; Resume 0 pumped; Resume 0 pumped; Resume 0 pumped].

Lemma at_most_one_sell_witness :
  (length (broadcasts (run Handler.sampleSettings samplePosition overlappingTicks
                         sampleMonitor)) <= 1)%nat.
Proof.
  apply (at_most_one_sell Handler.sampleSettings "0xA" true calm (Gate.lock "0xA") 8
           samplePosition sampleMonitor overlappingTicks).
  vm_compute. reflexivity.
Defined.

Example overlappingTicks_sell_once :
  let m := run Handler.sampleSettings samplePosition overlappingTicks sampleMonitor in
  broadcasts m = [ {| amountIn := 1000 * 10 ^ 18; amountOutMin := 0; nonce := 8;
                      gasPrice := 50000000 |} ] /\
  sellReasons m = [TargetHit] /\
  ticks m = [TickDone; TickDone] /\
  gate m = Gate.unlock /\ currentNonce m = 9.
Proof. vm_compute. repeat split; reflexivity. Qed.

(** *** The reason of the sell *)

Lemma tickSegment_sold cfg pos w pc m pc' m' :
  tickSegment cfg pos w pc m = (pc', m') -> sold m = true ->
  sold m' = true /\ sellReasons m' = sellReasons m.
Proof.
  intros Hseg Hs. destruct m as [g n s ia hp rs ap bc tk]; simpl in *. subst s.
  destruct pc; tick_cases Hseg; simpl in *; try discriminate; split; reflexivity.
Qed.

Lemma step_sold cfg pos m a :
  sold m = true ->
  sold (step cfg pos m a) = true /\ sellReasons (step cfg pos m a) = sellReasons m.
Proof.
  intros Hs. destruct a as [|i w]; unfold step.
  - destruct (intervalActive m); simpl; auto.
  - destruct (ticks m !! i) as [pc|]; [|auto].
    destruct (tickSegment cfg pos w pc m) as [pc' m'] eqn:Hseg. simpl.
    eapply tickSegment_sold; eauto.
Qed.

Lemma run_sold cfg pos actions m :
  sold m = true -> sellReasons (run cfg pos actions m) = sellReasons m.
Proof.
  revert m; induction actions as [|a actions IH]; intros m Hs; simpl; [reflexivity|].
  destruct (step_sold cfg pos m a Hs) as [Hs' Hr]. now rewrite IH.
Qed.

(** *** The approval made by the sell path *)

(** The approval segment of the sell path makes the [approve] calls of
    [approveToken(token, tokenBalance)]. *)
Lemma sell_path_approval cfg pos w why m pc' m' :
  tickSegment cfg pos w (AwaitAllowance why) m = (pc', m') ->
  approvals m' =
  (fst (Approval.approveToken (tokenBalance pos)
          {| Approval.allowanceReply := allowance w;
             Approval.approveSent := approveSent w;
             Approval.approveMined := approveMined w |})
   ++ approvals m)%list.
Proof.
  unfold tickSegment, Approval.approveToken; simpl.
  destruct (allowance w) as [allowed|].
  - destruct (Approval.alreadyApproved allowed (tokenBalance pos)).
    + now intros [= <- <-].
    + intros [= <- <-]. simpl.
      destruct (approveSent w && approveMined w); reflexivity.
  - destruct why; now intros [= <- <-].
Qed.

(** *** The ways a position ends *)

Definition ended (pc : TickPc) : bool :=
  match pc with TickDone | TickRejected => true | _ => false end.

(** Inside the [try] block of [executeSell]. *)
Definition inTry (pc : TickPc) : bool :=
  match pc with
  | AwaitNonce _ | AwaitPopulate _ _ | AwaitSign _ _ | AwaitBroadcast _ => true
  | _ => false
  end.

(** A monitor that does not start leaves the gate unlocked: the early
    returns unlock, and so does the [.catch] of the handler. *)
Lemma entry_releases cfg token_ t w g n g' :
  startSellMonitor cfg token_ t w g n = (g', None) -> g' = Gate.unlock.
Proof.
  unfold startSellMonitor.
  destruct (scheduleSellAfterBuy cfg token_ t w g n) as [pos m|g0|] eqn:He;
    [discriminate| |now intros [= <-]].
  intros [= <-]. unfold scheduleSellAfterBuy in He.
  repeat match type of He with
         | context [match ?x with _ => _ end] => destruct x eqn:?
         end; congruence.
Qed.

(** A sell that ends inside the [try] block, by success or through the
    [catch], unlocks the gate. *)
Lemma sell_end_releases cfg pos w pc m pc' m' :
  tickSegment cfg pos w pc m = (pc', m') ->
  inTry pc = true -> ended pc' = true -> gate m' = Gate.unlock.
Proof.
  intros Hseg Hin Hend.
  destruct pc; try discriminate; tick_cases Hseg; simpl in *;
    try discriminate; reflexivity.
Qed.

(** Once the interval is cleared and every tick has ended, nothing
    happens to the monitor any more. *)
Lemma quiescent_step cfg pos m a :
  intervalActive m = false ->
  Forall (fun pc => ended pc = true) (ticks m) ->
  step cfg pos m a = m.
Proof.
  intros Hi Hall. destruct a as [|i w]; unfold step; [now rewrite Hi|].
  destruct (ticks m !! i) as [pc|] eqn:Hl; [|reflexivity].
  assert (Hpc : ended pc = true) by (eapply Forall_lookup_1 in Hall; eauto).
  destruct pc; try discriminate; simpl;
    destruct m; unfold setTicks; simpl in *; f_equal; now apply list_insert_id.
Qed.

Lemma quiescent_run cfg pos actions m :
  intervalActive m = false ->
  Forall (fun pc => ended pc = true) (ticks m) ->
  run cfg pos actions m = m.
Proof.
  intros Hi Hall. induction actions as [|a actions IH]; simpl; [reflexivity|].
  now rewrite quiescent_step.
Qed.

(** The price is up and the token's [allowance] call reverts. *)
Definition reverting : World :=
  {| receipt := receipt calm; balanceOf := balanceOf calm;
     priceReplies := priceReplies pumped; pairReserves := pairReserves pumped;
     allowance := None; approveSent := false; approveMined := false;
     pendingNonce := pendingNonce calm; populated := true; signed := true;
     endpoints := endpoints calm |}.

Lemma stuck_on_liquidity_path :
  run Handler.sampleSettings samplePosition
    [Fire; Resume 0 rugged; Resume 0 rugged; Resume 0 rugged] sampleMonitor
  = {| gate := Gate.lock "0xA"; currentNonce := 8; sold := true;
       intervalActive := false; highestPriceSeen := 10 ^ 23;
       sellReasons := [LiquidityDrop]; approvals := []; broadcasts := [];
       ticks := [TickDone] |}.
Proof. vm_compute. reflexivity. Qed.

Lemma stuck_on_profit_path :
  run Handler.sampleSettings samplePosition
    [Fire; Resume 0 calm; Resume 0 reverting; Resume 0 reverting] sampleMonitor
  = {| gate := Gate.lock "0xA"; currentNonce := 8; sold := true;
       intervalActive := false; highestPriceSeen := 2 * 10 ^ 22;
       sellReasons := [TargetHit]; approvals := []; broadcasts := [];
       ticks := [TickRejected] |}.
Proof. vm_compute. reflexivity. Qed.

(** *** The liquidity drop *)

Lemma resume_step cfg pos m i w pc pc' m1 :
  ticks m !! i = Some pc ->
  tickSegment cfg pos w pc m = (pc', m1) ->
  step cfg pos m (Resume i w) = setTicks m1 (<[i := pc']> (ticks m1)).
Proof. intros Hi Hseg. unfold step. now rewrite Hi, Hseg. Qed.

Ltac unfolded :=
  try unfold callExecuteSell, executeSell_enter;
  try unfold sellSucceeded;
  try unfold sellFailed;
  cbn [tickSegment setTicks ticks sold gate currentNonce intervalActive
       highestPriceSeen sellReasons approvals broadcasts].

(** The innermost step of a run is replaced by the state it gives;
    [tac] settles what the awaited call answers. *)
Ltac resume Hi Hlt tac :=
  match goal with
  | |- context [step ?c ?p ?st (Resume ?i ?w)] =>
      lazymatch st with
      | context [step] => fail
      | _ =>
          erewrite (resume_step c p st i w);
          [ | unfolded;
              first [ exact Hi
                    | apply list_lookup_insert_eq; rewrite ?length_insert; exact Hlt ]
            | unfolded; tac; unfolded; reflexivity ]
      end
  end;
  unfolded.

(** The tick that finds the liquidity below the minimum, run to its end
    in a world where the approval and the calls that build the sell
    answer. *)
Definition liquidityTick (i : nat) (w : World) : list Action :=
  [Resume i w; Resume i w; Resume i w; Resume i w;
   Resume i w; Resume i w; Resume i w; Resume i w].

Lemma liquidity_drop_sells (cfg : Startup.Settings) (pos : Position) (m : Monitor)
  (i : nat) (w : World) (r0 r1 allowed n : Z) :
  sold m = false ->
  ticks m !! i = Some AwaitLiquidityReserves ->
  pairReserves w = Some (r0, r1) ->
  Liquidity.below (Liquidity.totalLiquidityBNB (if tokenIsToken1 pos then r0 else r1))
                  (Startup.MIN_LIQUIDITY_BNB cfg) = true ->
  allowance w = Some allowed -> approveSent w = true -> approveMined w = true ->
  pendingNonce w = Some n -> populated w = true -> signed w = true ->
  let m' := run cfg pos (liquidityTick i w) m in
  ticks m' = <[i := TickDone]> (ticks m) /\
  sold m' = true /\ intervalActive m' = false /\
  sellReasons m' = LiquidityDrop :: sellReasons m /\
  broadcasts m' = {| amountIn := tokenBalance pos; amountOutMin := 0; nonce := n;
                     gasPrice := GasPrice.gwei_0_05 |} :: broadcasts m /\
  highestPriceSeen m' = highestPriceSeen m /\
  gate m' = Gate.unlock.
Proof.
  intros Hs Hi Hres Hdrop Hal Hsent Hmined Hn Hpop Hsig.
  assert (Hlt : (i < length (ticks m))%nat) by (now apply lookup_lt_Some in Hi).
  unfold liquidityTick, run. cbn [fold_left].
  resume Hi Hlt ltac:(rewrite Hres, Hdrop; unfolded; rewrite Hs).
  destruct (Approval.alreadyApproved allowed (tokenBalance pos)) eqn:Hap.
  - resume Hi Hlt ltac:(rewrite Hal, Hap).
    resume Hi Hlt ltac:(rewrite Hn).
    resume Hi Hlt ltac:(rewrite Hpop).
    resume Hi Hlt ltac:(rewrite Hsig).
    destruct (snd (Broadcast.submitRawTx (endpoints w) 5000)) eqn:Hb.
    + resume Hi Hlt ltac:(rewrite Hb).
      resume Hi Hlt idtac. resume Hi Hlt idtac.
      rewrite !list_insert_insert_eq. repeat split; reflexivity.
    + resume Hi Hlt ltac:(rewrite Hb).
      resume Hi Hlt idtac. resume Hi Hlt idtac.
      rewrite !list_insert_insert_eq. repeat split; reflexivity.
  - resume Hi Hlt ltac:(rewrite Hal, Hap).
    resume Hi Hlt ltac:(rewrite Hsent).
    resume Hi Hlt ltac:(rewrite Hmined).
    resume Hi Hlt ltac:(rewrite Hn).
    resume Hi Hlt ltac:(rewrite Hpop).
    resume Hi Hlt ltac:(rewrite Hsig).
    destruct (snd (Broadcast.submitRawTx (endpoints w) 5000)) eqn:Hb.
    + resume Hi Hlt ltac:(rewrite Hb).
      rewrite !list_insert_insert_eq. repeat split; reflexivity.
    + resume Hi Hlt ltac:(rewrite Hb).
      rewrite !list_insert_insert_eq. repeat split; reflexivity.
Qed.

(** C5, on the code. A tick of an unsold position reads the liquidity
    before the price when the check is configured and the initial
    liquidity known. When the read is below the minimum and the calls of
    the sell path answer, the tick sells the whole balance citing the
    liquidity drop and ends without reading the price: the peak is
    untouched and no run adds the profit reason. When the allowance read
    of [approveToken] throws, the sell is lost: with the liquidity at 0.2
    BNB under a minimum of 1 and the price at ten times the entry price,
    the tick cites the liquidity drop, the [catch] of the liquidity check
    swallows the error of [executeSell], the tick goes on to the profit
    logic, reads the price and raises the peak, and ends; nothing was
    handed to the broadcaster, and nothing ever is. *)
Theorem liquidity_drop_sell_lost_when_approval_throws :
  (forall (cfg : Startup.Settings) (pos : Position) (m : Monitor),
      sold m = false ->
      Liquidity.positive (Startup.MIN_LIQUIDITY_BNB cfg) = true ->
      (0 < initialLiquidityBNB pos)%Q ->
      tickStart cfg pos m = AwaitLiquidityReserves) /\
  (forall (cfg : Startup.Settings) (pos : Position) (m : Monitor) (i : nat) (w : World)
          (r0 r1 allowed n : Z),
      sold m = false ->
      ticks m !! i = Some AwaitLiquidityReserves ->
      pairReserves w = Some (r0, r1) ->
      Liquidity.below (Liquidity.totalLiquidityBNB (if tokenIsToken1 pos then r0 else r1))
                      (Startup.MIN_LIQUIDITY_BNB cfg) = true ->
      allowance w = Some allowed -> approveSent w = true -> approveMined w = true ->
      pendingNonce w = Some n -> populated w = true -> signed w = true ->
      let m' := run cfg pos (liquidityTick i w) m in
      ticks m' !! i = Some TickDone /\
      sellReasons m' = LiquidityDrop :: sellReasons m /\
      broadcasts m' = {| amountIn := tokenBalance pos; amountOutMin := 0; nonce := n;
                         gasPrice := 50000000 |} :: broadcasts m /\
      highestPriceSeen m' = highestPriceSeen m /\
      gate m' = Gate.unlock /\
      forall actions,
        sellReasons (run cfg pos actions m') = LiquidityDrop :: sellReasons m) /\
  (let cfg := Handler.sampleSettings in
   let pos := samplePosition in
   scheduleSellAfterBuy cfg "0xA" true calm (Gate.lock "0xA") 8
   = Started pos sampleMonitor /\
   pairReserves rugged = Some (10 ^ 17, 10 ^ 18) /\
   Liquidity.below (Liquidity.totalLiquidityBNB (10 ^ 17))
                   (Startup.MIN_LIQUIDITY_BNB cfg) = true /\
   targetPrice pos <=
     ReserveOracle.getCurrentPriceFromReservesSafe rpcProviders (priceReplies rugged) true /\
   allowance rugged = None /\
   (let m := run cfg pos [Fire; Resume 0 rugged; Resume 0 rugged] sampleMonitor in
    ticks m = [AwaitPrice] /\ sellReasons m = [LiquidityDrop] /\
    highestPriceSeen m = 10 ^ 22) /\
   (let m := run cfg pos [Fire; Resume 0 rugged; Resume 0 rugged; Resume 0 rugged]
               sampleMonitor in
    ticks m = [TickDone] /\ sold m = true /\ intervalActive m = false /\
    sellReasons m = [LiquidityDrop] /\ highestPriceSeen m = 10 ^ 23 /\
    broadcasts m = [] /\
    forall actions, broadcasts (run cfg pos actions m) = [])).
Proof.
  split; [|split].
  - intros cfg pos m Hs Hmin Hinit. apply Liquidity.Qltb_lt in Hinit.
    unfold tickStart. now rewrite Hs, Hmin, Hinit.
  - intros cfg pos m i w r0 r1 allowed n Hs Hi Hres Hdrop Hal Hsent Hmined Hn Hpop Hsig m'.
    destruct (liquidity_drop_sells cfg pos m i w r0 r1 allowed n
                Hs Hi Hres Hdrop Hal Hsent Hmined Hn Hpop Hsig)
      as (Ht & Hsold & _ & Hr & Hb & Hp & Hg).
    fold m' in Ht, Hsold, Hr, Hb, Hp, Hg.
    split; [|split; [exact Hr|split; [exact Hb|split; [exact Hp|split; [exact Hg|]]]]].
    + rewrite Ht. apply list_lookup_insert_eq. now apply lookup_lt_Some in Hi.
    + intros actions. rewrite run_sold by exact Hsold. exact Hr.
  - cbv zeta. split; [exact sample_started|].
    split; [reflexivity|]. split; [vm_compute; reflexivity|].
    split; [vm_compute; discriminate|]. split; [reflexivity|].
    split; [vm_compute; repeat split; reflexivity|].
    rewrite stuck_on_liquidity_path.
    split; [reflexivity|]. split; [reflexivity|]. split; [reflexivity|].
    split; [reflexivity|]. split; [reflexivity|]. split; [reflexivity|].
    intros actions. rewrite quiescent_run; [reflexivity | reflexivity |].
    repeat constructor.
Qed.

(** The same tick in a world where the approval answers. *)
Definition drained : World :=
  {| receipt := receipt calm; balanceOf := balanceOf calm;
     priceReplies := priceReplies rugged; pairReserves := pairReserves rugged;
     allowance := Some 0; approveSent := true; approveMined := true;
     pendingNonce := Some 8; populated := true; signed := true;
     endpoints := endpoints calm |}.

Lemma liquidity_drop_sell_lost_when_approval_throws_witness :
  let m := step Handler.sampleSettings samplePosition sampleMonitor Fire in
  let m' := run Handler.sampleSettings samplePosition (liquidityTick 0 drained) m in
  sellReasons m' = [LiquidityDrop] /\
  broadcasts m' = [ {| amountIn := 1000 * 10 ^ 18; amountOutMin := 0; nonce := 8;
                       gasPrice := 50000000 |} ] /\
  highestPriceSeen m' = 10 ^ 22.
Proof.
  pose proof (proj1 (proj2 liquidity_drop_sell_lost_when_approval_throws)
                Handler.sampleSettings samplePosition
                (step Handler.sampleSettings samplePosition sampleMonitor Fire)
                0%nat drained (10 ^ 17) (10 ^ 18) 0 8
                eq_refl eq_refl eq_refl ltac:(vm_compute; reflexivity)
                eq_refl eq_refl eq_refl eq_refl eq_refl eq_refl) as H.
  cbv zeta in H. destruct H as (_ & H1 & H2 & H3 & _).
  split; [exact H1|]. split; [exact H2 | exact H3].
Defined.

(** C2, on the code. A position is bought and monitored; a tick sees the
    liquidity below the minimum and enters [executeSell], where the
    allowance read of [approveToken] throws. The [catch] of the liquidity
    check swallows the error, the tick goes on to the price, finds the
    position sold and ends. The interval is cleared, no tick is in
    flight, nothing was broadcast, and the gate is locked on the token
    for ever. On the profit path the same failure rejects the tick's
    promise, with the same end. *)
Theorem gate_stuck_when_approval_throws :
  scheduleSellAfterBuy Handler.sampleSettings "0xA" true calm (Gate.lock "0xA") 8
  = Started samplePosition sampleMonitor /\
  (let m := run Handler.sampleSettings samplePosition
              [Fire; Resume 0 rugged; Resume 0 rugged; Resume 0 rugged] sampleMonitor in
   ticks m = [TickDone] /\ sold m = true /\ intervalActive m = false /\
   sellReasons m = [LiquidityDrop] /\ broadcasts m = [] /\
   forall actions,
     gate (run Handler.sampleSettings samplePosition actions m) =
     {| Gate.isSnipingActive := true; Gate.currentTargetToken := Some "0xA" |}) /\
  (let m := run Handler.sampleSettings samplePosition
              [Fire; Resume 0 calm; Resume 0 reverting; Resume 0 reverting] sampleMonitor in
   ticks m = [TickRejected] /\ sold m = true /\ intervalActive m = false /\
   sellReasons m = [TargetHit] /\ broadcasts m = [] /\
   forall actions,
     gate (run Handler.sampleSettings samplePosition actions m) =
     {| Gate.isSnipingActive := true; Gate.currentTargetToken := Some "0xA" |}).
Proof.
  split; [exact sample_started|].
  split; cbv zeta.
  - rewrite stuck_on_liquidity_path.
    split; [reflexivity|]. split; [reflexivity|]. split; [reflexivity|].
    split; [reflexivity|]. split; [reflexivity|].
    intros actions. rewrite quiescent_run; [reflexivity | reflexivity |].
    repeat constructor.
  - rewrite stuck_on_profit_path.
    split; [reflexivity|]. split; [reflexivity|]. split; [reflexivity|].
    split; [reflexivity|]. split; [reflexivity|].
    intros actions. rewrite quiescent_run; [reflexivity | reflexivity |].
    repeat constructor.
Qed.

End Monitor.

(** ** The spend amount ([SEND_BNB]) *)

Module SpendAmount.
Import JsString.

Definition isHexDigit (c : ascii) : bool :=
  let n := nat_of_ascii c in
  (((48 <=? n) && (n <=? 57)) || ((65 <=? n) && (n <=? 70))
   || ((97 <=? n) && (n <=? 102)))%nat.

Fixpoint isHex (s : string) : bool :=
  match s with
  | EmptyString => true
  | String c s' => isHexDigit c && isHex s'
  end.

(** A "0x" and [digits] hexadecimal digits. *)
Definition isHexOfLength (digits : nat) (s : string) : bool :=
  match s with
  | String "0" (String "x" body) => (String.length body =? digits)%nat && isHex body
  | _ => false
  end.

(** A library that takes an address of 20 bytes, a key of 32 bytes and
    a WebSocket URL, as the real one does of the values below. *)
Definition sampleLibrary : Startup.Library :=
  {| Startup.isAddress := isHexOfLength 40;
     Startup.parseFloat := fun _ => Liquidity.NotANumber;
     Startup.WebSocketProvider := fun url =>
       match url with
       | Some u => if startsWith u "ws://" || startsWith u "wss://" then None
                   else Some "Invalid URL"
       | None => Some "Cannot set properties of undefined"
       end;
     Startup.Wallet := fun key =>
       if isHexOfLength 64 key then None else Some "invalid private key";
     Startup.JsonRpcProvider := fun _ => None |}.

(** An environment with every key of the script but [SEND_BNB]. *)
Definition envWithoutSendBNB : gmap string string :=
  <["SNIPER_CONTRACT_ADDRESS" := "0x5FbDB2315678afecb367f032d93F642f64180aa3"]>
  (<["PRIVATE_KEY" := "0x4c0883a69102937d6231471b5dbb6204fe5129617082792ae468d01a3f362318"]>
  (<["WS_PROVIDER_URL" := "wss://bsc-rpc.publicnode.com"]>
  (<["RPC_PROVIDER_URL" := "https://bsc-dataseed1.binance.org"]> ∅))).

Definition settingsWithoutSendBNB : Startup.Settings :=
  {| Startup.sendBNB := "undefined";
     Startup.TOKEN_NAME_KEYWORDS := [];
     Startup.MIN_LIQUIDITY_BNB := Liquidity.Finite 0;
     Startup.SNIPER_CONTRACT_ADDRESS := "0x5FbDB2315678afecb367f032d93F642f64180aa3";
     Startup.PROVIDER_URL := Some "wss://bsc-rpc.publicnode.com";
     Startup.RPC_PROVIDER_URL := Some "https://bsc-dataseed1.binance.org";
     Startup.PRIVATE_KEY :=
       "0x4c0883a69102937d6231471b5dbb6204fe5129617082792ae468d01a3f362318" |}.

Lemma start_without_SEND_BNB :
  Startup.start sampleLibrary envWithoutSendBNB (Some 8)
  = Startup.Listening settingsWithoutSendBNB 8.
Proof. vm_compute. reflexivity. Qed.


(** What the script then holds as spend amount passes the guard of the
    handler, which goes on to the buy. *)
Example missing_SEND_BNB_reaches_buy :
  Startup.start sampleLibrary envWithoutSendBNB (Some 8)
  = Startup.Listening settingsWithoutSendBNB 8 /\
  forall ev, Handler.segment settingsWithoutSendBNB ev Handler.AwaitDelay Gate.fresh =
             (Handler.AwaitSwap, Gate.lock (Handler.newToken ev), false).
Proof. split; [exact start_without_SEND_BNB | reflexivity]. Qed.





End SpendAmount.

(** * Further properties of the script *)

(** ** The keyword list and the name filter *)

Module KeywordFacts.
Import JsString TokenFilter.

(** The bytes of a string. *)
Fixpoint chars (s : string) : list ascii :=
  match s with
  | EmptyString => []
  | String c s' => c :: chars s'
  end.

Lemma chars_app a b : chars (a ++ b) = (chars a ++ chars b)%list.
Proof.
  induction a as [|c a IH]; [reflexivity|].
  change (chars (String c (a ++ b)) = (c :: chars a ++ chars b)%list).
  simpl. now rewrite IH.
Qed.

Lemma trim_chars s c : In c (chars (trim s)) -> In c (chars s).
Proof.
  intros H. destruct (trim_part s) as (pre & post & Hs).
  rewrite Hs, !chars_app. apply in_or_app. right. apply in_or_app. now left.
Qed.

(** The pieces of a split do not contain the separator. *)
Lemma split_chars sep s piece :
  In piece (split sep s) -> ~ In sep (chars piece).
Proof.
  revert piece; induction s as [|a s IH]; intros piece; simpl.
  - intros [<-|[]]. simpl. tauto.
  - destruct (Ascii.eqb_spec a sep) as [->|Hne].
    + intros [<-|H]; [simpl; tauto | now apply IH].
    + destruct (split sep s) as [|p ps] eqn:Hs.
      * intros [<-|[]]. simpl. intros [H|[]]. congruence.
      * intros [<-|H].
        -- simpl. intros [H|H]; [congruence|]. apply (IH p); [now left | exact H].
        -- apply IH. now right.
Qed.

Lemma includes_nonempty_in_empty k : k <> "" -> includes "" k = false.
Proof. destruct k; [congruence | reflexivity]. Qed.

Lemma keyword_shape (env : gmap string string) (keyword : string) :
  In keyword (TOKEN_NAME_KEYWORDS env) ->
  keyword <> "" /\ exists piece, keyword = trim piece /\
                                 In piece (split "," (TOKEN_NAME_CONTAINS env)).
Proof.
  unfold TOKEN_NAME_KEYWORDS.
  destruct (truthy (TOKEN_NAME_CONTAINS env)); [|intros []].
  intros H. apply List.filter_In in H as [H Hlen].
  apply in_map_iff in H as [piece [<- Hpiece]].
  split; [|eauto].
  destruct (trim piece); [discriminate | congruence].
Qed.

(** X1. Every configured keyword is non-empty, is already trimmed, and holds
    no comma, whatever [TOKEN_NAME_CONTAINS] is set to. *)
Theorem keywords_well_formed (env : gmap string string) (keyword : string) :
  In keyword (TOKEN_NAME_KEYWORDS env) ->
  keyword <> "" /\ trim keyword = keyword /\ ~ In ","%char (chars keyword).
Proof.
  intros H. destruct (keyword_shape env keyword H) as [Hne [piece [-> Hpiece]]].
  split; [exact Hne|split].
  - apply trim_idempotent.
  - intros Hc. apply trim_chars in Hc. exact (split_chars _ _ _ Hpiece Hc).
Qed.

Lemma keywords_well_formed_witness :
  "Pepe" <> "" /\ trim "Pepe" = "Pepe" /\ ~ In ","%char (chars "Pepe").
Proof.
  apply (keywords_well_formed {[ "TOKEN_NAME_CONTAINS" := " Moon , ,Pepe " ]}).
  vm_compute. right. left. reflexivity.
Defined.

(** X2. The filter does not see the case of the name or of the keywords. *)
Theorem shouldBuyToken_ignores_case (keywords : list string) (name : string) :
  shouldBuyToken keywords name =
  shouldBuyToken (List.map toLowerCase keywords) (toLowerCase name).
Proof.
  unfold shouldBuyToken, containsKeyword.
  destruct keywords as [|k ks]; [reflexivity|].
  cbn [List.map]. f_equal. rewrite toLowerCase_idempotent.
  cbn [existsb]. rewrite toLowerCase_idempotent. f_equal.
  induction ks as [|k' ks IH]; [reflexivity|].
  cbn [List.map existsb]. now rewrite toLowerCase_idempotent, IH.
Qed.

(** X3. A token whose name is empty (as [getTokenInfo] reports a missing
    name) passes the filter under every configuration. *)
Theorem empty_name_always_passes (env : gmap string string) :
  shouldBuyToken (TOKEN_NAME_KEYWORDS env) "" = true.
Proof.
  unfold shouldBuyToken.
  destruct (TOKEN_NAME_KEYWORDS env) as [|k ks] eqn:Hk; [reflexivity|].
  apply negb_true_iff. unfold containsKeyword. change (toLowerCase "") with "".
  apply not_true_is_false. intros H. apply existsb_exists in H as [k' [Hin Hinc]].
  rewrite <- Hk in Hin. destruct (keyword_shape env k' Hin) as [Hne _].
  rewrite includes_nonempty_in_empty in Hinc; [discriminate|].
  now apply toLowerCase_nonempty.
Qed.

End KeywordFacts.

(** ** [safeGetReserves] and the zero price *)

Module ReserveFacts.
Import ReserveOracle.

(** What one round of [safeGetReserves] reads: the two token addresses
    and the two reserves, or [None] when one of the three calls throws. *)
Definition PairReply : Type := option (string * string * Z * Z).

Record Reserves : Type :=
  { reserve0 : Z; reserve1 : Z; token0 : string; token1 : string }.

(** One pass of the loop body before the pause: [Some] when the function
    returns from there. *)
Definition usableReserves (reply : PairReply) : option Reserves :=
  match reply with
  | Some (t0, t1, r0, r1) =>
      if (r0 >? 0) && (r1 >? 0)
      then Some {| reserve0 := r0; reserve1 := r1; token0 := t0; token1 := t1 |}
      else None
  | None => None
  end.

(** [for (let i = 0; i < maxRetries; i++)] from round [i] on, [rounds]
    rounds being left and [waited] milliseconds spent in the pauses so
    far: the result and the milliseconds spent pausing. *)
Fixpoint safeGetReserves_from (read : nat -> PairReply) (initialDelay : Z)
  (i rounds : nat) (waited : Z) : option Reserves * Z :=
  match rounds with
  | O => (None, waited)
  | S rounds' =>
      match usableReserves (read i) with
      | Some result => (Some result, waited)
      | None =>
          safeGetReserves_from read initialDelay (S i) rounds'
            (waited + initialDelay * 2 ^ Z.of_nat i)
      end
  end.

Definition safeGetReserves (read : nat -> PairReply) (maxRetries : nat)
  (initialDelay : Z) : option Reserves * Z :=
  safeGetReserves_from read initialDelay 0 maxRetries 0.

Lemma safeGetReserves_from_spec read d rounds : forall i waited,
  match safeGetReserves_from read d i rounds waited with
  | (Some result, total) =>
      exists k, (k < rounds)%nat /\
        usableReserves (read (i + k)%nat) = Some result /\
        (forall j, (j < k)%nat -> usableReserves (read (i + j)%nat) = None) /\
        total = waited + d * (2 ^ Z.of_nat (i + k) - 2 ^ Z.of_nat i)
  | (None, total) =>
      (forall j, (j < rounds)%nat -> usableReserves (read (i + j)%nat) = None) /\
      total = waited + d * (2 ^ Z.of_nat (i + rounds) - 2 ^ Z.of_nat i)
  end.
Proof.
  induction rounds as [|rounds IH]; intros i waited; simpl.
  - split; [lia|]. rewrite Nat.add_0_r. lia.
  - destruct (usableReserves (read i)) as [result|] eqn:Hi.
    + exists 0%nat. rewrite Nat.add_0_r.
      split; [lia|]. split; [exact Hi|]. split; [lia | lia].
    + specialize (IH (S i) (waited + d * 2 ^ Z.of_nat i)).
      assert (Hpow : 2 ^ Z.of_nat (S i) = 2 * 2 ^ Z.of_nat i).
      { rewrite Nat2Z.inj_succ, Z.pow_succ_r; lia. }
      destruct (safeGetReserves_from read d (S i) rounds _) as [[result|] total].
      * destruct IH as (k & Hk & Hu & Hbefore & Ht).
        exists (S k). replace (i + S k)%nat with (S i + k)%nat by lia.
        split; [lia|]. split; [exact Hu|]. split; [|lia].
        intros j Hj. destruct j as [|j]; [now rewrite Nat.add_0_r|].
        replace (i + S j)%nat with (S i + j)%nat by lia. apply Hbefore. lia.
      * destruct IH as (Hall & Ht).
        replace (i + S rounds)%nat with (S i + rounds)%nat by lia.
        split; [|lia].
        intros j Hj. destruct j as [|j]; [now rewrite Nat.add_0_r|].
        replace (i + S j)%nat with (S i + j)%nat by lia. apply Hall. lia.
Qed.

(** X4. [safeGetReserves] returns the first read, among at most [maxRetries],
    in which both reserves are positive, after pauses that double from
    [initialDelay] on: [initialDelay * (2^k - 1)] ms before a success in
    round [k]; it gives up with [null] only when no round had such a read,
    after [initialDelay * (2^maxRetries - 1)] ms of pauses, 61380 ms with
    the default 10 rounds from 60 ms. *)
Theorem safeGetReserves_backoff (read : nat -> PairReply) (maxRetries : nat)
  (initialDelay : Z) :
  match safeGetReserves read maxRetries initialDelay with
  | (Some result, waited) =>
      0 < reserve0 result /\ 0 < reserve1 result /\
      exists k, (k < maxRetries)%nat /\
        usableReserves (read k) = Some result /\
        (forall j, (j < k)%nat -> usableReserves (read j) = None) /\
        waited = initialDelay * (2 ^ Z.of_nat k - 1)
  | (None, waited) =>
      (forall j, (j < maxRetries)%nat -> usableReserves (read j) = None) /\
      waited = initialDelay * (2 ^ Z.of_nat maxRetries - 1)
  end /\
  60 * (2 ^ Z.of_nat 10 - 1) = 61380.
Proof.
  split; [|reflexivity].
  unfold safeGetReserves.
  pose proof (safeGetReserves_from_spec read initialDelay maxRetries 0 0) as H.
  destruct (safeGetReserves_from read initialDelay 0 maxRetries 0) as [[result|] waited].
  - destruct H as (k & Hk & Hu & Hbefore & Ht). simpl in *.
    assert (Hpos : 0 < reserve0 result /\ 0 < reserve1 result).
    { unfold usableReserves in Hu.
      destruct (read k) as [[[[t0 t1] r0] r1]|]; [|discriminate].
      destruct (r0 >? 0) eqn:H0; [|discriminate].
      destruct (r1 >? 0) eqn:H1; [|discriminate].
      injection Hu as <-. simpl. split; now apply Z.gtb_lt. }
    destruct Hpos. split; [assumption|]. split; [assumption|].
    exists k. split; [exact Hk|]. split; [exact Hu|]. split; [exact Hbefore | lia].
  - destruct H as (Hall & Ht). simpl in *. split; [exact Hall | lia].
Qed.

(** X5. The price of reserves that are both positive is the zero sentinel
    exactly when the token reserve exceeds 10^24 times the base reserve:
    such a pool reads as a failed price fetch. *)
Theorem price_zero_on_positive_reserves (tokenIsToken1 : bool) (reserve0 reserve1 : Z) :
  0 < reserve0 -> 0 < reserve1 ->
  let reserveWBNB := if tokenIsToken1 then reserve0 else reserve1 in
  let reserveToken := if tokenIsToken1 then reserve1 else reserve0 in
  forall rpcProviders,
    getCurrentPriceFromReservesSafe rpcProviders
      (fun _ _ => Some (reserve0, reserve1)) tokenIsToken1 = 0
    <-> reserveWBNB * 10 ^ 24 < reserveToken.
Proof.
  intros H0 H1 reserveWBNB reserveToken n.
  unfold getCurrentPriceFromReservesSafe. simpl.
  assert (Hb : (reserve0 >? 0) && (reserve1 >? 0) = true).
  { apply andb_true_iff. split; now apply Z.gtb_lt. }
  rewrite Hb.
  assert (Hne : (reserveToken =? 0) = false).
  { apply Z.eqb_neq. unfold reserveToken. destruct tokenIsToken1; lia. }
  fold reserveWBNB reserveToken. rewrite Hne.
  replace (reserveWBNB * 1000000 * 10 ^ 18) with (reserveWBNB * 10 ^ 24) by lia.
  assert (0 < reserveToken) by (unfold reserveToken; destruct tokenIsToken1; lia).
  assert (0 <= reserveWBNB * 10 ^ 24) by (unfold reserveWBNB; destruct tokenIsToken1; lia).
  split.
  - intros Hz. apply Z.div_small_iff in Hz; lia.
  - intros Hlt. apply Z.div_small. lia.
Qed.

Lemma price_zero_on_positive_reserves_witness :
  getCurrentPriceFromReservesSafe 1 (fun _ _ => Some (1, 2 * 10 ^ 24)) true = 0
  <-> 1 * 10 ^ 24 < 2 * 10 ^ 24.
Proof.
  apply (price_zero_on_positive_reserves true 1 (2 * 10 ^ 24)); reflexivity.
Defined.

End ReserveFacts.

(** ** The buy ([executeSwap]) *)

Module Swap.
Import JsString.

(** What the calls of [executeSwap] answer; [inl message] and
    [Some message] stand for a call that throws an error with that
    message, [None] in [pendingNonce] for a nonce read that throws. *)
Record World : Type :=
  { nowMs : Z;                              (* Date.now() *)
    parsedAmount : string + Z;              (* ethers.parseEther(amountInBNB) *)
    feeData : string + option Z;            (* provider.getFeeData(), its gasPrice *)
    populateError : option string;          (* populateTransaction *)
    signedTx : string + string;             (* wallet.signTransaction *)
    endpoints : list Broadcast.Endpoint;    (* for submitRawTx *)
    pendingNonce : option Z }.              (* getTransactionCount(.., 'pending') *)

(** The transaction request built for [swapExactETHForTokens]. *)
Record BuyTx : Type :=
  { amountOutMin : Z; path : list string; recipient : string; deadline : Z;
    value : Z; gasLimit : Z; gasPrice : Z; nonce : Z; chainId : Z }.

Inductive Result : Type :=
| Success (txHash : string)   (* { txHash, success: true } *)
| Failure (error : string)    (* { success: false, error } *)
| Rejected.                   (* the promise of [executeSwap] is rejected *)

(** What a run of [executeSwap] leaves: its result, the nonce counter,
    the request it built and the raw transaction it handed to
    [submitRawTx], if it came that far. *)
Record Run : Type :=
  { result : Result; currentNonce : Z; built : option BuyTx; sentRaw : option string }.

(** [signedTx.slice(2)] *)
Definition slice2 (s : string) : string :=
  match s with
  | String _ (String _ rest) => rest
  | _ => ""
  end.

(** [rawTx.startsWith('0x') ? rawTx : '0x' + rawTx] of [submitRawTx] *)
Definition txWithPrefix (rawTx : string) : string :=
  if startsWith rawTx "0x" then rawTx else "0x" ++ rawTx.

(** [error.message.includes('nonce') || error.message.includes('already known')] *)
Definition mentionsNonce (message : string) : bool :=
  includes message "nonce" || includes message "already known".

(** The [catch] block. *)
Definition onError (w : World) (nonce_ : Z) (tx : option BuyTx) (raw : option string)
  (message : string) : Run :=
  if mentionsNonce message then
    match pendingNonce w with
    | Some pending =>
        {| result := Failure message; currentNonce := pending; built := tx; sentRaw := raw |}
    | None =>
        {| result := Rejected; currentNonce := nonce_; built := tx; sentRaw := raw |}
    end
  else {| result := Failure message; currentNonce := nonce_; built := tx; sentRaw := raw |}.

(** [executeSwap(newToken, amountInBNB, deadlineMinutes, competitiveGas)],
    run from the nonce counter [nonce_] with no other callback in
    between; [wallet] is the wallet's address, [deadlineMinutes] a whole
    number of minutes. *)
Definition executeSwap (wallet newToken : string) (deadlineMinutes : Z)
  (competitiveGas : bool) (w : World) (nonce_ : Z) : Run :=
  match parsedAmount w with
  | inl message => onError w nonce_ None None message
  | inr amountIn =>
      let deadline_ := nowMs w / 1000 + deadlineMinutes * 60 in
      let priced :=
        if competitiveGas then
          match feeData w with
          | inl message => inl message
          | inr fee => inr (GasPrice.gasPrice true fee)
          end
        else inr (GasPrice.gasPrice false None) in
      match priced with
      | inl message => onError w nonce_ None None message
      | inr gasPrice_ =>
          let tx :=
            {| amountOutMin := 0; path := [Handler.WBNB; newToken];
               recipient := wallet; deadline := deadline_; value := amountIn;
               gasLimit := 300000; gasPrice := gasPrice_; nonce := nonce_;
               chainId := 56 |} in
          match populateError w with
          | Some message => onError w nonce_ (Some tx) None message
          | None =>
              match signedTx w with
              | inl message => onError w nonce_ (Some tx) None message
              | inr signed =>
                  let raw := txWithPrefix (slice2 signed) in
                  match snd (Broadcast.submitRawTx (endpoints w) 5000) with
                  | inl txHash =>
                      {| result := Success txHash; currentNonce := nonce_ + 1;
                         built := Some tx; sentRaw := Some raw |}
                  | inr message => onError w nonce_ (Some tx) (Some raw) message
                  end
              end
          end
      end
  end.

Ltac swap_cases :=
  unfold executeSwap, onError;
  repeat match goal with
         | |- context [match ?x with _ => _ end] =>
             lazymatch x with
             | context [match _ with _ => _ end] => fail
             | _ => destruct x eqn:?
             end
         end.

Lemma submitRawTx_error (eps : list Broadcast.Endpoint) (t : Z) (message : string) :
  snd (Broadcast.submitRawTx eps t) = inr message -> message = Broadcast.allFailed.
Proof.
  unfold Broadcast.submitRawTx. destruct (List.find _ _); simpl; congruence.
Qed.

Lemma onError_discipline w nonce_ tx raw m :
  let r := onError w nonce_ tx raw m in
  match result r with
  | Success _ => False
  | Failure message =>
      (mentionsNonce message = false /\ currentNonce r = nonce_) \/
      (mentionsNonce message = true /\ pendingNonce w = Some (currentNonce r))
  | Rejected => pendingNonce w = None /\ currentNonce r = nonce_
  end.
Proof.
  unfold onError. destruct (mentionsNonce m) eqn:Hm; [destruct (pendingNonce w)|];
    simpl; auto.
Qed.

Ltac by_onError :=
  match goal with
  | |- context [onError ?w ?n ?tx ?raw ?m] =>
      let H := fresh in
      pose proof (onError_discipline w n tx raw m) as H; cbv zeta in H;
      destruct (result (onError w n tx raw m)); [contradiction | exact H | exact H]
  end.

(** X6. The nonce discipline of the buy. A successful buy was built with the
    counter's value, with no minimum output, on the path WBNB -> token,
    and advances the counter by one. A failed buy leaves the counter as
    it was unless its error message mentions a nonce conflict, in which
    case the counter is the chain's pending count. The promise is
    rejected only when that resynchronisation itself throws. *)
Theorem executeSwap_nonce_discipline (wallet newToken : string) (deadlineMinutes : Z)
  (competitiveGas : bool) (w : World) (nonce_ : Z) :
  let r := executeSwap wallet newToken deadlineMinutes competitiveGas w nonce_ in
  match result r with
  | Success txHash =>
      currentNonce r = nonce_ + 1 /\
      snd (Broadcast.submitRawTx (endpoints w) 5000) = inl txHash /\
      exists tx, built r = Some tx /\ nonce tx = nonce_ /\ amountOutMin tx = 0 /\
                 path tx = [Handler.WBNB; newToken] /\ recipient tx = wallet /\
                 deadline tx = nowMs w / 1000 + deadlineMinutes * 60
  | Failure message =>
      (mentionsNonce message = false /\ currentNonce r = nonce_) \/
      (mentionsNonce message = true /\ pendingNonce w = Some (currentNonce r))
  | Rejected => pendingNonce w = None /\ currentNonce r = nonce_
  end.
Proof.
  intros r. subst r. unfold executeSwap.
  destruct (parsedAmount w) as [m|amountIn]; [by_onError|].
  destruct (if competitiveGas then _ else _) as [m|gas]; [by_onError|].
  destruct (populateError w) as [m|]; [by_onError|].
  destruct (signedTx w) as [m|signed]; [by_onError|].
  destruct (snd (Broadcast.submitRawTx (endpoints w) 5000)) as [h|m] eqn:Hb; [|by_onError].
  simpl. split; [reflexivity|]. split; [reflexivity|].
  eexists. split; [reflexivity|]. simpl. now repeat split.
Qed.

(** X7. A buy that reached the broadcaster and was not accepted fails with
    the broadcaster's own message, which mentions no nonce: the counter
    is not resynchronised, whatever the endpoints objected to. *)
Theorem executeSwap_broadcast_failure_keeps_nonce (wallet newToken : string)
  (deadlineMinutes : Z) (competitiveGas : bool) (w : World) (nonce_ : Z) (raw : string) :
  let r := executeSwap wallet newToken deadlineMinutes competitiveGas w nonce_ in
  sentRaw r = Some raw ->
  (forall txHash, result r <> Success txHash) ->
  result r = Failure Broadcast.allFailed /\ currentNonce r = nonce_.
Proof.
  intros r Hraw Hfail. subst r. revert Hraw Hfail.
  unfold executeSwap.
  destruct (parsedAmount w) as [m|amountIn].
  { unfold onError. destruct (mentionsNonce m); [destruct (pendingNonce w)|]; discriminate. }
  destruct (if competitiveGas then _ else _) as [m|gas].
  { unfold onError. destruct (mentionsNonce m); [destruct (pendingNonce w)|]; discriminate. }
  destruct (populateError w) as [m|].
  { unfold onError. destruct (mentionsNonce m); [destruct (pendingNonce w)|]; discriminate. }
  destruct (signedTx w) as [m|signed].
  { unfold onError. destruct (mentionsNonce m); [destruct (pendingNonce w)|]; discriminate. }
  destruct (snd (Broadcast.submitRawTx (endpoints w) 5000)) as [h|m] eqn:Hb.
  { simpl. intros _ H. exfalso. exact (H h eq_refl). }
  apply submitRawTx_error in Hb. subst m. intros _ _.
  unfold onError.
  replace (mentionsNonce Broadcast.allFailed) with false by (vm_compute; reflexivity).
  simpl. split; reflexivity.
Qed.

(** The counter lags behind the chain: the buy is signed with nonce 11
    while 12 is pending, and the endpoint answers "nonce too low". *)
Definition staleNonceWorld : World :=
  {| nowMs := 1700000000500;
     parsedAmount := inr (10 ^ 15);
     feeData := inr (Some (3 * 10 ^ 9));
     populateError := None;
     signedTx := inr "0x02f8b1";
     endpoints := [ {| Broadcast.respondsAt := 40;
                       Broadcast.reply := Broadcast.Rejected "nonce too low" |} ];
     pendingNonce := Some 12 |}.

Lemma executeSwap_broadcast_failure_keeps_nonce_witness :
  let r := executeSwap "0xwallet" "0xA" 3 false staleNonceWorld 11 in
  result r = Failure Broadcast.allFailed /\ currentNonce r = 11.
Proof.
  apply (executeSwap_broadcast_failure_keeps_nonce "0xwallet" "0xA" 3 false
           staleNonceWorld 11 "0x02f8b1").
  - vm_compute. reflexivity.
  - intros txHash. vm_compute. discriminate.
Defined.

(** X8. The deadline of the buy is a Unix time in seconds that lies ahead of
    the clock by the minutes asked for, less the part of a second that
    the rounding drops. *)
Theorem executeSwap_deadline_ahead (wallet newToken : string) (deadlineMinutes : Z)
  (competitiveGas : bool) (w : World) (nonce_ : Z) (tx : BuyTx) :
  built (executeSwap wallet newToken deadlineMinutes competitiveGas w nonce_) = Some tx ->
  nowMs w + 60000 * deadlineMinutes - 1000 < 1000 * deadline tx
  /\ 1000 * deadline tx <= nowMs w + 60000 * deadlineMinutes.
Proof.
  assert (Hd : nowMs w - 1000 < 1000 * (nowMs w / 1000) <= nowMs w).
  { pose proof (Z.mod_pos_bound (nowMs w) 1000 ltac:(lia)).
    pose proof (Z.div_mod (nowMs w) 1000 ltac:(lia)). lia. }
  swap_cases; simpl; intros [= <-]; simpl; lia.
Qed.

Lemma executeSwap_deadline_ahead_witness :
  1700000000500 + 60000 * 3 - 1000 < 1000 * 1700000180
  /\ 1000 * 1700000180 <= 1700000000500 + 60000 * 3.
Proof.
  apply (executeSwap_deadline_ahead "0xwallet" "0xA" 3 false staleNonceWorld 11
           {| amountOutMin := 0; path := [Handler.WBNB; "0xA"]; recipient := "0xwallet";
              deadline := 1700000180; value := 10 ^ 15; gasLimit := 300000;
              gasPrice := 50000000; nonce := 11; chainId := 56 |}).
  vm_compute. reflexivity.
Defined.

(** X9. The raw transaction reaches the endpoints as it was signed: cutting
    the "0x" of a signed transaction and putting it back gives the
    signed transaction, as long as what follows the prefix does not
    itself start with "0x" (hexadecimal digits never do); and whatever
    the input, what is broadcast starts with "0x". *)
Theorem txWithPrefix_restores (body : string) :
  startsWith body "0x" = false ->
  txWithPrefix (slice2 ("0x" ++ body)) = "0x" ++ body /\
  (forall rawTx, startsWith (txWithPrefix rawTx) "0x" = true) /\
  (forall rawTx, txWithPrefix (txWithPrefix rawTx) = txWithPrefix rawTx).
Proof.
  intros Hb. split; [|split].
  - change (slice2 ("0x" ++ body)) with body. unfold txWithPrefix. now rewrite Hb.
  - intros rawTx. unfold txWithPrefix.
    destruct (startsWith rawTx "0x") eqn:H; [exact H | reflexivity].
  - intros rawTx. unfold txWithPrefix at 1.
    assert (H : startsWith (txWithPrefix rawTx) "0x" = true).
    { unfold txWithPrefix. destruct (startsWith rawTx "0x") eqn:H; [exact H | reflexivity]. }
    now rewrite H.
Qed.

Lemma txWithPrefix_restores_witness :
  txWithPrefix (slice2 ("0x" ++ "02f8b1")) = "0x" ++ "02f8b1".
Proof. apply (txWithPrefix_restores "02f8b1"). reflexivity. Defined.

End Swap.

(** ** More on the handler *)

Module HandlerFacts.
Import JsString Handler.

(** How far the filters have let the event come. *)
Definition passedPairFilter (ev : Event) : bool := token0IsWBNB ev || token1IsWBNB ev.











(** The gate names the holder's token. *)
Definition Named (s : System) : Prop :=
  forall i h, handlers s !! i = Some h -> holding (pc h) = true ->
              gate s = Gate.lock (newToken (event h)).

Lemma no_holder_when_inactive s i h :
  Inv s -> Gate.isSnipingActive (gate s) = false ->
  handlers s !! i = Some h -> holding (pc h) = false.
Proof.
  intros (Hh & _ & _) Ha Hi. rewrite Ha in Hh. simpl in Hh.
  pose proof (count_lookup_le holding _ _ _ Hi) as Hle.
  destruct (holding (pc h)); [simpl in Hle; lia | reflexivity].
Qed.

Lemma sole_holder s i j h h' :
  Inv s -> handlers s !! i = Some h -> handlers s !! j = Some h' ->
  holding (pc h) = true -> holding (pc h') = true -> i = j.
Proof.
  intros (Hh & _ & _) Hi Hj Hhi Hhj.
  destruct (decide (i = j)) as [|Hne]; [assumption|exfalso].
  pose proof (count_insert holding _ _ _ Arrived Hi) as Hins.
  rewrite Hhi in Hins. simpl in Hins.
  assert (Hj' : <[i := {| event := event h; pc := Arrived |}]> (handlers s) !! j = Some h').
  { now rewrite list_lookup_insert_ne. }
  pose proof (count_lookup_le holding _ _ _ Hj') as Hle.
  rewrite Hhj in Hle. simpl in Hle.
  destruct (Gate.isSnipingActive (gate s)); simpl in Hh; lia.
Qed.

Lemma Named_step cfg s i : Inv s -> Named s -> Named (step cfg s i).
Proof.
  intros HI HN. unfold step.
  destruct (halted s); [exact HN|].
  destruct (handlers s !! i) as [h|] eqn:Hi; [|exact HN].
  destruct (segment cfg (event h) (pc h) (gate s)) as [[pc' g'] ex] eqn:Hseg.
  intros j hj Hj Hhold. simpl in *.
  destruct (decide (i = j)) as [<-|Hne].
  - rewrite list_lookup_insert_eq in Hj by (now apply lookup_lt_Some in Hi).
    injection Hj as <-. simpl in *.
    destruct (holding (pc h)) eqn:Hwas.
    + specialize (HN i h Hi Hwas).
      destruct (pc h); try discriminate; segment_cases Hseg; try discriminate;
        simpl in *; congruence.
    + destruct (pc h); try discriminate; segment_cases Hseg; try discriminate;
        reflexivity.
  - rewrite list_lookup_insert_ne in Hj by assumption.
    specialize (HN j hj Hj Hhold).
    destruct (Gate.isSnipingActive (gate s)) eqn:Ha.
    + destruct (holding (pc h)) eqn:Hwas.
      * exfalso. apply Hne. eapply sole_holder; eauto.
      * destruct (contender_rejected cfg (event h) (pc h) (gate s) Ha Hwas)
          as [p' [Hp' _]].
        rewrite Hp' in Hseg. injection Hseg as <- <- <-. exact HN.
    + pose proof (no_holder_when_inactive s j hj HI Ha Hj). congruence.
Qed.

Lemma Named_run cfg schedule s : Inv s -> Named s -> Named (run cfg schedule s).
Proof.
  revert s; induction schedule as [|i schedule IH]; intros s HI HN; simpl; auto.
  apply IH; [now apply Inv_step | now apply Named_step].
Qed.

(** X12. The gate and its target agree at every moment: while no instance
    holds the lock the gate is inactive and names no token, and while one
    does the gate is active and names that instance's new token. *)
Theorem gate_names_holder (cfg : Startup.Settings) (events : list Event)
  (schedule : list nat) :
  let s := run cfg schedule (initial events) in
  (Gate.isSnipingActive (gate s) = false -> gate s = Gate.fresh) /\
  (forall i h, handlers s !! i = Some h -> holding (pc h) = true ->
     gate s = {| Gate.isSnipingActive := true;
                 Gate.currentTargetToken := Some (newToken (event h)) |}).
Proof.
  intros s.
  pose proof (Inv_run cfg schedule _ (Inv_initial events)) as HI. fold s in HI.
  split.
  - intros Ha. destruct HI as (_ & _ & Ht). specialize (Ht Ha).
    destruct (gate s) as [a t]. simpl in *. now subst.
  - apply (Named_run cfg schedule (initial events) (Inv_initial events)).
    intros i h Hi Hh. exfalso.
    apply list_elem_of_lookup_2, list_elem_of_In, in_map_iff in Hi as [ev [<- _]].
    discriminate.
Qed.

Lemma gate_names_holder_witness :
  gate (run sampleSettings [0; 1; 2; 0; 1; 2; 2; 1; 0; 1; 0; 2]%nat (initial sampleEvents))
  = {| Gate.isSnipingActive := true; Gate.currentTargetToken := Some "0xB" |}.
Proof.
  apply (proj2 (gate_names_holder sampleSettings sampleEvents
                  [0; 1; 2; 0; 1; 2; 2; 1; 0; 1; 0; 2]%nat) 1%nat
           {| event := sampleEvent "0xB" "Comet"; pc := AwaitSwap |}).
  - vm_compute. reflexivity.
  - reflexivity.
Defined.

(** X13. A handler that turns an event down, by a filter or because the gate
    is busy, leaves the gate exactly as it found it and does not end the
    process; a pair without WBNB is turned down in the first segment,
    before anything is read from the chain. *)
Theorem rejection_leaves_gate (cfg : Startup.Settings) (ev : Event) (p : Pc)
  (g g' : Gate.State) (p' : Pc) (ex : bool) :
  segment cfg ev p g = (p', g', ex) ->
  skipped p' = true \/ rejected p' = true ->
  g' = g /\ ex = false /\
  (passedPairFilter ev = false -> segment cfg ev Arrived g = (Finished Skipped, g, false)).
Proof.
  intros Hseg Hrej. split; [|split].
  - destruct p; segment_cases Hseg; simpl in Hrej; destruct Hrej; try discriminate;
      reflexivity.
  - destruct p; segment_cases Hseg; simpl in Hrej; destruct Hrej; try discriminate;
      reflexivity.
  - unfold passedPairFilter. intros H. apply orb_false_iff in H as [H0 H1].
    simpl. now rewrite H0, H1.
Qed.

Lemma rejection_leaves_gate_witness :
  Gate.lock "0xB" = Gate.lock "0xB" /\ false = false.
Proof.
  destruct (rejection_leaves_gate sampleSettings (sampleEvent "0xA" "Rocket")
              AwaitDelay (Gate.lock "0xB") (Gate.lock "0xB") (Finished Busy) false
              eq_refl (or_intror eq_refl)) as (H1 & H2 & _).
  split; [exact H1 | exact H2].
Defined.

End HandlerFacts.

(** ** More on the sell monitor *)

Module MonitorFacts.
Import Monitor.

(** *** Prices *)

Lemma tryProviders_failed t (reads : nat -> ReserveOracle.ReservesReply) provs :
  (forall p, reads p = None) -> ReserveOracle.tryProviders t reads provs = None.
Proof.
  intros H. induction provs as [|p provs IH]; simpl; [reflexivity|].
  now rewrite H.
Qed.

Lemma price_of_failed_reads n (reads : nat -> nat -> ReserveOracle.ReservesReply) t :
  (forall i p, reads i p = None) ->
  ReserveOracle.getCurrentPriceFromReservesSafe n reads t = 0.
Proof.
  intros H. unfold ReserveOracle.getCurrentPriceFromReservesSafe.
  generalize (seq 0 (1 + n)) as provs. intros provs.
  induction (seq 0 ReserveOracle.maxRetries) as [|i rounds IH];
    cbn [ReserveOracle.retryRounds]; [reflexivity|].
  rewrite tryProviders_failed; [exact IH | apply H].
Qed.

Lemma price_nonneg n (reads : nat -> nat -> ReserveOracle.ReservesReply) t :
  0 <= ReserveOracle.getCurrentPriceFromReservesSafe n reads t.
Proof.
  unfold ReserveOracle.getCurrentPriceFromReservesSafe.
  rewrite ReserveOracle.retryRounds_spec.
  destruct (List.find ReserveOracle.bothNonZero _) as [[[r0 r1]|]|] eqn:Hf; try lia.
  apply find_some in Hf as [_ Hb]. simpl in Hb.
  apply andb_true_iff in Hb as [H0 H1]. apply Z.gtb_lt in H0, H1.
  unfold ReserveOracle.scaledRatio. destruct t; apply Z.div_pos; lia.
Qed.

(** *** Entering the monitoring *)

Lemma Started_fresh cfg token_ t w g n pos m :
  scheduleSellAfterBuy cfg token_ t w g n = Started pos m ->
  sold m = false /\ ticks m = [] /\ approvals m = [] /\ broadcasts m = [].
Proof.
  unfold scheduleSellAfterBuy. intros H.
  repeat match type of H with
         | context [match ?x with _ => _ end] => destruct x eqn:?
         end; try discriminate;
    injection H as <- <-; now repeat split.
Qed.

(** X14. The polling starts exactly when the buy's receipt has status 1, the
    balance read is positive and the entry price is not the zero
    sentinel; it then starts unsold, with the interval running, the gate
    as the handler locked it, a positive entry price as the peak, and no
    tick, approval or broadcast yet. *)
Theorem monitoring_starts_iff (cfg : Startup.Settings) (token_ : string) (t : bool)
  (w : World) (g : Gate.State) (n : Z) :
  let price := ReserveOracle.getCurrentPriceFromReservesSafe rpcProviders
                 (priceReplies w) t in
  ((exists pos m, scheduleSellAfterBuy cfg token_ t w g n = Started pos m) <->
   receipt w = Some (Some 1) /\ (exists b, balanceOf w = Some b /\ 0 < b) /\ price <> 0) /\
  (forall pos m, scheduleSellAfterBuy cfg token_ t w g n = Started pos m ->
     gate m = g /\ sold m = false /\ intervalActive m = true /\ currentNonce m = n /\
     0 < tokenBalance pos /\ balanceOf w = Some (tokenBalance pos) /\
     initialPrice pos = price /\ 0 < initialPrice pos /\
     highestPriceSeen m = initialPrice pos /\
     ticks m = [] /\ approvals m = [] /\ broadcasts m = [] /\ sellReasons m = []).
Proof.
  intros price. pose proof (price_nonneg rpcProviders (priceReplies w) t) as Hge.
  fold price in Hge. unfold scheduleSellAfterBuy. fold price.
  destruct (receipt w) as [[status|]|].
  2:{ split; [split; [intros (? & ? & ?); discriminate | intros ([=] & _)]
              | intros ? ? ?; discriminate]. }
  2:{ split; [split; [intros (? & ? & ?); discriminate | intros ([=] & _)]
              | intros ? ? ?; discriminate]. }
  destruct (Z.eqb_spec status 1) as [->|Hst]; simpl.
  2:{ split; [split; [intros (? & ? & ?); discriminate | intros ([=] & _); congruence]
              | intros ? ? ?; discriminate]. }
  destruct (balanceOf w) as [b|].
  2:{ split; [split; [intros (? & ? & ?); discriminate | intros (_ & (? & [=] & _) & _)]
              | intros ? ? ?; discriminate]. }
  destruct (Z.leb_spec b 0).
  { split; [split; [intros (? & ? & ?); discriminate
                   | intros (_ & (? & [= <-] & ?) & _); lia]
            | intros ? ? ?; discriminate]. }
  destruct (Z.eqb_spec price 0) as [Hp|Hp].
  { split; [split; [intros (? & ? & ?); discriminate | intros (_ & _ & ?); congruence]
            | intros ? ? ?; discriminate]. }
  split.
  - split; [intros _ | intros _; eauto].
    split; [reflexivity|]. split; [exists b; split; [reflexivity | lia] | exact Hp].
  - intros pos m [= <- <-]. simpl.
    split; [reflexivity|]. split; [reflexivity|]. split; [reflexivity|].
    split; [reflexivity|]. split; [lia|]. split; [reflexivity|].
    split; [reflexivity|]. split; [lia|]. now repeat split.
Qed.

Lemma monitoring_starts_iff_witness :
  gate sampleMonitor = Gate.lock "0xA" /\ 0 < initialPrice samplePosition.
Proof.
  destruct (proj2 (monitoring_starts_iff Handler.sampleSettings "0xA" true calm
                     (Gate.lock "0xA") 8) samplePosition sampleMonitor)
    as (H1 & _ & _ & _ & _ & _ & _ & H2 & _).
  - vm_compute. reflexivity.
  - split; [exact H1 | exact H2].
Defined.

(** *** The take-profit target *)

(** X15. The target is never below the entry price, and it is the entry price
    itself exactly when that price is below 20 units of the scaled
    price: the 5% are then rounded away and a tick that reads the entry
    price again already meets the target. *)
Theorem targetPrice_rounding (pos : Position) :
  0 <= initialPrice pos ->
  initialPrice pos <= targetPrice pos /\
  (targetPrice pos = initialPrice pos <-> initialPrice pos < 20) /\
  20 * (targetPrice pos - initialPrice pos) <= initialPrice pos.
Proof.
  intros Hp. unfold targetPrice.
  pose proof (Z.div_mod (initialPrice pos * 105) 100 ltac:(lia)) as Hd.
  pose proof (Z.mod_pos_bound (initialPrice pos * 105) 100 ltac:(lia)) as Hm.
  repeat split; try lia; intros; lia.
Qed.

Lemma targetPrice_rounding_witness :
  initialPrice samplePosition <= targetPrice samplePosition.
Proof.
  apply (targetPrice_rounding samplePosition). vm_compute. discriminate.
Defined.

(** *** Invariants of every run *)

Section Runs.

Variable cfg : Startup.Settings.
Variable pos : Position.

(** A property of the shared variables kept by every segment and by the
    firing of the interval is kept by every run. *)
Lemma run_invariant (P : Monitor -> Prop) :
  (forall m t, P m -> P (setTicks m t)) ->
  (forall w pc m pc' m', tickSegment cfg pos w pc m = (pc', m') -> P m -> P m') ->
  forall actions m, P m -> P (run cfg pos actions m).
Proof.
  intros Hticks Hseg actions.
  induction actions as [|a actions IH]; intros m Hm; simpl; [exact Hm|].
  apply IH. destruct a as [|i w]; unfold step.
  - destruct (intervalActive m); [now apply Hticks | exact Hm].
  - destruct (ticks m !! i) as [pc|]; [|exact Hm].
    destruct (tickSegment cfg pos w pc m) as [pc' m'] eqn:Hs.
    apply Hticks. eapply Hseg; eauto.
Qed.

Lemma tickSegment_peak w pc m pc' m' :
  tickSegment cfg pos w pc m = (pc', m') -> highestPriceSeen m <= highestPriceSeen m'.
Proof.
  intros Hseg. destruct m as [g n s ia hp rs ap bc tk]; simpl in *.
  destruct pc; tick_cases Hseg; simpl in *;
    repeat match goal with
           | H : (_ >? _) = true |- _ => apply Z.gtb_lt in H
           end; lia.
Qed.

(** X16. The peak price never falls, whatever the ticks read and however they
    interleave. *)
Theorem peak_never_falls (actions : list Action) (m : Monitor) :
  highestPriceSeen m <= highestPriceSeen (run cfg pos actions m).
Proof.
  apply (run_invariant (fun m' => highestPriceSeen m <= highestPriceSeen m')).
  - intros m' t H. exact H.
  - intros w pc m1 pc' m2 Hseg H. pose proof (tickSegment_peak _ _ _ _ _ Hseg). lia.
  - lia.
Qed.

(** The same for a property that needs the ticks to be where a run from
    the start of the polling can bring them. *)
Lemma run_invariant_from_start (P : Monitor -> Prop) :
  (forall m t, P m -> P (setTicks m t)) ->
  (forall i w pc m pc' m', SellInv m -> ticks m !! i = Some pc ->
     tickSegment cfg pos w pc m = (pc', m') -> P m -> P m') ->
  forall actions m, SellInv m -> P m -> P (run cfg pos actions m).
Proof.
  intros Hticks Hseg actions.
  induction actions as [|a actions IH]; intros m Hinv Hm; simpl; [exact Hm|].
  apply IH; [now apply SellInv_step|].
  destruct a as [|i w]; unfold step.
  - destruct (intervalActive m); [now apply Hticks | exact Hm].
  - destruct (ticks m !! i) as [pc|] eqn:Hl; [|exact Hm].
    destruct (tickSegment cfg pos w pc m) as [pc' m'] eqn:Hs.
    apply Hticks. eapply Hseg; eauto.
Qed.

Lemma broadcasting_sold m i pc :
  SellInv m -> ticks m !! i = Some pc -> broadcasting pc = true -> sold m = true.
Proof.
  intros (Hc & Hb & _) Hl Hpc.
  pose proof (countPc_lookup_le broadcasting _ _ _ Hl) as Hle.
  rewrite Hpc in Hle. simpl in Hle.
  destruct (sold m); [reflexivity | simpl in Hc; lia].
Qed.

Lemma tickSegment_gate w pc m pc' m' :
  tickSegment cfg pos w pc m = (pc', m') ->
  (broadcasting pc = true -> sold m = true) ->
  gate m' = gate m \/ (gate m' = Gate.unlock /\ sold m' = true).
Proof.
  intros Hseg Hb. destruct m as [g n s ia hp rs ap bc tk]; simpl in *.
  destruct s; destruct pc; tick_cases Hseg; simpl in *;
    first [left; reflexivity | right; split; reflexivity
          | discriminate | specialize (Hb eq_refl); discriminate].
Qed.

(** X17. The monitor only ever unlocks the gate, and only once the position
    is marked sold: until then the gate is as the handler locked it. *)
Theorem gate_held_until_sold (token_ : string) (w0 : World) (g : Gate.State) (n : Z)
  (m : Monitor) (actions : list Action) :
  scheduleSellAfterBuy cfg token_ (tokenIsToken1 pos) w0 g n = Started pos m ->
  let m' := run cfg pos actions m in
  (sold m' = false -> gate m' = g) /\
  (gate m' = g \/ gate m' = Gate.unlock).
Proof.
  intros Hstart m'.
  assert (Hg : gate m = g).
  { unfold scheduleSellAfterBuy in Hstart.
    repeat match type of Hstart with
           | context [match ?x with _ => _ end] => destruct x eqn:?
           end; try discriminate;
      now injection Hstart as <- <-. }
  assert (H : gate m' = g \/ (gate m' = Gate.unlock /\ sold m' = true)).
  { unfold m'.
    apply (run_invariant_from_start
             (fun m' => gate m' = g \/ (gate m' = Gate.unlock /\ sold m' = true))).
    - intros m1 t H. exact H.
    - intros i w pc m1 pc' m2 Hinv Hl Hseg Hm1.
      destruct (tickSegment_gate _ _ _ _ _ Hseg
                  (broadcasting_sold _ _ _ Hinv Hl)) as [He|Hu].
      + destruct Hm1 as [Hm1|[Hm1 Hsold]]; [left; congruence|].
        right. split; [congruence|]. eapply tickSegment_sold; eauto.
      + right; exact Hu.
    - eapply SellInv_started; eauto.
    - now left. }
  split.
  - intros Hs. destruct H as [H|[_ H]]; [exact H | congruence].
  - destruct H as [H|[H _]]; auto.
Qed.

(** The shape of what the sell path sends. *)
Definition sellsWholeBalance (tx : SellTx) : Prop :=
  amountIn tx = tokenBalance pos /\ amountOutMin tx = 0 /\ gasPrice tx = 50000000.

Definition unlimitedForRouter (call : Approval.ApproveCall) : Prop :=
  Approval.spender call = Approval.ROUTER /\ Approval.amount call = 2 ^ 256 - 1.

Definition awaitingAllowance (pc : TickPc) : bool :=
  match pc with AwaitAllowance _ => true | _ => false end.

Definition SentInv (m : Monitor) : Prop :=
  (countPc awaitingAllowance (ticks m) + length (approvals m) <= Nat.b2n (sold m))%nat /\
  Forall sellsWholeBalance (broadcasts m) /\
  Forall unlimitedForRouter (approvals m).

Lemma tickSegment_SentInv w pc m pc' m' (k : nat) :
  tickSegment cfg pos w pc m = (pc', m') ->
  (k + Nat.b2n (awaitingAllowance pc) + length (approvals m) <= Nat.b2n (sold m))%nat ->
  Forall sellsWholeBalance (broadcasts m) ->
  Forall unlimitedForRouter (approvals m) ->
  ticks m' = ticks m /\
  (k + Nat.b2n (awaitingAllowance pc') + length (approvals m') <= Nat.b2n (sold m'))%nat /\
  Forall sellsWholeBalance (broadcasts m') /\
  Forall unlimitedForRouter (approvals m').
Proof.
  intros Hseg Hc Hb Ha.
  destruct m as [g n s ia hp rs ap bc tk]; simpl in *.
  destruct s; destruct pc; tick_cases Hseg; simpl in *;
    (split; [reflexivity|]); (split; [lia|]); split; auto;
    constructor; auto; now repeat split.
Qed.

Lemma SentInv_step m a : SentInv m -> SentInv (step cfg pos m a).
Proof.
  intros (Hc & Hb & Ha). destruct a as [|i w]; unfold step.
  - destruct (intervalActive m) eqn:Hia; [|now repeat split].
    unfold SentInv; simpl. split; [|now split].
    rewrite countPc_app, countPc_cons. unfold tickStart.
    change (countPc awaitingAllowance []) with 0%nat.
    remember (sold m) as sd. destruct sd; [|destruct (_ && _)]; simpl in *; lia.
  - destruct (ticks m !! i) as [pc|] eqn:Hl; [|now repeat split].
    destruct (tickSegment cfg pos w pc m) as [pc' m'] eqn:Hseg.
    pose proof (countPc_lookup_le awaitingAllowance _ _ _ Hl) as Hle.
    pose proof (countPc_insert awaitingAllowance _ _ _ pc' Hl) as Hins.
    destruct (tickSegment_SentInv _ _ _ _ _
                (countPc awaitingAllowance (ticks m) - Nat.b2n (awaitingAllowance pc))
                Hseg ltac:(lia) Hb Ha) as (Ht & Hc' & Hb' & Ha').
    unfold SentInv; simpl. rewrite Ht. split; [lia | now split].
Qed.

(** X18. Over the whole life of a position the sell path asks for one
    approval at most, of the router and without limit, and every
    transaction it hands to the broadcaster sells the whole balance read
    after the buy, accepts any output and pays 0.05 gwei for gas. *)
Theorem sell_path_sends (token_ : string) (w0 : World) (g : Gate.State) (n : Z)
  (m : Monitor) (actions : list Action) :
  scheduleSellAfterBuy cfg token_ (tokenIsToken1 pos) w0 g n = Started pos m ->
  let m' := run cfg pos actions m in
  (length (approvals m') <= 1)%nat /\
  Forall unlimitedForRouter (approvals m') /\
  Forall sellsWholeBalance (broadcasts m').
Proof.
  intros Hstart m'.
  assert (H0 : SentInv m).
  { destruct (Started_fresh _ _ _ _ _ _ _ _ Hstart) as (_ & Ht & Ha & Hb).
    unfold SentInv. rewrite Ht, Ha, Hb. simpl. split; [lia|]. split; constructor. }
  assert (H : SentInv (run cfg pos actions m)).
  { clear Hstart m'. revert m H0.
    induction actions as [|a l IH]; intros m H0; simpl; [exact H0|].
    apply IH, SentInv_step, H0. }
  destruct H as (Hc & Hb & Ha). subst m'. split; [|now split].
  destruct (sold (run cfg pos actions m)); simpl in Hc; lia.
Qed.

(** *** A sell whose approval does not throw *)

(** The allowance read and the approval answer in this world. *)
Definition approvalAnswers (a : Action) : bool :=
  match a with
  | Fire => true
  | Resume _ w =>
      match allowance w with Some _ => true | None => false end
      && approveSent w && approveMined w
  end.

Definition inExecuteSell (pc : TickPc) : bool := inSell pc || broadcasting pc.

Definition rejectedTick (pc : TickPc) : bool :=
  match pc with TickRejected => true | _ => false end.

Definition Releasing (m : Monitor) : Prop :=
  (sold m = true -> (1 <= countPc inExecuteSell (ticks m))%nat \/ gate m = Gate.unlock) /\
  countPc rejectedTick (ticks m) = 0%nat.

Lemma tickSegment_Releasing w pc m pc' m' (k : nat) :
  tickSegment cfg pos w pc m = (pc', m') ->
  approvalAnswers (Resume 0 w) = true ->
  (sold m = true -> (1 <= k + Nat.b2n (inExecuteSell pc))%nat \/ gate m = Gate.unlock) ->
  rejectedTick pc = false ->
  ticks m' = ticks m /\
  (sold m' = true -> (1 <= k + Nat.b2n (inExecuteSell pc'))%nat \/ gate m' = Gate.unlock) /\
  rejectedTick pc' = false.
Proof.
  intros Hseg Hw Hr Hpc. simpl in Hw.
  apply andb_true_iff in Hw as [Hw Hmined]. apply andb_true_iff in Hw as [Hallow Hsent].
  destruct m as [g n s ia hp rs ap bc tk]; simpl in *.
  destruct (allowance w) as [allowed|] eqn:Hal; [clear Hallow|discriminate].
  destruct s; destruct pc; try discriminate; tick_cases Hseg; simpl in *;
    try congruence;
    (split; [reflexivity|]); (split; [|reflexivity]); intros;
    first [ left; lia | right; reflexivity | apply Hr; reflexivity | discriminate ].
Qed.

Lemma Releasing_step m a :
  approvalAnswers a = true -> Releasing m -> Releasing (step cfg pos m a).
Proof.
  intros Hw (Hr & Hj). destruct a as [|i w]; unfold step.
  - destruct (intervalActive m) eqn:Hia; [|now split].
    unfold Releasing; simpl. rewrite !countPc_app, !countPc_cons. unfold tickStart.
    split.
    + intros Hs. destruct (Hr Hs) as [H|H]; [left; lia | now right].
    + change (countPc rejectedTick []) with 0%nat.
      destruct (sold m); [|destruct (_ && _)]; simpl; lia.
  - destruct (ticks m !! i) as [pc|] eqn:Hl; [|now split].
    destruct (tickSegment cfg pos w pc m) as [pc' m'] eqn:Hseg.
    pose proof (countPc_lookup_le inExecuteSell _ _ _ Hl) as Hle.
    pose proof (countPc_insert inExecuteSell _ _ _ pc' Hl) as Hins.
    pose proof (countPc_lookup_le rejectedTick _ _ _ Hl) as Hle'.
    pose proof (countPc_insert rejectedTick _ _ _ pc' Hl) as Hins'.
    assert (Hpc : rejectedTick pc = false).
    { destruct (rejectedTick pc); [simpl in Hle'; lia | reflexivity]. }
    destruct (tickSegment_Releasing _ _ _ _ _
                (countPc inExecuteSell (ticks m) - Nat.b2n (inExecuteSell pc))
                Hseg Hw) as (Ht & Hr' & Hj').
    + intros Hs. destruct (Hr Hs) as [H|H]; [left; lia | now right].
    + exact Hpc.
    + unfold Releasing; simpl. rewrite Ht. split.
      * intros Hs. destruct (Hr' Hs) as [H|H]; [left; lia | now right].
      * rewrite Hpc, Hj' in Hins'. simpl in Hins'. lia.
Qed.

Lemma ended_not_in_sell (l : list TickPc) :
  Forall (fun pc => ended pc = true) l -> countPc inExecuteSell l = 0%nat.
Proof.
  induction 1 as [|pc l Hpc _ IH]; [reflexivity|].
  rewrite countPc_cons, IH. destruct pc; try discriminate; reflexivity.
Qed.

(** X19. When neither the allowance read nor the approval throws, the
    position ends with the gate released: once it is sold and no tick is
    in flight, whether the sell was broadcast or failed on the way, the
    gate is unlocked, and no tick's promise was ever rejected. *)
Theorem sell_releases_gate_when_approval_answers (token_ : string) (w0 : World)
  (g : Gate.State) (n : Z) (m : Monitor) (actions : list Action) :
  scheduleSellAfterBuy cfg token_ (tokenIsToken1 pos) w0 g n = Started pos m ->
  forallb approvalAnswers actions = true ->
  let m' := run cfg pos actions m in
  (sold m' = true -> Forall (fun pc => ended pc = true) (ticks m') ->
   gate m' = Gate.unlock) /\
  Forall (fun pc => pc <> TickRejected) (ticks m').
Proof.
  intros Hstart Hall m'.
  assert (H0 : Releasing m).
  { destruct (Started_fresh _ _ _ _ _ _ _ _ Hstart) as (Hs & Ht & _).
    unfold Releasing. rewrite Ht, Hs. split; [discriminate | reflexivity]. }
  assert (H : Releasing (run cfg pos actions m)).
  { clear Hstart m'. revert m H0 Hall.
    induction actions as [|a l IH]; intros m H0 Hall; simpl; [exact H0|].
    simpl in Hall. apply andb_true_iff in Hall as [Ha Hl].
    apply IH; [now apply Releasing_step | exact Hl]. }
  destruct H as [Hr Hj]. subst m'. split.
  - intros Hs Hend. destruct (Hr Hs) as [H|H]; [|exact H].
    rewrite (ended_not_in_sell _ Hend) in H. lia.
  - apply Forall_forall. intros pc Hin ->.
    apply list_elem_of_lookup in Hin as [i Hi].
    pose proof (countPc_lookup_le rejectedTick _ _ _ Hi) as Hle.
    simpl in Hle. lia.
Qed.

(** *** Reads that fail *)

(** X20. A tick whose reads all fail changes nothing: after a liquidity read
    that throws it goes on to the price, and after a price read in which
    no provider answers in any round it ends, the shared variables being
    what they were. *)
Theorem failed_reads_change_nothing (w : World) (m : Monitor) :
  pairReserves w = None ->
  (forall i p, priceReplies w i p = None) ->
  tickSegment cfg pos w AwaitLiquidityReserves m = (AwaitPrice, m) /\
  tickSegment cfg pos w AwaitPrice m = (TickDone, m).
Proof.
  intros Hr Hp. simpl. rewrite Hr, (price_of_failed_reads _ _ _ Hp). now split.
Qed.

End Runs.

Definition deaf : World :=
  {| receipt := None; balanceOf := None; priceReplies := fun _ _ => None;
     pairReserves := None; allowance := None; approveSent := false;
     approveMined := false; pendingNonce := None; populated := false;
     signed := false; endpoints := [] |}.

Lemma failed_reads_change_nothing_witness :
  tickSegment Handler.sampleSettings samplePosition deaf AwaitPrice sampleMonitor
  = (TickDone, sampleMonitor).
Proof.
  apply (failed_reads_change_nothing Handler.sampleSettings samplePosition deaf
           sampleMonitor); reflexivity.
Defined.

Lemma gate_held_until_sold_witness :
  gate (run Handler.sampleSettings samplePosition [Fire; Fire; Resume 0 pumped]
          sampleMonitor) = Gate.lock "0xA".
Proof.
  apply (gate_held_until_sold Handler.sampleSettings samplePosition "0xA" calm
           (Gate.lock "0xA") 8 sampleMonitor [Fire; Fire; Resume 0 pumped]).
  - vm_compute. reflexivity.
  - vm_compute. reflexivity.
Defined.

Lemma sell_path_sends_witness :
  (length (approvals (run Handler.sampleSettings samplePosition overlappingTicks
                        sampleMonitor)) <= 1)%nat.
Proof.
  apply (sell_path_sends Handler.sampleSettings samplePosition "0xA" calm
           (Gate.lock "0xA") 8 sampleMonitor overlappingTicks).
  vm_compute. reflexivity.
Defined.

Lemma sell_releases_gate_when_approval_answers_witness :
  gate (run Handler.sampleSettings samplePosition overlappingTicks sampleMonitor)
  = Gate.unlock.
Proof.
  apply (sell_releases_gate_when_approval_answers Handler.sampleSettings samplePosition
           "0xA" calm (Gate.lock "0xA") 8 sampleMonitor overlappingTicks).
  - vm_compute. reflexivity.
  - vm_compute. reflexivity.
  - vm_compute. reflexivity.
  - vm_compute. repeat constructor.
Defined.

End MonitorFacts.

(** ** More on the broadcaster *)

Module BroadcastFacts.
Import JsString Broadcast.

Lemma settledAt_le timeoutMs index e :
  settledAt (submission timeoutMs index e) <= timeoutMs.
Proof.
  unfold submission. destruct (Z.leb_spec (respondsAt e) timeoutMs); [|simpl; lia].
  destruct (reply e) as [h| |m]; [destruct (truthy h)| |]; simpl; lia.
Qed.

Lemma allSettledAt_le timeoutMs (endpoints : list Endpoint) k :
  0 <= allSettledAt (imap (fun i => submission timeoutMs (k + i)) endpoints)
  <= Z.max 0 timeoutMs.
Proof.
  unfold allSettledAt. revert k; induction endpoints as [|e es IH]; intros k; simpl.
  - lia.
  - rewrite (imap_ext _ (fun i => submission timeoutMs (S k + i))).
    2:{ intros i x _. simpl. f_equal. lia. }
    specialize (IH (S k)). pose proof (settledAt_le timeoutMs (k + 0) e). lia.
Qed.

Lemma find_accepted_first timeoutMs (endpoints : list Endpoint) k r :
  List.find accepted (imap (fun i => submission timeoutMs (k + i)) endpoints) = Some r ->
  exists before e after,
    endpoints = (before ++ e :: after)%list /\
    (forall x, In x before -> succeeds timeoutMs x = false) /\
    succeeds timeoutMs e = true /\
    r = submission timeoutMs (k + length before) e.
Proof.
  revert k; induction endpoints as [|e es IH]; intros k; simpl; [discriminate|].
  rewrite accepted_submission.
  destruct (succeeds timeoutMs e) eqn:He.
  - intros [= <-]. exists [], e, es. simpl. repeat split; auto. intros x [].
  - rewrite (imap_ext _ (fun i => submission timeoutMs (S k + i))).
    2:{ intros i x _. simpl. f_equal. lia. }
    intros H. destruct (IH (S k) H) as (before & e' & after & -> & Hb & He' & ->).
    exists (e :: before), e', after. simpl. repeat split; auto.
    + intros x [<-|Hx]; auto.
    + f_equal. lia.
Qed.

Lemma hash_of_succeeding timeoutMs index e :
  succeeds timeoutMs e = true -> reply e = Accepted (hash (submission timeoutMs index e)).
Proof.
  unfold succeeds, submission. intros H. apply andb_true_iff in H as [Ht Hr].
  rewrite Ht. destruct (reply e) as [h| |m]; try discriminate. now rewrite Hr.
Qed.

(** X22. The hash returned is that of the first endpoint, in the order of the
    configuration, that accepts within the timeout; the call lasts no
    longer than the timeout; and with no endpoint configured it fails at
    once. *)
Theorem submitRawTx_first_by_index (rpcProviders : list Endpoint) (timeoutMs : Z) :
  (forall h, snd (submitRawTx rpcProviders timeoutMs) = inl h ->
     exists before e after,
       rpcProviders = (before ++ e :: after)%list /\
       (forall x, In x before -> succeeds timeoutMs x = false) /\
       succeeds timeoutMs e = true /\ reply e = Accepted h) /\
  0 <= fst (submitRawTx rpcProviders timeoutMs) <= Z.max 0 timeoutMs /\
  submitRawTx [] timeoutMs = (0, inr allFailed).
Proof.
  split; [|split; [|reflexivity]].
  - intros h. unfold submitRawTx.
    destruct (List.find accepted _) as [r|] eqn:Hf; simpl; [|discriminate].
    intros [= <-].
    destruct (find_accepted_first timeoutMs rpcProviders 0 r Hf)
      as (before & e & after & Heq & Hb & He & ->).
    exists before, e, after. repeat split; auto. now apply hash_of_succeeding.
  - unfold submitRawTx.
    pose proof (allSettledAt_le timeoutMs rpcProviders 0) as H.
    destruct (List.find accepted _); exact H.
Qed.

End BroadcastFacts.

(** ** The configuration of the class-based bot ([config], [validateConfig]) *)

Module BotConfig.
Import JsString.

Record Config : Type :=
  { bscRpcUrl : string;
    bscWssUrl : string;
    chainId : option Z;
    privateKey : string;
    walletAddress : string;
    buyAmount : string;
    gasLimit : option Z;
    gasPriceMultiplier : option Q;
    maxGasPrice : string;
    slippageBps : option Z;
    fourMemeFactoryAddress : string;
    fourMemeRouterAddress : string;
    pancakeRouterAddress : string;
    pancakeFactoryAddress : string;
    wbnbAddress : string;
    enableFrontrun : bool;
    enableBackrun : bool;
    mevSharePercentage : option Z;
    logLevel : string }.

(** [process.env.KEY || fallback] *)
Definition orElse (v : option string) (fallback : string) : string :=
  match v with
  | Some s => if truthy s then s else fallback
  | None => fallback
  end.

(** [process.env.KEY === 'true'] *)
Definition isTrue (v : option string) : bool :=
  match v with Some s => String.eqb s "true" | None => false end.

Section Load.

(** [parseInt] and [parseFloat]; [None] is the result that is not a
    number. *)
Variable parseInt : string -> option Z.
Variable parseFloat : string -> option Q.

Definition config (env : gmap string string) : Config :=
  {| bscRpcUrl := orElse (env !! "BSC_RPC_URL") "https://bsc-dataseed.binance.org/";
     bscWssUrl := orElse (env !! "BSC_WSS_URL") "wss://bsc-dataseed.binance.org/";
     chainId := parseInt (orElse (env !! "CHAIN_ID") "56");
     privateKey := orElse (env !! "PRIVATE_KEY") "";
     walletAddress := orElse (env !! "WALLET_ADDRESS") "";
     buyAmount := orElse (env !! "BUY_AMOUNT") "0.1";
     gasLimit := parseInt (orElse (env !! "GAS_LIMIT") "500000");
     gasPriceMultiplier := parseFloat (orElse (env !! "GAS_PRICE_MULTIPLIER") "1.2");
     maxGasPrice := orElse (env !! "MAX_GAS_PRICE") "10";
     slippageBps := parseInt (orElse (env !! "SLIPPAGE_BPS") "100");
     fourMemeFactoryAddress := orElse (env !! "FOUR_MEME_FACTORY_ADDRESS") "";
     fourMemeRouterAddress := orElse (env !! "FOUR_MEME_ROUTER_ADDRESS") "";
     pancakeRouterAddress :=
       orElse (env !! "PANCAKE_ROUTER_ADDRESS") "0x10ED43C718714eb63d5aA57B78B54704E256024E";
     pancakeFactoryAddress :=
       orElse (env !! "PANCAKE_FACTORY_ADDRESS") "0xBCfCcbde45cE874adCB698cC183deBcF17952812";
     wbnbAddress :=
       orElse (env !! "WBNB_ADDRESS") "0xbb4CdB9CBd36B01bD1cBaEBF2De08d9173bc095c";
     enableFrontrun := isTrue (env !! "ENABLE_FRONTRUN");
     enableBackrun := isTrue (env !! "ENABLE_BACKRUN");
     mevSharePercentage := parseInt (orElse (env !! "MEV_SHARE_PERCENTAGE") "80");
     logLevel := orElse (env !! "LOG_LEVEL") "info" |}.

End Load.

(** [const required = ['privateKey', 'walletAddress', 'bscRpcUrl']], each
    with [config[key]]. *)
Definition required (c : Config) : list (string * string) :=
  [("privateKey", privateKey c); ("walletAddress", walletAddress c);
   ("bscRpcUrl", bscRpcUrl c)].

(** The loop over the required keys: the error thrown, if any. *)
Fixpoint firstMissing (keys : list (string * string)) : option string :=
  match keys with
  | [] => None
  | (key, v) :: rest =>
      if negb (truthy v) then Some ("Missing required configuration: " ++ key)
      else firstMissing rest
  end.

(** [validateConfig]: the message of the error it throws, [None] when it
    returns. *)
Definition validateConfig (c : Config) : option string :=
  match firstMissing (required c) with
  | Some message => Some message
  | None =>
      if negb (startsWith (privateKey c) "0x") then Some "Private key must start with 0x"
      else if negb (codeUnits (privateKey c) =? 66)%nat
           then Some "Invalid private key length"
           else None
  end.

Lemma orElse_truthy v fallback :
  truthy (orElse v fallback) = true <->
  (exists s, v = Some s /\ s <> "") \/ fallback <> "".
Proof.
  unfold orElse.
  destruct v as [[|a s]|]; destruct fallback as [|b f]; simpl; split; intros H;
    try discriminate; try reflexivity;
    try (left; eexists; split; [reflexivity | discriminate]);
    try (right; discriminate);
    destruct H as [[s' [Heq Hne]]|Hne]; congruence.
Qed.

Lemma orElse_empty_fallback v s :
  orElse v "" = s -> s <> "" -> v = Some s.
Proof.
  unfold orElse. destruct v as [x|]; [|congruence].
  destruct x; simpl; congruence.
Qed.

(** X23. The validation passes exactly when [PRIVATE_KEY] is set to 66
    characters that start with "0x" and [WALLET_ADDRESS] is set and not
    empty. The RPC URL can never fail it, since an unset or empty
    [BSC_RPC_URL] falls back to the public endpoint, and nothing else of
    the configuration (amounts, addresses, gas settings) is looked at. *)
Theorem validateConfig_accepts_iff (parseInt : string -> option Z)
  (parseFloat : string -> option Q) (env : gmap string string) :
  (validateConfig (config parseInt parseFloat env) = None <->
   (exists key, env !! "PRIVATE_KEY" = Some key /\
                startsWith key "0x" = true /\ codeUnits key = 66%nat) /\
   (exists address, env !! "WALLET_ADDRESS" = Some address /\ address <> "")) /\
  validateConfig (config parseInt parseFloat env)
    <> Some "Missing required configuration: bscRpcUrl".
Proof.
  unfold validateConfig, required. cbn [firstMissing config privateKey walletAddress bscRpcUrl].
  assert (Hrpc : truthy (orElse (env !! "BSC_RPC_URL") "https://bsc-dataseed.binance.org/") = true).
  { apply orElse_truthy. right. discriminate. }
  rewrite Hrpc. cbn [negb].
  destruct (truthy (orElse (env !! "PRIVATE_KEY") "")) eqn:Hk; cbn [negb].
  2:{ split; [split; [discriminate|] | discriminate].
      intros [[key [Hkey [Hs Hl]]] _]. unfold orElse in Hk. rewrite Hkey in Hk.
      destruct key; [discriminate|]. simpl in Hk. discriminate. }
  destruct (truthy (orElse (env !! "WALLET_ADDRESS") "")) eqn:Ha; cbn [negb].
  2:{ split; [split; [discriminate|] | discriminate].
      intros [_ [address [Haddr Hne]]]. unfold orElse in Ha. rewrite Haddr in Ha.
      destruct address; [congruence|]. simpl in Ha. discriminate. }
  assert (Hkey : env !! "PRIVATE_KEY" = Some (orElse (env !! "PRIVATE_KEY") "")).
  { apply orElse_empty_fallback; [reflexivity|]. intros H. rewrite H in Hk. discriminate. }
  assert (Haddr : env !! "WALLET_ADDRESS" = Some (orElse (env !! "WALLET_ADDRESS") "")).
  { apply orElse_empty_fallback; [reflexivity|]. intros H. rewrite H in Ha. discriminate. }
  set (key := orElse (env !! "PRIVATE_KEY") "") in *.
  set (address := orElse (env !! "WALLET_ADDRESS") "") in *.
  destruct (startsWith key "0x") eqn:Hs; cbn [negb].
  2:{ split; [split; [discriminate|] | discriminate].
      intros [[key' [Hkey' [Hs' _]]] _]. congruence. }
  destruct (Nat.eqb_spec (codeUnits key) 66) as [Hl|Hl]; cbn [negb].
  - split; [|discriminate]. split; [intros _ | reflexivity]. split.
    + exists key. auto.
    + exists address. split; [exact Haddr|]. intros H. rewrite H in Ha. discriminate.
  - split; [split; [discriminate|] | discriminate].
    intros [[key' [Hkey' [_ Hl']]] _]. congruence.
Qed.

End BotConfig.

(** ** The sell monitor of [new.ts] *)

Module LegacyMonitor.
Import Monitor.

(** [(initialPrice * 110n) / 100n] *)
Definition targetPrice (initialPrice_ : Z) : Z := initialPrice_ * 110 / 100.

(** Where a tick of the interval of [new.ts] stands; the sell is written
    out in the tick itself. *)
Inductive TickPc : Type :=
| AwaitPrice
| AwaitAllowance
| AwaitApprove
| AwaitApproveMined
| AwaitNonce
| AwaitPopulate (nonce_ : Z)
| AwaitSign (nonce_ : Z)
| AwaitBroadcast
| TickDone
| TickRejected.

Record State : Type :=
  { currentNonce : Z;
    sold : bool;
    intervalActive : bool;
    highestPriceSeen : Z;
    approvals : list Approval.ApproveCall;
    broadcasts : list SellTx;
    ticks : list TickPc }.

Definition setTicks (m : State) (t : list TickPc) : State :=
  {| currentNonce := currentNonce m; sold := sold m; intervalActive := intervalActive m;
     highestPriceSeen := highestPriceSeen m; approvals := approvals m;
     broadcasts := broadcasts m; ticks := t |}.

(** The callback up to its first [await]. *)
Definition tickStart (m : State) : TickPc := if sold m then TickDone else AwaitPrice.

(** [catch (err) { sold = false; }] *)
Definition sellFailed (m : State) : TickPc * State :=
  (TickDone,
   {| currentNonce := currentNonce m; sold := false; intervalActive := intervalActive m;
      highestPriceSeen := highestPriceSeen m; approvals := approvals m;
      broadcasts := broadcasts m; ticks := ticks m |}).

(** The segment run when the call a tick awaits answers; the price is
    read by the single-shot [getCurrentPriceFromReserves], from the
    reserves the pair reports at that moment. *)
Definition tickSegment (pos : Position) (w : World) (pc : TickPc) (m : State)
  : TickPc * State :=
  match pc with
  | AwaitPrice =>
      let currentPrice :=
        ReserveOracle.getCurrentPriceFromReserves (pairReserves w) (tokenIsToken1 pos) in
      if currentPrice =? 0 then (TickDone, m)
      else
        let peak :=
          if currentPrice >? highestPriceSeen m then currentPrice
          else highestPriceSeen m in
        if currentPrice >=? targetPrice (initialPrice pos) then
          (AwaitAllowance,
           {| currentNonce := currentNonce m; sold := true; intervalActive := false;
              highestPriceSeen := peak; approvals := approvals m;
              broadcasts := broadcasts m; ticks := ticks m |})
        else
          (TickDone,
           {| currentNonce := currentNonce m; sold := sold m;
              intervalActive := intervalActive m; highestPriceSeen := peak;
              approvals := approvals m; broadcasts := broadcasts m; ticks := ticks m |})
  | AwaitAllowance =>
      match allowance w with
      | None => (TickRejected, m)
      | Some allowed =>
          if Approval.alreadyApproved allowed (tokenBalance pos) then (AwaitNonce, m)
          else
            (AwaitApprove,
             {| currentNonce := currentNonce m; sold := sold m;
                intervalActive := intervalActive m; highestPriceSeen := highestPriceSeen m;
                approvals := {| Approval.spender := Approval.ROUTER;
                                Approval.amount := Approval.MaxUint256 |} :: approvals m;
                broadcasts := broadcasts m; ticks := ticks m |})
      end
  | AwaitApprove => if approveSent w then (AwaitApproveMined, m) else (TickRejected, m)
  | AwaitApproveMined => if approveMined w then (AwaitNonce, m) else (TickRejected, m)
  | AwaitNonce =>
      match pendingNonce w with
      | Some n =>
          (* currentNonce = pending; const nonce = currentNonce++ *)
          (AwaitPopulate n,
           {| currentNonce := n + 1; sold := sold m; intervalActive := intervalActive m;
              highestPriceSeen := highestPriceSeen m; approvals := approvals m;
              broadcasts := broadcasts m; ticks := ticks m |})
      | None => sellFailed m
      end
  | AwaitPopulate nonce_ => if populated w then (AwaitSign nonce_, m) else sellFailed m
  | AwaitSign nonce_ =>
      if signed w then
        (AwaitBroadcast,
         {| currentNonce := currentNonce m; sold := sold m;
            intervalActive := intervalActive m; highestPriceSeen := highestPriceSeen m;
            approvals := approvals m;
            broadcasts := {| amountIn := tokenBalance pos; amountOutMin := 0;
                             nonce := nonce_; gasPrice := 5 * 10 ^ 9 |} :: broadcasts m;
            ticks := ticks m |})
      else sellFailed m
  | AwaitBroadcast =>
      match snd (Broadcast.submitRawTx (endpoints w) 5000) with
      | inl _ => (TickDone, m)
      | inr _ => sellFailed m
      end
  | TickDone => (TickDone, m)
  | TickRejected => (TickRejected, m)
  end.

(** The interval fires, the call awaited by tick [i] answers, or the
    ten-minute timer runs out ([if (!sold) clearInterval(interval)]). *)
Inductive Action : Type :=
| Fire
| Resume (i : nat) (w : World)
| TimeLimit.

Definition step (pos : Position) (m : State) (a : Action) : State :=
  match a with
  | Fire =>
      if intervalActive m then setTicks m (ticks m ++ [tickStart m]) else m
  | Resume i w =>
      match ticks m !! i with
      | None => m
      | Some pc =>
          match tickSegment pos w pc m with
          | (pc', m') => setTicks m' (<[i := pc']> (ticks m'))
          end
      end
  | TimeLimit =>
      if sold m then m
      else {| currentNonce := currentNonce m; sold := sold m; intervalActive := false;
              highestPriceSeen := highestPriceSeen m; approvals := approvals m;
              broadcasts := broadcasts m; ticks := ticks m |}
  end.

Definition run (pos : Position) (actions : list Action) (m : State) : State :=
  fold_left (step pos) actions m.

(** Every call of the sell path answers, the allowance covers the
    balance, an endpoint accepts, and the price meets the target. *)
Definition sellGoesThrough (pos : Position) (w : World) : Prop :=
  let price := ReserveOracle.getCurrentPriceFromReserves (pairReserves w) (tokenIsToken1 pos) in
  price <> 0 /\ targetPrice (initialPrice pos) <= price /\
  (exists allowed, allowance w = Some allowed /\ tokenBalance pos <= allowed) /\
  (exists n, pendingNonce w = Some n) /\
  populated w = true /\ signed w = true /\
  (exists h, snd (Broadcast.submitRawTx (endpoints w) 5000) = inl h).

(** One tick from its price read to the end of its sell. *)
Definition sellBy (i : nat) (w : World) : list Action :=
  [Resume i w; Resume i w; Resume i w; Resume i w; Resume i w; Resume i w].

Ltac unfolded :=
  cbn [tickSegment setTicks ticks sold intervalActive broadcasts currentNonce
       highestPriceSeen approvals fst snd].

Ltac advance Hi Hlt :=
  first [ rewrite Hi
        | rewrite list_lookup_insert_eq by (rewrite ?length_insert; exact Hlt) ];
  unfolded.

Lemma sellBy_broadcasts pos w m i :
  sellGoesThrough pos w ->
  ticks m !! i = Some AwaitPrice ->
  let m' := run pos (sellBy i w) m in
  length (broadcasts m') = S (length (broadcasts m)) /\
  ticks m' = <[i := TickDone]> (ticks m) /\ sold m' = true /\ intervalActive m' = false.
Proof.
  intros (Hp & Ht & (allowed & Ha & Hal) & (n & Hn) & Hpop & Hsig & (h & Hh)) Hi.
  assert (Hlt : (i < length (ticks m))%nat) by (now apply lookup_lt_Some in Hi).
  apply Z.eqb_neq in Hp. apply Z.geb_le in Ht, Hal.
  unfold sellBy, run. cbn [fold_left step].
  advance Hi Hlt. rewrite Hp, Ht. unfolded.
  advance Hi Hlt. rewrite Ha. unfold Approval.alreadyApproved. rewrite Hal. unfolded.
  advance Hi Hlt. rewrite Hn. unfolded.
  advance Hi Hlt. rewrite Hpop. unfolded.
  advance Hi Hlt. rewrite Hsig. unfolded.
  advance Hi Hlt. rewrite Hh. unfolded.
  rewrite !list_insert_insert_eq. now repeat split.
Qed.

(** X24. The monitor of [new.ts] tests [sold] only when a tick starts. Two
    ticks that both started before either read its price both sell: when
    the sell goes through for each, two sell transactions are broadcast
    for the one position. *)
Theorem legacy_overlapping_ticks_sell_twice (pos : Position) (m : State)
  (i j : nat) (w1 w2 : World) :
  i <> j ->
  ticks m !! i = Some AwaitPrice ->
  ticks m !! j = Some AwaitPrice ->
  sellGoesThrough pos w1 -> sellGoesThrough pos w2 ->
  length (broadcasts (run pos (sellBy i w1 ++ sellBy j w2) m))
  = S (S (length (broadcasts m))).
Proof.
  intros Hne Hi Hj H1 H2. unfold run. rewrite fold_left_app.
  destruct (sellBy_broadcasts pos w1 m i H1 Hi) as (Hb & Ht & _).
  fold (run pos (sellBy i w1) m).
  assert (Hj' : ticks (run pos (sellBy i w1) m) !! j = Some AwaitPrice).
  { rewrite Ht. now rewrite list_lookup_insert_ne. }
  destruct (sellBy_broadcasts pos w2 _ j H2 Hj') as (Hb' & _).
  unfold run in *. rewrite Hb', Hb. reflexivity.
Qed.

Definition legacyStart : State :=
  {| currentNonce := 8; sold := false; intervalActive := true;
     highestPriceSeen := 10 ^ 22; approvals := []; broadcasts := []; ticks := [] |}.

(** The price has doubled and the router is already approved. *)
Definition approved : World :=
  {| receipt := receipt pumped; balanceOf := balanceOf pumped;
     priceReplies := priceReplies pumped; pairReserves := pairReserves pumped;
     allowance := Some (2 ^ 256 - 1); approveSent := true; approveMined := true;
     pendingNonce := pendingNonce pumped; populated := true; signed := true;
     endpoints := endpoints pumped |}.

Lemma approved_goes_through : sellGoesThrough samplePosition approved.
Proof.
  unfold sellGoesThrough. cbv zeta.
  split; [vm_compute; discriminate|]. split; [vm_compute; discriminate|].
  split; [exists (2 ^ 256 - 1); split; [reflexivity | vm_compute; discriminate]|].
  split; [exists 8; reflexivity|]. split; [reflexivity|]. split; [reflexivity|].
  exists "0x5e11". vm_compute. reflexivity.
Qed.

Lemma legacy_overlapping_ticks_sell_twice_witness :
  length (broadcasts (run samplePosition (sellBy 0 approved ++ sellBy 1 approved)
                        (step samplePosition (step samplePosition legacyStart Fire) Fire)))
  = 2%nat.
Proof.
  apply (legacy_overlapping_ticks_sell_twice samplePosition
           (step samplePosition (step samplePosition legacyStart Fire) Fire)
           0 1 approved approved).
  - discriminate.
  - reflexivity.
  - reflexivity.
  - exact approved_goes_through.
  - exact approved_goes_through.
Defined.

(** The tick is in the sell, past [clearInterval(interval); sold = true]. *)
Definition selling (pc : TickPc) : bool :=
  match pc with
  | AwaitAllowance | AwaitApprove | AwaitApproveMined | AwaitNonce
  | AwaitPopulate _ | AwaitSign _ | AwaitBroadcast => true
  | _ => false
  end.

(** Nothing sets the interval again, and a tick enters the sell by
    clearing it. *)
Lemma tickSegment_interval pos w pc m pc' m' :
  tickSegment pos w pc m = (pc', m') ->
  ticks m' = ticks m /\
  (intervalActive m = false -> intervalActive m' = false) /\
  (selling pc' = true -> intervalActive m' = false \/ selling pc = true).
Proof.
  intros Hseg. destruct m as [n s ia hp ap bc tk].
  unfold tickSegment, sellFailed in Hseg.
  destruct pc; cbn beta iota zeta in Hseg;
    cbn [currentNonce sold intervalActive highestPriceSeen approvals broadcasts ticks]
      in Hseg;
    repeat match type of Hseg with
           | context [match ?x with _ => _ end] =>
               lazymatch x with
               | context [match _ with _ => _ end] => fail
               | _ => destruct x eqn:?
               end
           end;
    injection Hseg as <- <-;
    cbn [currentNonce sold intervalActive highestPriceSeen approvals broadcasts ticks
         selling];
    (split; [reflexivity|]);
    (split; [intros Hia; first [exact Hia | reflexivity]|]);
    intros Hs; first [discriminate Hs | left; reflexivity | right; reflexivity].
Qed.

(** A tick is in the sell only once the interval is cleared. *)
Definition Cleared (m : State) : Prop :=
  forall j pc, ticks m !! j = Some pc -> selling pc = true -> intervalActive m = false.

Lemma Cleared_step pos m a : Cleared m -> Cleared (step pos m a).
Proof.
  intros HC. destruct a as [|i w|]; unfold step.
  - destruct (intervalActive m) eqn:Hia; [|exact HC].
    intros j pc Hj Hpc. cbn [setTicks ticks intervalActive] in *.
    apply lookup_app_Some in Hj as [Hj|[_ Hj]]; [exact (HC j pc Hj Hpc)|].
    apply list_lookup_singleton_Some in Hj as [_ <-].
    unfold tickStart in Hpc. destruct (sold m); discriminate.
  - destruct (ticks m !! i) as [pc0|] eqn:Hi; [|exact HC].
    destruct (tickSegment pos w pc0 m) as [pc' m'] eqn:Hseg.
    destruct (tickSegment_interval _ _ _ _ _ _ Hseg) as (Ht & Hkeep & Henter).
    intros j pc Hj Hpc. cbn [setTicks ticks intervalActive] in *. rewrite Ht in Hj.
    destruct (decide (i = j)) as [<-|Hne].
    + rewrite list_lookup_insert_eq in Hj by (now apply lookup_lt_Some in Hi).
      injection Hj as <-. destruct (Henter Hpc) as [H|H]; [exact H|].
      apply Hkeep. eapply HC; eauto.
    + rewrite list_lookup_insert_ne in Hj by assumption.
      apply Hkeep. eapply HC; eauto.
  - destruct (sold m); [exact HC|]. intros j pc Hj Hpc. reflexivity.
Qed.

Lemma Cleared_run pos actions m : Cleared m -> Cleared (run pos actions m).
Proof.
  revert m; induction actions as [|a actions IH]; intros m H; simpl; [exact H|].
  apply IH, Cleared_step, H.
Qed.

(** Once the interval is cleared it stays so, and no tick is added. *)
Lemma cleared_for_good pos later m :
  intervalActive m = false ->
  intervalActive (run pos later m) = false /\
  length (ticks (run pos later m)) = length (ticks m).
Proof.
  revert m; induction later as [|a later IH]; intros m Hia; simpl; [auto|].
  assert (H : intervalActive (step pos m a) = false /\
              length (ticks (step pos m a)) = length (ticks m)).
  { destruct a as [|i w|]; unfold step.
    - now rewrite Hia.
    - destruct (ticks m !! i) as [pc0|] eqn:Hi; [|auto].
      destruct (tickSegment pos w pc0 m) as [pc' m'] eqn:Hseg.
      destruct (tickSegment_interval _ _ _ _ _ _ Hseg) as (Ht & Hkeep & _).
      cbn [setTicks ticks intervalActive]. rewrite length_insert, Ht. auto.
    - destruct (sold m); cbn [ticks intervalActive]; auto. }
  destruct H as [H1 H2]. destruct (IH _ H1) as [H3 H4]. split; [exact H3 | congruence].
Qed.

(** X25. In [new.ts] the nonce is taken with [currentNonce++] before the
    transaction is built. In every run of the monitor, a sell whose
    broadcast fails has used up its nonce and leaves the position marked
    unsold with the interval cleared: the interval never fires again and
    no new tick starts. What can still sell is a tick that was in flight
    before the sell began: when it reads a price at the target, and the
    sell goes through, a second transaction is broadcast. *)
Theorem legacy_failed_sell_burns_nonce (pos : Position) (m0 : State)
  (actions : list Action) (i : nat) (w : World) (n : Z) :
  ticks m0 = [] ->
  ticks (run pos actions m0) !! i = Some AwaitNonce ->
  pendingNonce w = Some n -> populated w = true -> signed w = true ->
  (forall e, In e (endpoints w) -> Broadcast.succeeds 5000 e = false) ->
  let m := run pos actions m0 in
  let m' := run pos [Resume i w; Resume i w; Resume i w; Resume i w] m in
  currentNonce m' = n + 1 /\
  (exists tx, broadcasts m' = tx :: broadcasts m /\ nonce tx = n) /\
  sold m' = false /\
  ticks m' = <[i := TickDone]> (ticks m) /\
  (forall later,
      intervalActive (run pos later m') = false /\
      length (ticks (run pos later m')) = length (ticks m)) /\
  (forall j w2,
      ticks m !! j = Some AwaitPrice -> sellGoesThrough pos w2 ->
      length (broadcasts (run pos (sellBy j w2) m')) = S (S (length (broadcasts m)))).
Proof.
  intros Hstart Hi Hn Hpop Hsig Hfail m m'.
  fold m in Hi.
  assert (Hlt : (i < length (ticks m))%nat) by (now apply lookup_lt_Some in Hi).
  assert (Hia : intervalActive m = false).
  { apply (Cleared_run pos actions m0) with (j := i) (pc := AwaitNonce);
      [|exact Hi | reflexivity].
    intros j pc Hj. rewrite Hstart in Hj. discriminate. }
  assert (Hb : snd (Broadcast.submitRawTx (endpoints w) 5000) = inr Broadcast.allFailed).
  { now apply Broadcast.submitRawTx_fails_iff. }
  assert (Hm' : currentNonce m' = n + 1 /\
                (exists tx, broadcasts m' = tx :: broadcasts m /\ nonce tx = n) /\
                sold m' = false /\ ticks m' = <[i := TickDone]> (ticks m) /\
                intervalActive m' = false).
  { subst m'. clearbody m. unfold run. cbn [fold_left step].
    advance Hi Hlt. rewrite Hn. unfolded.
    advance Hi Hlt. rewrite Hpop. unfolded.
    advance Hi Hlt. rewrite Hsig. unfolded.
    advance Hi Hlt. rewrite Hb. unfold sellFailed. unfolded. rewrite Hia.
    rewrite !list_insert_insert_eq.
    split; [reflexivity|]. split; [eexists; split; reflexivity|]. now repeat split. }
  destruct Hm' as (H1 & H2 & H3 & H4 & H5).
  split; [exact H1|]. split; [exact H2|]. split; [exact H3|]. split; [exact H4|].
  split.
  - intros later. destruct (cleared_for_good pos later m' H5) as [Ha Hl].
    split; [exact Ha|]. rewrite Hl, H4. apply length_insert.
  - intros j w2 Hj Hgo.
    assert (Hne : i <> j) by (intros ->; rewrite Hi in Hj; discriminate).
    assert (Hj' : ticks m' !! j = Some AwaitPrice).
    { rewrite H4. now rewrite list_lookup_insert_ne. }
    destruct (sellBy_broadcasts pos w2 m' j Hgo Hj') as (Hlen & _).
    rewrite Hlen. destruct H2 as (tx & -> & _). reflexivity.
Qed.

(** Every call answers but the one endpoint, which refuses. *)
Definition refusing : World :=
  {| receipt := receipt approved; balanceOf := balanceOf approved;
     priceReplies := priceReplies approved; pairReserves := pairReserves approved;
     allowance := allowance approved; approveSent := true; approveMined := true;
     pendingNonce := Some 8; populated := true; signed := true;
     endpoints := [ {| Broadcast.respondsAt := 40;
                       Broadcast.reply := Broadcast.Rejected "insufficient funds" |} ] |}.

(** Two ticks start; the first reads the price and goes as far as the
    nonce read of its sell, the second is still at its price read. *)
Definition firstTickSells : list Action :=
  [Fire; Fire; Resume 0 refusing; Resume 0 refusing].

Lemma legacy_failed_sell_burns_nonce_witness :
  let m := run samplePosition firstTickSells legacyStart in
  let m' := run samplePosition
              [Resume 0 refusing; Resume 0 refusing; Resume 0 refusing; Resume 0 refusing]
              m in
  currentNonce m' = 8 + 1 /\ sold m' = false /\
  length (broadcasts (run samplePosition (sellBy 1 approved) m')) = 2%nat.
Proof.
  destruct (legacy_failed_sell_burns_nonce samplePosition legacyStart firstTickSells
              0 refusing 8)
    as (H1 & _ & H2 & _ & _ & H3).
  - reflexivity.
  - vm_compute. reflexivity.
  - reflexivity.
  - reflexivity.
  - reflexivity.
  - intros e [<-|[]]. reflexivity.
  - split; [exact H1|]. split; [exact H2|].
    apply (H3 1%nat approved); [vm_compute; reflexivity | exact approved_goes_through].
Defined.

End LegacyMonitor.

(** ** The class-based bot: deduplication of trades ([SniperBot]) *)

Module SniperBot.
Import JsString.

(** What reaches the bot: a token reported by the token monitor
    ([handleNewToken]), or a pair reported by the pair monitor
    ([handleNewPair]). *)
Inductive Incoming : Type :=
| NewToken (address : string)
| NewPair (token0 token1 : string).

(** Where a handler stands. *)
Inductive Pc : Type :=
| Start
| AwaitEnrich (targetToken : string)   (* name, symbol and decimals being read *)
| AwaitBuy                             (* [tradeExecutor.buyToken] running *)
| Done.

(** A handler with the answer [buyToken] will give it: whether the trade
    succeeded, or [None] when the call throws. *)
Record Instance : Type := { incoming : Incoming; bought : option bool; pc : Pc }.

Record Bot : Type :=
  { tradedTokens : gset string;
    buys : list string;               (* the addresses handed to [buyToken] *)
    successfulTrades : nat;
    failedTrades : nat;
    handlers : list Instance }.

(** [handleNewPair]: the leg that is not WBNB; the second test
    overwrites the first. *)
Definition targetToken (wbnb token0 token1 : string) : string :=
  let t := if String.eqb (toLowerCase token0) (toLowerCase wbnb) then token1 else "" in
  if String.eqb (toLowerCase token1) (toLowerCase wbnb) then token0 else t.

(** [handleNewToken] up to the call of [buyToken]. *)
Definition handleNewToken (address : string) (b : Bot) : Pc * Bot :=
  if bool_decide (address ∈ tradedTokens b) then (Done, b)
  else
    (AwaitBuy,
     {| tradedTokens := {[address]} ∪ tradedTokens b;
        buys := buys b ++ [address];
        successfulTrades := successfulTrades b;
        failedTrades := failedTrades b;
        handlers := handlers b |}).

Definition segment (wbnb : string) (h : Instance) (b : Bot) : Pc * Bot :=
  match pc h with
  | Start =>
      match incoming h with
      | NewToken address => handleNewToken address b
      | NewPair token0 token1 =>
          let target := targetToken wbnb token0 token1 in
          if negb (truthy target) then (Done, b)
          else if bool_decide (target ∈ tradedTokens b) then (Done, b)
          else (AwaitEnrich target, b)
      end
  | AwaitEnrich target => handleNewToken target b
  | AwaitBuy =>
      match bought h with
      | Some true =>
          (Done,
           {| tradedTokens := tradedTokens b; buys := buys b;
              successfulTrades := S (successfulTrades b);
              failedTrades := failedTrades b; handlers := handlers b |})
      | _ =>
          (Done,
           {| tradedTokens := tradedTokens b; buys := buys b;
              successfulTrades := successfulTrades b;
              failedTrades := S (failedTrades b); handlers := handlers b |})
      end
  | Done => (Done, b)
  end.

Definition step (wbnb : string) (b : Bot) (i : nat) : Bot :=
  match handlers b !! i with
  | None => b
  | Some h =>
      match segment wbnb h b with
      | (pc', b') =>
          {| tradedTokens := tradedTokens b'; buys := buys b';
             successfulTrades := successfulTrades b'; failedTrades := failedTrades b';
             handlers := <[i := {| incoming := incoming h; bought := bought h; pc := pc' |}]>
                           (handlers b') |}
      end
  end.

Definition initial (events : list (Incoming * option bool)) : Bot :=
  {| tradedTokens := ∅; buys := []; successfulTrades := 0; failedTrades := 0;
     handlers := List.map (fun e => {| incoming := fst e; bought := snd e; pc := Start |})
                          events |}.

Definition run (wbnb : string) (schedule : list nat) (b : Bot) : Bot :=
  fold_left (step wbnb) schedule b.

Definition isBuy (p : Pc) : bool :=
  match p with AwaitBuy => true | _ => false end.

(** The handler awaits [buyToken]. *)
Definition buying (h : Instance) : bool := isBuy (pc h).

Definition Deduplicated (b : Bot) : Prop :=
  NoDup (buys b) /\ (forall a, In a (buys b) -> a ∈ tradedTokens b) /\
  (successfulTrades b + failedTrades b + length (List.filter buying (handlers b))
   = length (buys b))%nat.

Lemma buying_insert (l : list Instance) i h p' :
  l !! i = Some h ->
  (length (List.filter buying
             (<[i := {| incoming := incoming h; bought := bought h; pc := p' |}]> l))
   + Nat.b2n (isBuy (pc h))
   = length (List.filter buying l) + Nat.b2n (isBuy p'))%nat.
Proof.
  revert i; induction l as [|x l IH]; intros i Hi; [discriminate|].
  destruct i as [|i]; simpl in Hi.
  - injection Hi as ->. simpl. unfold buying. simpl.
    destruct (isBuy (pc h)), (isBuy p'); simpl; lia.
  - simpl. specialize (IH i Hi). destruct (buying x); simpl; lia.
Qed.

Lemma handleNewToken_Deduplicated address b p b' :
  handleNewToken address b = (p, b') ->
  NoDup (buys b) -> (forall a, In a (buys b) -> a ∈ tradedTokens b) ->
  NoDup (buys b') /\ (forall a, In a (buys b') -> a ∈ tradedTokens b') /\
  handlers b' = handlers b /\
  successfulTrades b' = successfulTrades b /\ failedTrades b' = failedTrades b /\
  length (buys b') = (length (buys b) + Nat.b2n (isBuy p))%nat.
Proof.
  unfold handleNewToken. intros H Hnd Hsub.
  destruct (bool_decide (address ∈ tradedTokens b)) eqn:Hd; injection H as <- <-.
  - simpl. repeat split; auto; lia.
  - apply bool_decide_eq_false in Hd. simpl. split; [|split].
    + apply NoDup_app. split; [exact Hnd|]. split; [|apply NoDup_singleton].
      intros a Ha ->%list_elem_of_singleton. apply Hd, Hsub. now apply list_elem_of_In.
    + intros a Ha. apply in_app_or in Ha as [Ha|[<-|[]]]; [|set_solver].
      specialize (Hsub a Ha). set_solver.
    + rewrite length_app. simpl. repeat split; lia.
Qed.

Lemma segment_Deduplicated wbnb h b p b' :
  segment wbnb h b = (p, b') ->
  NoDup (buys b) -> (forall a, In a (buys b) -> a ∈ tradedTokens b) ->
  NoDup (buys b') /\ (forall a, In a (buys b') -> a ∈ tradedTokens b') /\
  handlers b' = handlers b /\
  (successfulTrades b' + failedTrades b' + Nat.b2n (isBuy p) + length (buys b)
   = successfulTrades b + failedTrades b + Nat.b2n (isBuy (pc h)) + length (buys b'))%nat.
Proof.
  unfold segment. intros Hseg Hnd Hsub.
  destruct (pc h) eqn:Hpc.
  - destruct (incoming h) as [address|token0 token1].
    + destruct (handleNewToken_Deduplicated _ _ _ _ Hseg Hnd Hsub)
        as (Hnd' & Hsub' & Hh & Hs & Hf & Hlen).
      repeat split; auto. simpl. lia.
    + destruct (negb _); [|destruct (bool_decide _)]; injection Hseg as <- <-;
        repeat split; auto.
  - destruct (handleNewToken_Deduplicated _ _ _ _ Hseg Hnd Hsub)
      as (Hnd' & Hsub' & Hh & Hs & Hf & Hlen).
    repeat split; auto. simpl. lia.
  - destruct (bought h) as [[]|]; injection Hseg as <- <-; simpl;
      repeat split; auto; lia.
  - injection Hseg as <- <-. repeat split; auto.
Qed.

Lemma Deduplicated_step wbnb b i : Deduplicated b -> Deduplicated (step wbnb b i).
Proof.
  intros (Hnd & Hsub & Hcount). unfold step.
  destruct (handlers b !! i) as [h|] eqn:Hi; [|now repeat split].
  destruct (segment wbnb h b) as [pc' b'] eqn:Hseg.
  pose proof (buying_insert _ _ _ pc' Hi) as Hins.
  destruct (segment_Deduplicated _ _ _ _ _ Hseg Hnd Hsub) as (Hnd' & Hsub' & Hh & Hrel).
  unfold Deduplicated; simpl. rewrite Hh.
  split; [exact Hnd'|]. split; [exact Hsub'|]. lia.
Qed.

(** X26. No token is bought twice: however the handlers of token and pair
    events interleave, the addresses handed to [buyToken] are pairwise
    distinct and all recorded as traded, and the two trade counters
    together count the buys that have come back. *)
Theorem no_token_bought_twice (wbnb : string) (events : list (Incoming * option bool))
  (schedule : list nat) :
  let b := run wbnb schedule (initial events) in
  NoDup (buys b) /\
  (forall a, In a (buys b) -> a ∈ tradedTokens b) /\
  (successfulTrades b + failedTrades b
   + length (List.filter buying (handlers b)) = length (buys b))%nat.
Proof.
  intros b.
  assert (H : Deduplicated b).
  { subst b. unfold run.
    assert (H0 : Deduplicated (initial events)).
    { unfold Deduplicated, initial; simpl. split; [constructor|].
      split; [intros a []|].
      induction events as [|e events IH]; simpl; [reflexivity | exact IH]. }
    revert H0. generalize (initial events).
    induction schedule as [|i schedule IH]; intros b0 H0; simpl; [exact H0|].
    apply IH, Deduplicated_step, H0. }
  exact H.
Qed.

End SniperBot.

(** ** The class-based bot: pending sales ([AutoSellManager]) *)

Module AutoSell.

Record TokenInfo : Type :=
  { address : string; name : string; symbol : string; decimals : Z;
    creator : string; blockNumber : Z; timestamp : Z; txHash : string }.

Inductive StrategyType : Type := ProfitTarget | TimeBased | TrailingStop.

Record SellStrategy : Type :=
  { type : StrategyType;
    profitPercentage : option Q;
    timeMs : option Z;
    trailingPercentage : option Q }.

Record PendingSale : Type :=
  { tokenInfo : TokenInfo;
    purchasePrice : string;
    amountBought : string;
    strategy : SellStrategy;
    scheduledAt : Z;
    highestPrice : option string }.

(** [pendingSales] and whether [monitoringInterval] is set. *)
Record Manager : Type :=
  { pendingSales : gmap string PendingSale; monitoring : bool }.

Definition fresh : Manager := {| pendingSales := ∅; monitoring := false |}.

(** [if (this.pendingSales.size === 0) this.stopMonitoring()] *)
Definition stopIfIdle (sales : gmap string PendingSale) (running : bool) : Manager :=
  if bool_decide (sales = ∅) then {| pendingSales := sales; monitoring := false |}
  else {| pendingSales := sales; monitoring := running |}.

(** [scheduleSell], called at time [now]: the sale is filed under the
    token's address and the interval is started unless it runs. *)
Definition scheduleSell (info : TokenInfo) (price amount : string)
  (how : SellStrategy) (now : Z) (m : Manager) : Manager :=
  let sale :=
    {| tokenInfo := info; purchasePrice := price; amountBought := amount;
       strategy := how; scheduledAt := now; highestPrice := Some price |} in
  {| pendingSales := <[address info := sale]> (pendingSales m); monitoring := true |}.

(** [cancelSell]: whether a sale was pending, and the manager after. *)
Definition cancelSell (tokenAddress : string) (m : Manager) : bool * Manager :=
  match pendingSales m !! tokenAddress with
  | Some _ => (true, stopIfIdle (delete tokenAddress (pendingSales m)) (monitoring m))
  | None => (false, m)
  end.

(** The end of [executeSell], once [sellToken] has answered. *)
Definition afterSell (tokenAddress : string) (m : Manager) : Manager :=
  stopIfIdle (delete tokenAddress (pendingSales m)) (monitoring m).

Definition shutdown (m : Manager) : Manager := fresh.

(** The calls that touch the map or the interval. A tick that only
    raises the [highestPrice] of a sale changes neither and is left out;
    [Sold] may come at any moment, as the sell it ends was awaited. *)
Inductive Op : Type :=
| Schedule (info : TokenInfo) (price amount : string) (how : SellStrategy) (now : Z)
| Cancel (tokenAddress : string)
| Sold (tokenAddress : string)
| Shutdown.

Definition apply (m : Manager) (op : Op) : Manager :=
  match op with
  | Schedule info price amount how now => scheduleSell info price amount how now m
  | Cancel tokenAddress => snd (cancelSell tokenAddress m)
  | Sold tokenAddress => afterSell tokenAddress m
  | Shutdown => shutdown m
  end.

Definition Consistent (m : Manager) : Prop :=
  monitoring m = true <-> pendingSales m <> ∅.

Lemma stopIfIdle_Consistent sales running :
  (running = true \/ sales = ∅) -> Consistent (stopIfIdle sales running).
Proof.
  intros H. unfold stopIfIdle, Consistent.
  destruct (bool_decide (sales = ∅)) eqn:Hd; simpl.
  - apply bool_decide_eq_true in Hd. split; [discriminate | congruence].
  - apply bool_decide_eq_false in Hd. destruct H as [->|H]; [tauto | congruence].
Qed.

Lemma apply_Consistent m op : Consistent m -> Consistent (apply m op).
Proof.
  intros Hc. destruct op as [info price amount how now|a|a|]; simpl.
  - unfold Consistent; simpl. split; [intros _|reflexivity].
    apply insert_non_empty.
  - unfold cancelSell. destruct (pendingSales m !! a) as [sale|] eqn:Hl; [|exact Hc].
    simpl. apply stopIfIdle_Consistent. left. apply Hc. intros He.
    rewrite He in Hl. rewrite lookup_empty in Hl. discriminate.
  - unfold afterSell. apply stopIfIdle_Consistent.
    destruct (monitoring m) eqn:Hm; [now left|right].
    assert (He : pendingSales m = ∅).
    { destruct (decide (pendingSales m = ∅)) as [|Hne]; [assumption|].
      apply Hc in Hne. congruence. }
    rewrite He. apply delete_empty.
  - unfold Consistent; simpl. split; [discriminate | congruence].
Qed.

(** X27. The five-second interval runs exactly while a sale is pending,
    after any sequence of scheduling, cancelling, completed sells and
    shutdowns; a token has one pending sale at most, the last scheduled;
    and cancelling reports whether there was one and removes it. *)
Theorem interval_runs_iff_sales_pending (ops : list Op) :
  let m := fold_left apply ops fresh in
  (monitoring m = true <-> pendingSales m <> ∅) /\
  (forall info price amount how now,
     pendingSales (scheduleSell info price amount how now m) !! address info =
     Some {| tokenInfo := info; purchasePrice := price; amountBought := amount;
             strategy := how; scheduledAt := now; highestPrice := Some price |}) /\
  (forall a,
     fst (cancelSell a m) = bool_decide (is_Some (pendingSales m !! a)) /\
     pendingSales (snd (cancelSell a m)) !! a = None).
Proof.
  intros m. split; [|split].
  - subst m. assert (H0 : Consistent fresh).
    { unfold Consistent, fresh; simpl. split; [discriminate | congruence]. }
    revert H0. generalize fresh.
    induction ops as [|op ops IH]; intros m0 H0; simpl; [exact H0|].
    apply IH, apply_Consistent, H0.
  - intros info price amount how now. simpl. apply lookup_insert_eq.
  - intros a. unfold cancelSell.
    destruct (pendingSales m !! a) as [sale|] eqn:Hl; simpl.
    + split; [reflexivity|].
      unfold stopIfIdle. destruct (bool_decide _); simpl; apply lookup_delete_eq.
    + split; [reflexivity | exact Hl].
Qed.

End AutoSell.

(** ** The class-based bot: the trade executor ([TradeExecutor]) *)

Module TradeExecutor.
Import JsString.

(** [calculateMinAmountOut]: [amounts] is what [getAmountsOut] returns
    ([None]: it throws), [slippageBps] the configured basis points
    ([None]: not a number, which [BigNumber.from] refuses). Every failure
    inside the [try] gives a zero minimum. [BigNumber] division rounds
    towards zero. *)
Definition calculateMinAmountOut (amounts : option (list Z)) (slippageBps : option Z) : Z :=
  match amounts with
  | None => 0
  | Some amounts =>
      match List.last (List.map Some amounts) None with
      | None => 0
      | Some amountOut =>
          match slippageBps with
          | None => 0
          | Some bps => Z.quot (amountOut * (10000 - bps)) 10000
          end
      end
  end.

(** X28. With a slippage between 0 and 10000 basis points the minimum output
    is the quoted output less the slippage share, rounded down: never
    negative, never above the quote, the quote itself at 0 and nothing at
    10000 basis points. When the quote cannot be read the minimum is
    zero, so the swap accepts any output. *)
Theorem calculateMinAmountOut_bounds (path : list Z) (amountOut bps : Z) :
  0 <= amountOut -> 0 <= bps <= 10000 ->
  let minOut := calculateMinAmountOut (Some (path ++ [amountOut])%list) (Some bps) in
  0 <= minOut <= amountOut /\
  amountOut * (10000 - bps) - 10000 < 10000 * minOut <= amountOut * (10000 - bps) /\
  calculateMinAmountOut (Some (path ++ [amountOut])%list) (Some 0) = amountOut /\
  calculateMinAmountOut (Some (path ++ [amountOut])%list) (Some 10000) = 0 /\
  calculateMinAmountOut None (Some bps) = 0 /\
  calculateMinAmountOut (Some []) (Some bps) = 0.
Proof.
  intros Ha Hb. unfold calculateMinAmountOut.
  rewrite List.map_app. simpl List.map. rewrite List.last_last. cbv zeta.
  assert (Hn : 0 <= amountOut * (10000 - bps)) by nia.
  rewrite !Z.quot_div_nonneg by lia.
  pose proof (Z.div_mod (amountOut * (10000 - bps)) 10000 ltac:(lia)) as Hd.
  pose proof (Z.mod_pos_bound (amountOut * (10000 - bps)) 10000 ltac:(lia)) as Hm.
  split; [|split; [|split; [|split; [|split]]]]; try reflexivity.
  - split; [apply Z.div_pos; lia|].
    apply Z.div_le_upper_bound; [lia | nia].
  - lia.
  - replace (amountOut * (10000 - 0)) with (amountOut * 10000) by lia.
    rewrite ?Z.quot_div_nonneg by lia. apply Z.div_mul. lia.
  - replace (amountOut * (10000 - 10000)) with 0 by lia. reflexivity.
Qed.

Lemma calculateMinAmountOut_bounds_witness :
  calculateMinAmountOut (Some ([10 ^ 18] ++ [123456789])%list) (Some 0) = 123456789.
Proof.
  apply (calculateMinAmountOut_bounds [10 ^ 18] 123456789 100); lia.
Defined.



Definition maxRetries : nat := 3.







End TradeExecutor.

(** ** The handler after the buy *)

Module BuyOutcome.
Import JsString.

(** What the handler does once the [executeSwap] it awaits has settled. *)
Inductive Next : Type :=
| StartsMonitor (txHash : string)   (* [scheduleSellAfterBuy] is called *)
| Unlocked                          (* the [else] branch: the gate is unlocked *)
| Thrown.                           (* the [await] throws: nothing after it runs *)

(** [const result = await executeSwap(..)] and the [if] that follows it,
    from gate [g]. *)
Definition afterSwap (r : Swap.Result) (g : Gate.State) : Next * Gate.State :=
  match r with
  | Swap.Success txHash =>
      if truthy txHash then (StartsMonitor txHash, g) else (Unlocked, Gate.unlock)
  | Swap.Failure _ => (Unlocked, Gate.unlock)
  | Swap.Rejected => (Thrown, g)
  end.

Lemma submitRawTx_hash_truthy (eps : list Broadcast.Endpoint) (t : Z) (h : string) :
  snd (Broadcast.submitRawTx eps t) = inl h -> truthy h = true.
Proof.
  unfold Broadcast.submitRawTx.
  destruct (List.find Broadcast.accepted _) as [r|] eqn:Hf; simpl; [|discriminate].
  intros [= <-]. apply find_some in Hf as [_ Ha].
  unfold Broadcast.accepted in Ha. now apply andb_true_iff in Ha as [_ Ha].
Qed.

Lemma executeSwap_hash_truthy wallet newToken deadlineMinutes competitiveGas w nonce_ h :
  Swap.result (Swap.executeSwap wallet newToken deadlineMinutes competitiveGas w nonce_)
  = Swap.Success h ->
  truthy h = true.
Proof.
  unfold Swap.executeSwap.
  destruct (Swap.parsedAmount w) as [m|amountIn].
  { unfold Swap.onError.
    destruct (Swap.mentionsNonce m); [destruct (Swap.pendingNonce w)|]; discriminate. }
  destruct (if competitiveGas then _ else _) as [m|gas].
  { unfold Swap.onError.
    destruct (Swap.mentionsNonce m); [destruct (Swap.pendingNonce w)|]; discriminate. }
  destruct (Swap.populateError w) as [m|].
  { unfold Swap.onError.
    destruct (Swap.mentionsNonce m); [destruct (Swap.pendingNonce w)|]; discriminate. }
  destruct (Swap.signedTx w) as [m|signed].
  { unfold Swap.onError.
    destruct (Swap.mentionsNonce m); [destruct (Swap.pendingNonce w)|]; discriminate. }
  destruct (snd (Broadcast.submitRawTx (Swap.endpoints w) 5000)) as [h'|m] eqn:Hb.
  - simpl. intros [= <-]. exact (submitRawTx_hash_truthy _ _ _ Hb).
  - unfold Swap.onError.
    destruct (Swap.mentionsNonce m); [destruct (Swap.pendingNonce w)|]; discriminate.
Qed.

(** X10. After the buy the gate is released exactly when [executeSwap]
    reports a failure. A buy that was broadcast always starts the sell
    monitor with the gate held, its hash never being empty. When the
    promise of [executeSwap] is rejected, which is when the nonce
    resynchronisation in its [catch] throws, the handler stops at its
    [await] with the gate still locked on the token: no branch unlocks
    it and no monitor is started. *)
Theorem gate_after_buy (wallet newToken : string) (w : Swap.World) (nonce_ : Z) :
  let r := Swap.executeSwap wallet newToken 3 false w nonce_ in
  let out := afterSwap (Swap.result r) (Gate.lock newToken) in
  match Swap.result r with
  | Swap.Success txHash => out = (StartsMonitor txHash, Gate.lock newToken)
  | Swap.Failure _ => out = (Unlocked, Gate.unlock)
  | Swap.Rejected =>
      out = (Thrown, Gate.lock newToken) /\ Swap.pendingNonce w = None
  end /\
  (snd out = Gate.unlock <-> exists message, Swap.result r = Swap.Failure message).
Proof.
  intros r out. subst out.
  pose proof (executeSwap_hash_truthy wallet newToken 3 false w nonce_) as Hh.
  fold r in Hh.
  assert (Hrej : Swap.result r = Swap.Rejected -> Swap.pendingNonce w = None).
  { subst r. unfold Swap.executeSwap.
    repeat match goal with
           | |- context [Swap.onError ?w ?n ?tx ?raw ?m] =>
               let H := fresh in
               pose proof (Swap.onError_discipline w n tx raw m) as H; cbv zeta in H;
               destruct (Swap.result (Swap.onError w n tx raw m));
               [contradiction | discriminate | intros _; exact (proj1 H)]
           | |- context [match ?x with _ => _ end] =>
               lazymatch x with
               | context [match _ with _ => _ end] => fail
               | _ => destruct x eqn:?
               end
           end; simpl; discriminate. }
  destruct (Swap.result r) as [h|m|] eqn:Hr; simpl.
  - rewrite (Hh h eq_refl). split; [reflexivity|].
    split; [discriminate | intros [m Hm]; discriminate].
  - split; [reflexivity|]. split; [eauto | reflexivity].
  - split; [split; [reflexivity | now apply Hrej]|].
    split; [discriminate | intros [m Hm]; discriminate].
Qed.

(** The nonce read answers nothing and signing fails with a nonce
    complaint. *)
Definition resyncFails : Swap.World :=
  {| Swap.nowMs := 1700000000500;
     Swap.parsedAmount := inr (10 ^ 15);
     Swap.feeData := inr None;
     Swap.populateError := None;
     Swap.signedTx := inl "invalid nonce";
     Swap.endpoints := [];
     Swap.pendingNonce := None |}.

(** A monitor that does not start leaves the gate unlocked; here the
    receipt of the buy reports a revert. *)
Definition reverted : Monitor.World :=
  {| Monitor.receipt := Some (Some 0);
     Monitor.balanceOf := Monitor.balanceOf Monitor.calm;
     Monitor.priceReplies := Monitor.priceReplies Monitor.calm;
     Monitor.pairReserves := Monitor.pairReserves Monitor.calm;
     Monitor.allowance := Monitor.allowance Monitor.calm;
     Monitor.approveSent := true; Monitor.approveMined := true;
     Monitor.pendingNonce := Monitor.pendingNonce Monitor.calm;
     Monitor.populated := true; Monitor.signed := true;
     Monitor.endpoints := Monitor.endpoints Monitor.calm |}.

Lemma entry_releases_witness :
  fst (Monitor.startSellMonitor Handler.sampleSettings "0xA" true reverted
         (Gate.lock "0xA") 8) = Gate.unlock.
Proof.
  apply (Monitor.entry_releases Handler.sampleSettings "0xA" true reverted
           (Gate.lock "0xA") 8).
  vm_compute. reflexivity.
Defined.

End BuyOutcome.

(** ** The class-based bot: gas of the front-run and back-run ([MEVExecutor]) *)

Module MevGas.

(** [targetGasPrice.mul(110).div(100)] *)
Definition frontrunGasPrice (targetGasPrice : Z) : Z := Z.quot (targetGasPrice * 110) 100.

(** [targetGasPrice.mul(105).div(100)] *)
Definition backrunGasPrice (targetGasPrice : Z) : Z := Z.quot (targetGasPrice * 105) 100.

(** [price.gt(maxGas) ? maxGas : price] *)
Definition capped (maxGas price : Z) : Z := if price >? maxGas then maxGas else price.

(** The gas price of the transaction [executeFrontrun] sends, [maxGas]
    being [config.maxGasPrice] in wei. *)
Definition executeFrontrun (maxGas targetGasPrice : Z) : Z :=
  capped maxGas (frontrunGasPrice targetGasPrice).

(** The same for [executeBackrun]. *)
Definition executeBackrun (maxGas targetGasPrice : Z) : Z :=
  capped maxGas (backrunGasPrice targetGasPrice).

(** X30. Neither transaction pays more than the configured maximum. The
    front-run outbids its target exactly when the target pays at least 10
    wei and less than the maximum: against a target at or above the
    maximum it is sent all the same, with a gas price that does not put
    it first. The back-run exceeds the target from 20 wei on, and never
    pays more than the front-run. *)
Theorem mev_gas_capped (maxGas targetGasPrice : Z) :
  0 <= targetGasPrice ->
  executeFrontrun maxGas targetGasPrice <= maxGas /\
  executeBackrun maxGas targetGasPrice <= maxGas /\
  (targetGasPrice < executeFrontrun maxGas targetGasPrice <->
   10 <= targetGasPrice /\ targetGasPrice < maxGas) /\
  (targetGasPrice < executeBackrun maxGas targetGasPrice <->
   20 <= targetGasPrice /\ targetGasPrice < maxGas) /\
  executeBackrun maxGas targetGasPrice <= executeFrontrun maxGas targetGasPrice.
Proof.
  intros Ht.
  unfold executeFrontrun, executeBackrun, capped, frontrunGasPrice, backrunGasPrice.
  rewrite !Z.quot_div_nonneg by lia.
  pose proof (Z.div_mod (targetGasPrice * 110) 100 ltac:(lia)) as Hf.
  pose proof (Z.mod_pos_bound (targetGasPrice * 110) 100 ltac:(lia)) as Hfm.
  pose proof (Z.div_mod (targetGasPrice * 105) 100 ltac:(lia)) as Hb.
  pose proof (Z.mod_pos_bound (targetGasPrice * 105) 100 ltac:(lia)) as Hbm.
  destruct (Z.gtb_spec (targetGasPrice * 110 / 100) maxGas);
    destruct (Z.gtb_spec (targetGasPrice * 105 / 100) maxGas);
    (split; [lia|]); (split; [lia|]); (split; [split; [intros ?; split; lia | lia]|]);
    (split; [split; [intros ?; split; lia | lia] | lia]).
Qed.

Lemma mev_gas_capped_witness :
  executeFrontrun (10 * 10 ^ 9) (12 * 10 ^ 9) <= 10 * 10 ^ 9.
Proof. apply (mev_gas_capped (10 * 10 ^ 9) (12 * 10 ^ 9)). lia. Defined.

End MevGas.
